(** * atvjs-esm: page lifecycle, event binding and menu synchronisation

    A shallow embedding of [src/page.ts], [src/handler.ts], [src/ajax.ts]
    and the menu module, together with the parts of lodash, of the DOM event
    interface and of the Promise constructor that this code relies on.

    - A JavaScript object is an association list of its own enumerable
      properties in insertion order, with a class (plain, array, function).
      Names that every object inherits from [Object.prototype]
      ([constructor], [toString], ..) are not used as property names.
    - A function is a reference.  What a function of the application
      returns, and which continuations a [ready] function calls, is given by
      the host; the functions of the application return normally.
    - The code itself throws in one place: [appendStyle] on a document that
      has neither a [head] nor a [document] element.  A call that can throw
      has a completion as its result.  A [ready] function does not catch
      what a continuation throws: the exception ends it, and the
      continuation calls that the host lists after the one that threw are
      not made.
    - The variables of the modules, the elements that handlers read and
      write, and the number of objects created so far are fields of one
      state, the world; the code runs in a state monad over it.  What the
      code does to its surroundings is appended to a trace.
    - A promise is the state of its settlement.  An invocation of a page
      factory is run in two steps: up to the return of the factory, and
      from there to its end.
    - A page factory holds the configuration that [makePage] was given; the
      properties that a call of the factory adds to this configuration are
      those of the result of the call.
    - The parser and the navigation module are not part of the sources at
      hand; they are modelled from the specification.  The parser calls a
      template that is a function and parses what it returns; what a markup
      contains is given by the host, the empty string contains nothing. *)

From Stdlib Require Import ZArith Ascii String List Bool Arith Lia.
From stdpp Require Import base option list strings gmap.
Import ListNotations.
Local Open Scope string_scope.

(** ** JavaScript values *)

(** Function objects are references.  The two functions of [defaults] in
    [page.ts] are named; every other function comes from the application
    and is identified by a number. *)
Inductive fn_ref :=
| FnDefaultTemplate
| FnDefaultData
| FnUser (id : nat).

(** The class of an object, as lodash tells them apart with [_.isFunction],
    [_.isArray] and [_.isPlainObject]. *)
Inductive obj_class :=
| Plain
| Array
| Function (f : fn_ref).

(** A value is a primitive or an object.  An object has a class and its own
    enumerable properties in insertion order; the elements of an array are
    its properties, in index order.  Numbers occur in this code only through
    their truthiness, integral ones are enough. *)
#[local] Unset Elimination Schemes.
Inductive value :=
| VUndefined
| VNull
| VBool (b : bool)
| VNum (z : Z)
| VStr (s : string)
| VObj (c : obj_class) (props : list (string * value)).
#[local] Set Elimination Schemes.

Abbreviation Props := (list (string * value)).

Definition VFun (f : fn_ref) : value := VObj (Function f) [].

(** JavaScript's ToBoolean. *)
Definition truthy (v : value) : bool :=
  match v with
  | VUndefined | VNull => false
  | VBool b => b
  | VNum z => negb (z =? 0)%Z
  | VStr s => negb (String.eqb s "")
  | VObj _ _ => true
  end.

Definition isUndefined (v : value) : bool :=
  match v with VUndefined => true | _ => false end.

Definition isObject (v : value) : bool :=
  match v with VObj _ _ => true | _ => false end.

Definition isFunction (v : value) : bool :=
  match v with VObj (Function _) _ => true | _ => false end.

Definition isArray (v : value) : bool :=
  match v with VObj Array _ => true | _ => false end.

Definition isString (v : value) : bool :=
  match v with VStr _ => true | _ => false end.

(** ** Properties of an object *)

Section Assoc.
Context {V : Type}.

Fixpoint alookup (k : string) (ps : list (string * V)) : option V :=
  match ps with
  | [] => None
  | (k', v) :: ps' => if decide (k = k') then Some v else alookup k ps'
  end.

(** [object[k] = v]: an existing property keeps its place, a new one is
    added last. *)
Fixpoint aset (k : string) (v : V) (ps : list (string * V)) : list (string * V) :=
  match ps with
  | [] => [(k, v)]
  | (k', v') :: ps' =>
      if decide (k = k') then (k', v) :: ps' else (k', v') :: aset k v ps'
  end.

(** [_.assign(object, source)]: every property of the source is written
    to the object. *)
Definition assign (object source : list (string * V)) : list (string * V) :=
  fold_left (λ o '(k, v), aset k v o) source object.
End Assoc.

(** [object[k]]: [undefined] when the object has no such property. *)
Definition aget (k : string) (ps : Props) : value :=
  default VUndefined (alookup k ps).

(** ** lodash: [_.defaults], [_.defaultsDeep] *)

(** [_.defaults(object, source)]: a property of the source is written where
    the object's value is [undefined]. *)
Definition defaults_shallow (object source : Props) : Props :=
  fold_left
    (fun o '(k, v) => if isUndefined (aget k o) then aset k v o else o)
    source object.

(** [_.defaultsDeep] is [mergeWith] with the customizer
    [customDefaultsMerge].  [mergeValue objValue srcValue] is the value that
    [baseMerge] leaves under a key whose value is [objValue] in the object
    and [srcValue] in the source:
    - a source value that is not an object is taken only where the object's
      value is [undefined];
    - where both are objects, the source's properties are merged into the
      object's value;
    - where the source value is an object and the object's value is
      [undefined], a function is taken as it is, an array or a plain object
      is rebuilt by merging it into a new empty one;
    - any other value of the object is kept. *)
Fixpoint mergeValue (objValue srcValue : value) {struct srcValue} : value :=
  match srcValue with
  | VObj sc sp =>
      let baseMerge (object : Props) :=
        fold_left (fun o '(k, s) => aset k (mergeValue (aget k o) s) o) sp object in
      match objValue with
      | VObj oc op => VObj oc (baseMerge op)
      | VUndefined =>
          match sc with
          | Function _ => srcValue
          | _ => VObj sc (baseMerge [])
          end
      | _ => objValue
      end
  | _ =>
      match objValue with
      | VUndefined => srcValue
      | _ => objValue
      end
  end.

(** [baseMerge(object, source, _, customDefaultsMerge)]. *)
Definition baseMerge (object source : Props) : Props :=
  fold_left (fun o '(k, s) => aset k (mergeValue (aget k o) s) o) source object.

Definition defaultsDeep (object source : Props) : Props :=
  baseMerge object source.

(** ** Strings *)

(** [split_space s]: the part of [s] before its first space and, when there
    is a space, everything after it. *)
Fixpoint split_space (s : string) : string * option string :=
  match s with
  | EmptyString => (EmptyString, None)
  | String c s' =>
      if Ascii.eqb c " "%char then (EmptyString, Some s')
      else let '(a, r) := split_space s' in (String c a, r)
  end.

Definition lower_ascii (c : Ascii.ascii) : Ascii.ascii :=
  let n := Ascii.nat_of_ascii c in
  if (65 <=? n)%nat && (n <=? 90)%nat then Ascii.ascii_of_nat (n + 32) else c.

(** [String.prototype.toLowerCase], on ASCII letters. *)
Fixpoint toLowerCase (s : string) : string :=
  match s with
  | EmptyString => EmptyString
  | String c s' => String (lower_ascii c) (toLowerCase s')
  end.

(** ** Promises *)

(** A promise is the state of its settlement; resolving or rejecting a
    settled promise changes nothing. *)
Inductive promise (A E : Type) :=
| Pending
| Fulfilled (a : A)
| Rejected (e : E).
Arguments Pending {A E}.
Arguments Fulfilled {A E} a.
Arguments Rejected {A E} e.

Definition resolve {A E} (a : A) (p : promise A E) : promise A E :=
  match p with Pending => Fulfilled a | _ => p end.

Definition reject {A E} (e : E) (p : promise A E) : promise A E :=
  match p with Pending => Rejected e | _ => p end.

(** ** Transport: [ajax.ts] *)

(** The fields of an [XMLHttpRequest] that the code reads. *)
Record Xhr := { status : Z; response : value }.

(** What a promise of this code is rejected with: a value handed to the
    [reject] continuation by a [ready] function, the raw request object of a
    failed transport, the [TypeError] of [ajax], or the [TypeError] of
    [appendStyle], which calls [insertBefore] on [null]. *)
Inductive failure :=
| Reason (v : value)
| XhrFailure (x : Xhr)
| AjaxTypeError
| DomTypeError.

(** How a call ends: it returns a value, or it throws. *)
Inductive completion (A : Type) :=
| Returns (a : A)
| Throws (e : failure).
Arguments Returns {A} a.
Arguments Throws {A} e.

(** [xhr.response] as the failure callback of [makePage] reads it. *)
Definition failure_response (e : failure) : value :=
  match e with
  | XhrFailure x => response x
  | _ => VUndefined
  end.

Record Request := { req_method : value; req_url : value; req_options : Props }.

(** How the host ends a request: [readyState] reaches 4, or the [error] or
    [abort] event fires, or nothing happens. *)
Inductive xhr_completion :=
| Done (x : Xhr)
| NetworkError (x : Xhr)
| Aborted (x : Xhr)
| Unanswered.

Definition ajax_defaults : Props := [("responseType", VStr "json")].

Definition props_of (v : value) : Props :=
  match v with VObj _ ps => ps | _ => [] end.

(** [typeof v === "object"]. *)
Definition typeof_object (v : value) : bool :=
  match v with
  | VNull | VObj Plain _ | VObj Array _ => true
  | _ => false
  end.

(** What a call of [ajax] does before any answer: it sends a request, or
    returns [Promise.reject(new TypeError(..))], or throws (reading [url.url]
    of [null]). *)
Inductive ajax_call :=
| Sends (r : Request)
| RejectsTypeError
| ThrowsTypeError.

Definition ajax_send (url options : value) (method : string) : ajax_call :=
  let options := assign (assign [] ajax_defaults) (props_of options) in
  let method :=
    if truthy (aget "method" options) then aget "method" options else VStr method in
  Sends {| req_method := method; req_url := url; req_options := options |}.

Definition ajax (url options : value) (method : string) : ajax_call :=
  if isUndefined options && typeof_object url then
    match url with
    | VNull => ThrowsTypeError
    | _ =>
        if truthy (aget "url" (props_of url)) then
          ajax_send (aget "url" (props_of url)) url method
        else RejectsTypeError
    end
  else if negb (isString url) then RejectsTypeError
  else ajax_send url options method.

(** The settlement of the promise of [ajax]: fulfilled with the request
    object for a status from 200 to 300, rejected with it otherwise. *)
Definition ajax_settle (c : xhr_completion) : promise Xhr failure :=
  match c with
  | Done x =>
      if (200 <=? status x)%Z && (status x <=? 300)%Z then Fulfilled x
      else Rejected (XhrFailure x)
  | NetworkError x | Aborted x => Rejected (XhrFailure x)
  | Unanswered => Pending
  end.

Definition Ajax_get (url options : value) : ajax_call := ajax url options "GET".

(** ** Documents and event listeners *)

Inductive target :=
| TDocument
| TElement (el : nat).

#[global] Instance target_eq_dec : EqDecision target.
Proof. solve_decision. Defined.

(** The three functions of [handlers.select] in [handler.ts]. *)
Inductive default_handler :=
| OnLinkClick
| OnModalCloseBtnClick
| OnMenuItemSelect.

#[global] Instance default_handler_eq_dec : EqDecision default_handler.
Proof. solve_decision. Defined.

(** A function object given to [addEventListener]: one of the default
    handlers, or the arrow function [(e) => f.call(cfg, e)] of
    [setListeners], which is a new object, numbered [closure], each time the
    arrow expression is evaluated. *)
Inductive callback :=
| CbDefault (h : default_handler)
| CbBound (closure : nat) (f : fn_ref) (this : Props).

(** Identity of function objects. *)
Definition same_callback (a b : callback) : bool :=
  match a, b with
  | CbDefault h, CbDefault h' => bool_decide (h = h')
  | CbBound c _ _, CbBound c' _ _ => bool_decide (c = c')
  | _, _ => false
  end.

Record Listener := { l_target : target; l_type : string; l_callback : callback }.

Definition same_listener (a b : Listener) : bool :=
  bool_decide (l_target a = l_target b) && bool_decide (l_type a = l_type b)
  && same_callback (l_callback a) (l_callback b).

(** The result of [doc.querySelectorAll(selector)]. *)
Inductive query_result :=
| Matches (els : list nat)
| QueryThrows.

(** Where a document comes from. *)
Inductive doc_source :=
| Parsed (template data : value)
| Loader (message : string)
| ErrorPage (error : failure).

(** A document: its source, the markup of its [head] element when it has
    one, whether it has a [document] element, the listeners on it and on its
    elements, its [page] property, and its [querySelectorAll] method ([None]
    where the document has none). *)
Record Document := {
  source : doc_source;
  head : option string;
  docEl : bool;
  listeners : list Listener;
  page : option Props;
  querySelectorAll : option (string → query_result);
}.

Definition set_listeners (ls : list Listener) (d : Document) : Document :=
  {| source := source d; head := head d; docEl := docEl d; listeners := ls;
     page := page d; querySelectorAll := querySelectorAll d |}.

Definition set_head (h : option string) (d : Document) : Document :=
  {| source := source d; head := h; docEl := docEl d; listeners := listeners d;
     page := page d; querySelectorAll := querySelectorAll d |}.

Definition set_page (p : option Props) (d : Document) : Document :=
  {| source := source d; head := head d; docEl := docEl d;
     listeners := listeners d; page := p;
     querySelectorAll := querySelectorAll d |}.

(** [target.addEventListener(type, callback)]: nothing is added when the
    same callback is already registered for the type on the target. *)
Definition addEventListener (t : target) (type : string) (cb : callback)
    (d : Document) : Document :=
  let l := {| l_target := t; l_type := type; l_callback := cb |} in
  if existsb (same_listener l) (listeners d) then d
  else set_listeners (listeners d ++ [l]) d.

(** [target.removeEventListener(type, callback)]. *)
Definition removeEventListener (t : target) (type : string) (cb : callback)
    (d : Document) : Document :=
  let l := {| l_target := t; l_type := type; l_callback := cb |} in
  set_listeners (List.filter (λ l', negb (same_listener l l')) (listeners d)) d.

(** The listeners that an event of type [type] invokes on target [t]. *)
Definition listeners_on (t : target) (type : string) (d : Document) : list callback :=
  map l_callback
    (List.filter (λ l, bool_decide (l_target l = t) && bool_decide (l_type l = type))
       (listeners d)).

(** ** Elements, page factories and the trace *)

(** A page factory: the function object that [makePage] returns, and the
    configuration it has captured. *)
Record Page := { page_id : nat; page_cfg : Props }.

(** An element as the handlers see it: its name, its attributes, and the
    two properties [page] and [pageDoc] of a menu item. *)
Record Element := {
  nodeName : string;
  attributes : list (string * string);
  innerHTML : string;
  el_page : option Page;
  pageDoc : option Document;
}.

(** [element.getAttribute(name)]; [None] is [null]. *)
Definition getAttribute (name : string) (el : Element) : option string :=
  alookup name (attributes el).

(** Truthiness of a string or [null]. *)
Definition truthy_attr (a : option string) : bool :=
  match a with
  | Some s => negb (String.eqb s "")
  | None => false
  end.

Definition set_pageDoc (d : option Document) (el : Element) : Element :=
  {| nodeName := nodeName el; attributes := attributes el;
     innerHTML := innerHTML el; el_page := el_page el; pageDoc := d |}.

Definition setAttribute (name v : string) (el : Element) : Element :=
  {| nodeName := nodeName el; attributes := aset name v (attributes el);
     innerHTML := innerHTML el; el_page := el_page el; pageDoc := pageDoc el |}.

(** What the code does to its surroundings, in the order in which it does
    it: warnings on the console, calls of the functions of a configuration,
    and calls of the collaborators. *)
Inductive event :=
| Warn (message : string)
| ReadyCalled (f : fn_ref) (options : value)
| DataCalled (f : fn_ref) (response : value)
| AfterReadyCalled (f : fn_ref) (doc : Document)
| OnErrorCalled (f : fn_ref) (response : value) (xhr : failure)
| HandlerCalled (f : fn_ref) (this : Props) (on : target) (type : string)
| AjaxSent (r : Request)
| PageCalled (p : Page)
| MenuBarSetDocument (doc : Document) (item : nat)
| MenuBarSetSelectedItem (item : nat)
| DismissModal
| Navigate (name : string) (options : value) (replace : bool).

(** ** The host *)

(** A continuation call made by a [ready] function. *)
Inductive cont_call :=
| CallResolve (response : value)
| CallReject (reason : value).

(** What the application and the platform supply: the return value of an
    application function, the continuation calls of a [ready] function
    (those it makes before it returns, and those made later on its behalf),
    [JSON.parse] ([None] where it throws), what the parser finds in a
    markup (the content of its [head], whether it has a [document] element,
    the elements that a selector matches), and the answers to requests. *)
Record Host := {
  call_user : nat → list value → value;
  ready_calls : nat → value → list cont_call * list cont_call;
  JSON_parse : string → option value;
  parsed_head : value → option string;
  parsed_docEl : value → bool;
  parsed_query : value → option (string → query_result);
  answer : Request → xhr_completion;
}.

(** The value that a function returns: the two functions of [defaults] in
    [page.ts], or a function of the application. *)
Definition fn_returns (host : Host) (f : fn_ref) (args : list value) : value :=
  match f with
  | FnDefaultTemplate => VStr ""
  | FnDefaultData => nth 0 args VUndefined
  | FnUser id => call_user host id args
  end.

(** Modelled from the spec: the markup that [Parser.dom(template, data)]
    parses, which is the template, or what the template returns for the
    data when it is a function. *)
Definition markup (host : Host) (template data : value) : value :=
  match template with
  | VObj (Function f) _ => fn_returns host f [data]
  | _ => template
  end.

(** A markup in which there is no element. *)
Definition blank (m : value) : bool :=
  match m with
  | VStr s => String.eqb s ""
  | _ => false
  end.

(** Modelled from the spec: the document that [Parser.dom(template, data)]
    of [parser.ts] returns, a parsed document with no listeners and no
    [page]. *)
Definition Parser_dom (host : Host) (template data : value) : Document :=
  let m := markup host template data in
  {| source := Parsed template data;
     head := if blank m then None else parsed_head host m;
     docEl := negb (blank m) && parsed_docEl host m;
     listeners := [];
     page := None;
     querySelectorAll := parsed_query host m |}.

(** Modelled from the spec: [Navigation.getLoaderDoc(message)] of
    [navigation.ts]. *)
Definition Navigation_getLoaderDoc (message : string) : Document :=
  {| source := Loader message; head := None; docEl := true; listeners := [];
     page := None; querySelectorAll := None |}.

(** Modelled from the spec: [Navigation.getErrorDoc(error)] of
    [navigation.ts]. *)
Definition Navigation_getErrorDoc (error : failure) : Document :=
  {| source := ErrorPage error; head := None; docEl := true; listeners := [];
     page := None; querySelectorAll := None |}.

(** ** Module state *)

(** A string, or a function that returns one. *)
Inductive text :=
| Text (s : string)
| Thunk (s : string).

Definition text_value (t : text) : string :=
  match t with Text s | Thunk s => s end.

(** An entry of [items] in the menu configuration. *)
Record Item := {
  item_id : string;
  item_attributes : list (string * string);
  item_name : option text;
  item_page : option Page;
}.

(** The interface [Options] of the menu module. *)
Record MenuOptions := {
  menu_attributes : list (string * string);
  rootTemplateAttributes : list (string * string);
  items : list Item;
  loadingMessage : text;
  errorMessage : text;
}.

(** [Partial<Options>]. *)
Record MenuConfig := {
  cfg_attributes : option (list (string * string));
  cfg_rootTemplateAttributes : option (list (string * string));
  cfg_items : option (list Item);
  cfg_loadingMessage : option text;
  cfg_errorMessage : option text;
}.

(** The module-level variables of [page.ts], [handler.ts] and the menu
    module, the elements of the documents, the number of function objects
    and elements created so far, and the trace. *)
Record World := {
  next_ref : nat;
  trace : list event;
  elements : gmap nat Element;
  (* page.ts *)
  page_defaults : Props;
  pages : gmap (option string) Page;
  (* menu *)
  created : bool;
  menu_defaults : MenuOptions;
  menu_doc : Document;
  menuBarEl : list (string * string);
  menuBarTpl : list (string * string);
  menuBar_children : list nat;
  itemsCache : gmap string nat;
}.

(** Field updates. *)
Definition with_next_ref (x : nat) (w : World) : World :=
  {| next_ref := x; trace := trace w; elements := elements w;
     page_defaults := page_defaults w; pages := pages w;
     created := created w; menu_defaults := menu_defaults w;
     menu_doc := menu_doc w; menuBarEl := menuBarEl w;
     menuBarTpl := menuBarTpl w; menuBar_children := menuBar_children w;
     itemsCache := itemsCache w |}.
Definition with_trace (x : list event) (w : World) : World :=
  {| next_ref := next_ref w; trace := x; elements := elements w;
     page_defaults := page_defaults w; pages := pages w;
     created := created w; menu_defaults := menu_defaults w;
     menu_doc := menu_doc w; menuBarEl := menuBarEl w;
     menuBarTpl := menuBarTpl w; menuBar_children := menuBar_children w;
     itemsCache := itemsCache w |}.
Definition with_elements (x : gmap nat Element) (w : World) : World :=
  {| next_ref := next_ref w; trace := trace w; elements := x;
     page_defaults := page_defaults w; pages := pages w;
     created := created w; menu_defaults := menu_defaults w;
     menu_doc := menu_doc w; menuBarEl := menuBarEl w;
     menuBarTpl := menuBarTpl w; menuBar_children := menuBar_children w;
     itemsCache := itemsCache w |}.
Definition with_page_defaults (x : Props) (w : World) : World :=
  {| next_ref := next_ref w; trace := trace w; elements := elements w;
     page_defaults := x; pages := pages w; created := created w;
     menu_defaults := menu_defaults w; menu_doc := menu_doc w;
     menuBarEl := menuBarEl w; menuBarTpl := menuBarTpl w;
     menuBar_children := menuBar_children w; itemsCache := itemsCache w |}.
Definition with_pages (x : gmap (option string) Page) (w : World) : World :=
  {| next_ref := next_ref w; trace := trace w; elements := elements w;
     page_defaults := page_defaults w; pages := x; created := created w;
     menu_defaults := menu_defaults w; menu_doc := menu_doc w;
     menuBarEl := menuBarEl w; menuBarTpl := menuBarTpl w;
     menuBar_children := menuBar_children w; itemsCache := itemsCache w |}.
Definition with_created (x : bool) (w : World) : World :=
  {| next_ref := next_ref w; trace := trace w; elements := elements w;
     page_defaults := page_defaults w; pages := pages w; created := x;
     menu_defaults := menu_defaults w; menu_doc := menu_doc w;
     menuBarEl := menuBarEl w; menuBarTpl := menuBarTpl w;
     menuBar_children := menuBar_children w; itemsCache := itemsCache w |}.
Definition with_menu_defaults (x : MenuOptions) (w : World) : World :=
  {| next_ref := next_ref w; trace := trace w; elements := elements w;
     page_defaults := page_defaults w; pages := pages w;
     created := created w; menu_defaults := x; menu_doc := menu_doc w;
     menuBarEl := menuBarEl w; menuBarTpl := menuBarTpl w;
     menuBar_children := menuBar_children w; itemsCache := itemsCache w |}.
Definition with_menuBarEl (x : list (string * string)) (w : World) : World :=
  {| next_ref := next_ref w; trace := trace w; elements := elements w;
     page_defaults := page_defaults w; pages := pages w;
     created := created w; menu_defaults := menu_defaults w;
     menu_doc := menu_doc w; menuBarEl := x; menuBarTpl := menuBarTpl w;
     menuBar_children := menuBar_children w; itemsCache := itemsCache w |}.
Definition with_menuBarTpl (x : list (string * string)) (w : World) : World :=
  {| next_ref := next_ref w; trace := trace w; elements := elements w;
     page_defaults := page_defaults w; pages := pages w;
     created := created w; menu_defaults := menu_defaults w;
     menu_doc := menu_doc w; menuBarEl := menuBarEl w; menuBarTpl := x;
     menuBar_children := menuBar_children w; itemsCache := itemsCache w |}.
Definition with_menuBar_children (x : list nat) (w : World) : World :=
  {| next_ref := next_ref w; trace := trace w; elements := elements w;
     page_defaults := page_defaults w; pages := pages w;
     created := created w; menu_defaults := menu_defaults w;
     menu_doc := menu_doc w; menuBarEl := menuBarEl w;
     menuBarTpl := menuBarTpl w; menuBar_children := x;
     itemsCache := itemsCache w |}.
Definition with_itemsCache (x : gmap string nat) (w : World) : World :=
  {| next_ref := next_ref w; trace := trace w; elements := elements w;
     page_defaults := page_defaults w; pages := pages w;
     created := created w; menu_defaults := menu_defaults w;
     menu_doc := menu_doc w; menuBarEl := menuBarEl w;
     menuBarTpl := menuBarTpl w; menuBar_children := menuBar_children w;
     itemsCache := x |}.

(** ** Effects *)

(** The code runs in a state monad over the world. *)
Definition M (A : Type) : Type := World → A * World.

#[global] Instance M_ret : MRet M := λ A a w, (a, w).
#[global] Instance M_bind : MBind M :=
  λ A B k m w, let '(a, w') := m w in k a w'.

Definition gets {A} (f : World → A) : M A := λ w, (f w, w).
Definition modify (f : World → World) : M unit := λ w, (tt, f w).

(** A new object reference. *)
Definition fresh : M nat :=
  λ w, (next_ref w, with_next_ref (S (next_ref w)) w).

Definition emit (e : event) : M unit :=
  modify (λ w, with_trace (trace w ++ [e]) w).

Definition console_warn (message : string) : M unit := emit (Warn message).

(** [_.each(collection, f)] for an effect [f] that updates [acc]. *)
Fixpoint each {A B} (f : A → B → M B) (l : list A) (acc : B) : M B :=
  match l with
  | [] => mret acc
  | x :: l' => acc' ← f x acc; each f l' acc'
  end.

(** Modelled from the spec: [Navigation.dismissModal()] of [navigation.ts],
    a request to the navigation stack. *)
Definition Navigation_dismissModal : M unit := emit DismissModal.

(** Modelled from the spec: [Navigation.navigate(page, options, replace)] of
    [navigation.ts], a request to the navigation stack. *)
Definition Navigation_navigate (page : string) (options : value) (replace : bool) :
    M unit :=
  emit (Navigate page options replace).

(** The state and the result of running an effect. *)
Definition exec {A} (m : M A) (w : World) : World := (m w).2.
Definition eval {A} (m : M A) (w : World) : A := (m w).1.

(** ** The menu module *)

Module Menu.

Definition docStr : string :=
  "<document><menuBarTemplate><menuBar></menuBar></menuBarTemplate></document>".

Definition defaults : MenuOptions :=
  {| menu_attributes := []; rootTemplateAttributes := []; items := [];
     loadingMessage := Text ""; errorMessage := Text "" |}.

(** [_.assign(defaults, cfg)] on the fields of [Options]. *)
Definition assign_options (d : MenuOptions) (cfg : MenuConfig) : MenuOptions :=
  {| menu_attributes := default (menu_attributes d) (cfg_attributes cfg);
     rootTemplateAttributes :=
       default (rootTemplateAttributes d) (cfg_rootTemplateAttributes cfg);
     items := default (items d) (cfg_items cfg);
     loadingMessage := default (loadingMessage d) (cfg_loadingMessage cfg);
     errorMessage := default (errorMessage d) (cfg_errorMessage cfg) |}.

(** The configuration [{}]. *)
Definition no_config : MenuConfig :=
  {| cfg_attributes := None; cfg_rootTemplateAttributes := None;
     cfg_items := None; cfg_loadingMessage := None; cfg_errorMessage := None |}.

Definition setOptions (cfg : MenuConfig) : M unit :=
  modify (λ w, with_menu_defaults (assign_options (menu_defaults w) cfg) w).

(** [setAttributes(el, attributes)] on the attributes of an element. *)
Definition setAttributes (el attributes : list (string * string)) :
    list (string * string) :=
  assign el attributes.

Definition addItem (item : Item) : M (option nat) :=
  if String.eqb (item_id item) "" then
    console_warn "Cannot add menuitem. A unique identifier is required for the menuitem to work correctly.";;
    mret None
  else
    el ← fresh;
    let attrs := assign (assign [] (item_attributes item)) [("id", item_id item)] in
    let name :=
      match item_name item with
      | Some t => text_value t
      | None => "undefined"
      end in
    let element :=
      {| nodeName := "menuItem";
         attributes := setAttributes [] attrs;
         innerHTML := "<title>" ++ name ++ "</title>";
         el_page := item_page item;
         pageDoc := None |} in
    modify (λ w, with_elements (<[el := element]> (elements w)) w);;
    modify (λ w, with_menuBar_children (menuBar_children w ++ [el]) w);;
    modify (λ w, with_itemsCache (<[item_id item := el]> (itemsCache w)) w);;
    mret (Some el).

(** [create(cfg)]; the result [None] is [undefined]. *)
Definition create (cfg : MenuConfig) : M (option Document) :=
  is_created ← gets created;
  if is_created : bool then
    console_warn "An instance of menu already exists, skipping creation...";;
    mret None
  else
    modify (λ w, with_menu_defaults (assign_options (menu_defaults w) cfg) w);;
    defaults ← gets menu_defaults;
    modify (λ w, with_menuBarEl
                   (setAttributes (menuBarEl w) (menu_attributes defaults)) w);;
    modify (λ w, with_menuBarTpl
                   (setAttributes (menuBarTpl w) (rootTemplateAttributes defaults)) w);;
    each (λ item (_ : unit), addItem item;; mret tt) (items defaults) tt;;
    modify (with_created true);;
    doc ← gets menu_doc;
    mret (Some doc).

Definition get : M Document :=
  is_created ← gets created;
  (if is_created : bool then mret tt else create no_config;; mret tt);;
  gets menu_doc.

Definition setDocument (doc : Document) (menuItemid : string) : M unit :=
  menuItem ← gets (λ w, itemsCache w !! menuItemid);
  match menuItem with
  | None =>
      console_warn
        ("Cannot set document to the menuitem. The given id " ++ menuItemid
         ++ " does not exist.")
  | Some menuItem => emit (MenuBarSetDocument doc menuItem)
  end.



Definition getLoadingMessage : M string :=
  gets (λ w, text_value (loadingMessage (menu_defaults w))).


End Menu.

(** ** [handler.ts] *)

Module Handler.

Definition hrefAttribute : string := "data-href-page".
Definition hrefOptionsAttribute : string := "data-href-page-options".
Definition hrefPageReplaceAttribute : string := "data-href-page-replace".
Definition modalCloseBtnAttribute : string := "data-alert-dissmiss".
Definition menuItemReloadAttribute : string := "reloadOnSelect".

(** An event: its type and the element it was dispatched to. *)
Record Event := { ev_type : string; ev_target : nat }.

(** The load that [onMenuItemSelect] has started: the promise of [page()]
    is not settled yet, its two callbacks are waiting. *)
Record Load := { load_element : nat; load_menuId : string }.

(** [String(element.getAttribute("id"))], as a key of [itemsCache]. *)
Definition menuId_of (el : Element) : string :=
  default "null" (getAttribute "id" el).

Section Handlers.
Context (host : Host).

Definition onLinkClick (e : Event) : M unit :=
  element ← gets (λ w, elements w !! ev_target e);
  match element with
  | None => mret tt
  | Some element =>
      let page := getAttribute hrefAttribute element in
      let replace :=
        bool_decide (getAttribute hrefPageReplaceAttribute element = Some "true") in
      if negb (truthy_attr page) then mret tt
      else
        let attr := getAttribute hrefOptionsAttribute element in
        let attr := if truthy_attr attr then default "" attr else "{}" in
        options ←
          match JSON_parse host attr with
          | Some options => mret options
          | None =>
              console_warn
                ("Invalid value for the page options (" ++ hrefOptionsAttribute
                 ++ "=" ++ attr ++ ") in the template.");;
              mret (VObj Plain [])
          end;
        Navigation_navigate (default "" page) options replace
  end.

Definition onModalCloseBtnClick (e : Event) : M unit :=
  element ← gets (λ w, elements w !! ev_target e);
  match element with
  | None => mret tt
  | Some element =>
      if truthy_attr (getAttribute modalCloseBtnAttribute element)
      then Navigation_dismissModal
      else mret tt
  end.

(** [onMenuItemSelect] up to the call of [then]: the result is the load
    it has started, if any. *)
Definition onMenuItemSelect (e : Event) : M (option Load) :=
  element ← gets (λ w, elements w !! ev_target e);
  match element with
  | None => mret None
  | Some element =>
      let menuId := menuId_of element in
      let elementType := toLowerCase (nodeName element) in
      let page := el_page element in
      if String.eqb elementType "menuitem" then
        match page with
        | Some page =>
            if negb (bool_decide (is_Some (pageDoc element)))
               || truthy_attr (getAttribute menuItemReloadAttribute element)
            then
              message ← Menu.getLoadingMessage;
              Menu.setDocument (Navigation_getLoaderDoc message) menuId;;
              emit (PageCalled page);;
              mret (Some {| load_element := ev_target e; load_menuId := menuId |})
            else mret None
        | None => mret None
        end
      else mret None
  end.

(** The first callback of [page().then(..)]; [None] is a falsy value. *)
Definition onPageLoaded (l : Load) (doc : option Document) : M unit :=
  match doc with
  | Some doc =>
      modify (λ w, with_elements
                     (alter (set_pageDoc (Some doc)) (load_element l) (elements w)) w);;
      Menu.setDocument doc (load_menuId l)
  | None => mret tt
  end;;
  Navigation_dismissModal.

(** The second callback of [page().then(..)]. *)
Definition onPageFailed (l : Load) (error : failure) : M unit :=
  Menu.setDocument (Navigation_getErrorDoc error) (load_menuId l);;
  Navigation_dismissModal.

(** The callbacks of a load, once the promise of [page()] is settled. *)
Definition settle (l : Load) (p : promise (option Document) failure) : M unit :=
  match p with
  | Pending => mret tt
  | Fulfilled doc => onPageLoaded l doc
  | Rejected error => onPageFailed l error
  end.

(** A selection of a menu item together with the settlement of the
    promise that its page returns. *)
Definition select (el : nat) (p : promise (option Document) failure) : M unit :=
  l ← onMenuItemSelect {| ev_type := "select"; ev_target := el |};
  match l with
  | Some l => settle l p
  | None => mret tt
  end.

(** The default handlers, by event name. *)
Definition handlers : list (string * list default_handler) :=
  [("select", [OnLinkClick; OnModalCloseBtnClick; OnMenuItemSelect])].

Definition listenerFn (add : bool) :
    target → string → callback → Document → Document :=
  if add then addEventListener else removeEventListener.

(** [_.attempt(() => doc.querySelectorAll(selector))]: the elements, or
    the error that was caught. *)
Definition attempt_query (doc : Document) (selector : string) : query_result :=
  match querySelectorAll doc with
  | Some query => query selector
  | None => QueryThrows
  end.

(** The targets of an event descriptor [e] and its event name. *)
Definition descriptor_targets (doc : Document) (e : string) : string * list target :=
  let '(ev, rest) := split_space e in
  let selector := from_option (λ r, (split_space r).1) "" rest in
  if negb (String.eqb selector "") then
    let selector := default "" rest in
    match attempt_query doc selector with
    | QueryThrows => (ev, [])
    | Matches els => (ev, map TElement els)
    end
  else (ev, [TDocument]).

(** The handler references of a descriptor as a list. *)
Definition handler_list (fns : value) : list value :=
  if isArray fns then map snd (props_of fns) else [fns].

(** The callback of the inner [_.each(fns, ..)]: one handler reference
    of a descriptor, bound on every target. *)
Definition bind_handler (cfg : Props) (add : bool) (ev : string)
    (elements : list target) (fn : value) (doc : Document) : M Document :=
  let fn := match fn with VStr name => aget name cfg | _ => fn end in
  match fn with
  | VObj (Function f) _ =>
      each (λ el doc,
        closure ← fresh;
        mret (listenerFn add el ev (CbBound closure f cfg) doc))
        elements doc
  | _ => mret doc
  end.

(** The callback of [_.each(events, ..)]: one entry of the events map. *)
Definition bind_descriptor (cfg : Props) (add : bool)
    (entry : string * value) (doc : Document) : M Document :=
  let '(e, fns) := entry in
  let '(ev, elements) := descriptor_targets doc e in
  each (bind_handler cfg add ev elements) (handler_list fns) doc.

Definition setListeners (doc : option Document) (cfg : Props) (add : bool) :
    M (option Document) :=
  match doc with
  | None => mret None
  | Some doc =>
      if isObject (aget "events" cfg) then
        doc ← each (bind_descriptor cfg add) (props_of (aget "events" cfg)) doc;
        mret (Some doc)
      else mret (Some doc)
  end.

Definition addListeners (doc : option Document) (cfg : Props) :=
  setListeners doc cfg true.

Definition removeListeners (doc : option Document) (cfg : Props) :=
  setListeners doc cfg false.

Definition setDefaultHandlers (doc : option Document) (add : bool) :
    option Document :=
  match doc with
  | None => None
  | Some doc =>
      Some (fold_left (λ doc '(name, handler),
              fold_left (λ doc callback,
                listenerFn add TDocument name (CbDefault callback) doc)
                handler doc)
              handlers doc)
  end.

Definition addDefaultHandlers (doc : option Document) := setDefaultHandlers doc true.
Definition removeDefaultHandlers (doc : option Document) := setDefaultHandlers doc false.

Definition setHandlers (doc : option Document) (cfg : Props) (add : bool) :
    M (option Document) :=
  if add then addListeners (addDefaultHandlers doc) cfg
  else removeListeners (removeDefaultHandlers doc) cfg.

Definition addAll (doc : option Document) (cfg : Props) := setHandlers doc cfg true.
Definition removeAll (doc : option Document) (cfg : Props) := setHandlers doc cfg false.

(** What a registered callback does when the event [e] reaches the
    target [on] it is registered on. *)
Definition invoke (on : target) (e : Event) (cb : callback) : M unit :=
  match cb with
  | CbBound _ f cfg => emit (HandlerCalled f cfg on (ev_type e))
  | CbDefault OnLinkClick => onLinkClick e
  | CbDefault OnModalCloseBtnClick => onModalCloseBtnClick e
  | CbDefault OnMenuItemSelect => onMenuItemSelect e;; mret tt
  end.

(** The listeners of one target for the event [e], in the order of
    their registration. *)
Definition fire (doc : Document) (on : target) (e : Event) : M unit :=
  each (λ cb (_ : unit), invoke on e cb) (listeners_on on (ev_type e) doc) tt.

End Handlers.
End Handler.

(** ** [page.ts] *)

(** What an invocation of a page factory still waits for once the factory
    has returned: nothing, the later continuation calls of its [ready]
    function, or the promise of [Ajax.get]. *)
Inductive waiting :=
| Nothing
| Continuations (calls : list cont_call)
| Transport (a : ajax_call).

(** An invocation of a page factory: the configuration, the promise that
    the factory has returned, and what is still to come. *)
Record Invocation := {
  inv_cfg : Props;
  inv_promise : promise (option Document) failure;
  inv_waiting : waiting;
}.

Module Page.

(** The initial value of [defaults]. *)
Definition defaults : Props :=
  [("style", VStr "");
   ("template", VFun FnDefaultTemplate);
   ("data", VFun FnDefaultData);
   ("options", VObj Plain [("responseType", VStr "json")])].

(** The key of the map [pages] for a name; a name that is not a string is
    [undefined] under the declared type of [create]. *)
Definition key (name : value) : option string :=
  match name with VStr s => Some s | _ => None end.

Section Pages.
Context (host : Host).

Definition setOptions (cfg : Props) : M unit :=
  modify (λ w, with_page_defaults (assign (page_defaults w) cfg) w).

(** A call [f(args)] of a function of the configuration. *)
Definition call (f : fn_ref) (args : list value) : M value :=
  match f with
  | FnDefaultTemplate => console_warn "No template exists!"
  | _ => mret tt
  end;;
  mret (fn_returns host f args).

(** [appendStyle(style, doc)]: the [head] of the document gets the style
    element as its markup.  A document without a [head] gets one, inserted
    before the first child of its [document] element; where there is no
    such element either, [docEl] is [null] and [docEl.insertBefore] throws. *)
Definition appendStyle (style : value) (doc : Document) : completion Document :=
  match style with
  | VStr style =>
      if bool_decide (is_Some (head doc)) || docEl doc then
        Returns (set_head (Some ("<style>" ++ style ++ "</style>")) doc)
      else Throws DomTypeError
  | _ => Returns doc
  end.

(** [prepareDom(doc, cfg)]: the document, or [None] for [undefined], and
    the configuration, which [_.defaults] has updated. *)
Definition prepareDom (doc : option Document) (cfg : Props) :
    M (completion (option Document) * Props) :=
  match doc with
  | None =>
      console_warn "Cannnot prepare, the provided element is not a document.";;
      mret (Returns None, cfg)
  | Some doc =>
      defaults ← gets page_defaults;
      let cfg := defaults_shallow cfg defaults in
      match appendStyle (aget "style" cfg) doc with
      | Returns doc =>
          doc ← Handler.addAll (Some doc) cfg;
          mret (Returns doc, cfg)
      | Throws e => mret (Throws e, cfg)
      end
  end.

(** Modelled from the spec: the call [Parser.dom(template, data)], in which
    a template that is a function is called with the data. *)
Definition render (template data : value) : M Document :=
  match template with
  | VObj (Function f) _ => call f [data];; mret tt
  | _ => mret tt
  end;;
  mret (Parser_dom host template data).

(** [makeDom(cfg, response)], with [[]] for a response that is
    [undefined]. *)
Definition makeDom (cfg : Props) (response : value) :
    M (completion Document * Props) :=
  let response := if isUndefined response then VObj Array [] else response in
  defaults ← gets page_defaults;
  let cfg := defaults_shallow cfg defaults in
  data ←
    match aget "data" cfg with
    | VObj (Function f) _ => emit (DataCalled f response);; call f [response]
    | data => mret data
    end;
  doc ← render (aget "template" cfg) data;
  '(prepared, cfg) ← prepareDom (Some doc) cfg;
  match prepared with
  | Returns prepared =>
      let doc := default doc prepared in
      match aget "afterReady" cfg with
      | VObj (Function f) _ => emit (AfterReadyCalled f doc)
      | _ => mret tt
      end;;
      mret (Returns (set_page (Some cfg) doc), cfg)
  | Throws e => mret (Throws e, cfg)
  end.

(** The [resolve] continuation that the factory hands to [ready]: what it
    throws, if anything, and the invocation after the call. *)
Definition resolve_ready (response : value) (i : Invocation) :
    M (option failure * Invocation) :=
  if truthy response || isUndefined response then
    '(doc, cfg) ← makeDom (inv_cfg i) response;
    match doc with
    | Returns doc =>
        mret (None,
              {| inv_cfg := cfg; inv_promise := resolve (Some doc) (inv_promise i);
                 inv_waiting := inv_waiting i |})
    | Throws e =>
        mret (Some e,
              {| inv_cfg := cfg; inv_promise := inv_promise i;
                 inv_waiting := inv_waiting i |})
    end
  else
    mret (None,
          {| inv_cfg := inv_cfg i; inv_promise := resolve None (inv_promise i);
             inv_waiting := inv_waiting i |}).

Definition continue (c : cont_call) (i : Invocation) :
    M (option failure * Invocation) :=
  match c with
  | CallResolve response => resolve_ready response i
  | CallReject reason =>
      mret (None,
            {| inv_cfg := inv_cfg i;
               inv_promise := reject (Reason reason) (inv_promise i);
               inv_waiting := inv_waiting i |})
  end.

(** The continuation calls of a [ready] function, one after the other, up
    to the first that throws. *)
Fixpoint continuations (calls : list cont_call) (i : Invocation) :
    M (option failure * Invocation) :=
  match calls with
  | [] => mret (None, i)
  | c :: calls' =>
      '(thrown, i') ← continue c i;
      match thrown with
      | Some e => mret (Some e, i')
      | None => continuations calls' i'
      end
  end.

(** The continuation calls of a [ready] function; the two functions of
    [defaults] call neither continuation. *)
Definition ready_of (f : fn_ref) (options : value) : list cont_call * list cont_call :=
  match f with
  | FnUser id => ready_calls host id options
  | _ => ([], [])
  end.

(** The function that [makePage(cfg)] returns, applied to [options], up
    to its return.  What is thrown inside the executor of the promise, by
    [makeDom] or through [ready], rejects the promise. *)
Definition invoke (cfg : Props) (options : value) : M Invocation :=
  defaults ← gets page_defaults;
  let cfg := defaultsDeep cfg defaults in
  let start := {| inv_cfg := cfg; inv_promise := Pending; inv_waiting := Nothing |} in
  match aget "ready" cfg with
  | VObj (Function f) _ =>
      emit (ReadyCalled f options);;
      let '(now, later) := ready_of f options in
      '(thrown, i) ← continuations now start;
      match thrown with
      | None =>
          mret {| inv_cfg := inv_cfg i; inv_promise := inv_promise i;
                  inv_waiting := Continuations later |}
      | Some e =>
          mret {| inv_cfg := inv_cfg i; inv_promise := reject e (inv_promise i);
                  inv_waiting := Nothing |}
      end
  | _ =>
      if truthy (aget "url" cfg) then
        match Ajax_get (aget "url" cfg) (aget "options" cfg) with
        | Sends r =>
            emit (AjaxSent r);;
            mret {| inv_cfg := cfg; inv_promise := Pending;
                    inv_waiting := Transport (Sends r) |}
        | RejectsTypeError =>
            mret {| inv_cfg := cfg; inv_promise := Pending;
                    inv_waiting := Transport RejectsTypeError |}
        | ThrowsTypeError =>
            mret {| inv_cfg := cfg; inv_promise := Rejected AjaxTypeError;
                    inv_waiting := Nothing |}
        end
      else
        '(doc, cfg) ← makeDom cfg VUndefined;
        match doc with
        | Returns doc =>
            mret {| inv_cfg := cfg; inv_promise := Fulfilled (Some doc);
                    inv_waiting := Nothing |}
        | Throws e =>
            mret {| inv_cfg := cfg; inv_promise := Rejected e;
                    inv_waiting := Nothing |}
        end
  end.

(** The promise of [Ajax.get], settled by the host's answer. *)
Definition ajax_promise (a : ajax_call) : promise Xhr failure :=
  match a with
  | Sends r => ajax_settle (answer host r)
  | RejectsTypeError | ThrowsTypeError => Rejected AjaxTypeError
  end.

(** The two callbacks of [Ajax.get(..).then(..)] in the factory.  What
    [makeDom] throws in the first one is not caught: the promise of the
    invocation stays as it is. *)
Definition transport_done (p : promise Xhr failure) (i : Invocation) : M Invocation :=
  match p with
  | Pending => mret i
  | Fulfilled xhr =>
      '(doc, cfg) ← makeDom (inv_cfg i) (response xhr);
      match doc with
      | Returns doc =>
          mret {| inv_cfg := cfg; inv_promise := resolve (Some doc) (inv_promise i);
                  inv_waiting := Nothing |}
      | Throws _ =>
          mret {| inv_cfg := cfg; inv_promise := inv_promise i;
                  inv_waiting := Nothing |}
      end
  | Rejected xhr =>
      match aget "onError" (inv_cfg i) with
      | VObj (Function f) _ =>
          emit (OnErrorCalled f (failure_response xhr) xhr);;
          mret {| inv_cfg := inv_cfg i; inv_promise := inv_promise i;
                  inv_waiting := Nothing |}
      | _ =>
          mret {| inv_cfg := inv_cfg i; inv_promise := reject xhr (inv_promise i);
                  inv_waiting := Nothing |}
      end
  end.

(** What happens to an invocation after the factory has returned.  What a
    later continuation call throws is not caught. *)
Definition later (i : Invocation) : M Invocation :=
  match inv_waiting i with
  | Nothing => mret i
  | Continuations calls =>
      '(_, i) ← continuations calls i;
      mret {| inv_cfg := inv_cfg i; inv_promise := inv_promise i;
              inv_waiting := Nothing |}
  | Transport a => transport_done (ajax_promise a) i
  end.

(** An invocation of a page factory, run to its end. *)
Definition run (cfg : Props) (options : value) : M Invocation :=
  i ← invoke cfg options; later i.

(** The call [p(options)] of a page factory. *)
Definition apply (p : Page) (options : value) : M Invocation :=
  run (page_cfg p) options.

Definition makePage (cfg : Props) : M Page :=
  id ← fresh; mret {| page_id := id; page_cfg := cfg |}.

(** [create(name, cfg)]; [name] is a name or, in the one-argument form,
    the configuration. *)
Definition create (name : value) (cfg : Props) : M Page :=
  let '(name, cfg) :=
    if isObject name then (aget "name" (props_of name), props_of name)
    else (name, cfg) in
  let cfg := assign cfg [("name", name)] in
  (if negb (truthy name) || negb (isString name) then
     console_warn
       "Creating page without a name, name based navigation will not be possible."
   else mret tt);;
  exists_ ← gets (λ w, bool_decide (is_Some (pages w !! key name)));
  (if exists_ : bool then
     console_warn
       ("The given page name " ++ default "undefined" (key name)
        ++ " already exists! Overriding...")
   else mret tt);;
  p ← makePage cfg;
  modify (λ w, with_pages (<[key name := p]> (pages w)) w);;
  mret p.

(** [get(name)]; [None] is [undefined]. *)
Definition get (name : value) : M (option Page) :=
  gets (λ w, pages w !! key name).

End Pages.
End Page.

(** ** The world when the modules have been loaded *)

Definition initial_world (host : Host) : World :=
  {| next_ref := 0;
     trace := [];
     elements := ∅;
     page_defaults := Page.defaults;
     pages := ∅;
     created := false;
     menu_defaults := Menu.defaults;
     menu_doc := Parser_dom host (VStr Menu.docStr) VUndefined;
     menuBarEl := [];
     menuBarTpl := [];
     menuBar_children := [];
     itemsCache := ∅ |}.

(** ** Words of the specification *)

(** The value found in [v] by following the property names [path]. *)
Fixpoint get_path (path : list string) (v : value) : value :=
  match path with
  | [] => v
  | k :: path' => get_path path' (aget k (props_of v))
  end.

(** [kept a b]: the value [a] has not been overwritten in [b].  A primitive
    is the same; an object is still an object of its class (it may have
    gained properties). *)
Definition kept (a b : value) : Prop :=
  match a with
  | VObj c _ => ∃ ps, b = VObj c ps
  | _ => b = a
  end.

(** An object has each of its property names once; [wf] says so for a value
    and for all the values inside it. *)
Fixpoint wf (v : value) : Prop :=
  match v with
  | VObj _ ps =>
      NoDup (map fst ps) ∧
      (fix all (ps : Props) : Prop :=
         match ps with
         | [] => True
         | kv :: ps' => wf kv.2 ∧ all ps'
         end) ps
  | _ => True
  end.

(** The number of calls of the page factory [id] in a trace. *)
Definition page_calls (id : nat) (tr : list event) : nat :=
  length (List.filter (λ e, match e with
                            | PageCalled p => Nat.eqb (page_id p) id
                            | _ => false
                            end) tr).

(** The condition under which [onMenuItemSelect] loads the page of an
    element. *)
Definition loads (element : Element) : bool :=
  String.eqb (toLowerCase (nodeName element)) "menuitem"
  && bool_decide (is_Some (el_page element))
  && (negb (bool_decide (is_Some (pageDoc element)))
      || truthy_attr (getAttribute Handler.menuItemReloadAttribute element)).



(** ** What an effect does to the world *)

(** [advance evs n w]: the world [w] after the events [evs], with [n]
    references in use. *)
Definition advance (evs : list event) (n : nat) (w : World) : World :=
  with_next_ref n (with_trace (trace w ++ evs) w).

(** [emits Q m]: the effect [m] changes nothing but the trace, to which it
    adds events that satisfy [Q], and the number of references in use, which
    does not decrease. *)
Definition emits (Q : event → Prop) {A} (m : M A) : Prop :=
  ∀ w, ∃ evs n, Forall Q evs ∧ (next_ref w ≤ n)%nat ∧ exec m w = advance evs n w.

(** The events of the construction of a document. *)
Definition dom_event (e : event) : Prop :=
  match e with
  | Warn _ | DataCalled _ _ | AfterReadyCalled _ _ => True
  | _ => False
  end.

(** The events of a call of [Ajax.get]. *)
Definition sent (a : ajax_call) : list event :=
  match a with
  | Sends r => [AjaxSent r]
  | _ => []
  end.

(** What the pipeline does after the call of [ready]: the continuation
    calls that [ready] makes before it returns, then the later ones. *)
Definition ready_continuations (host : Host) (merged : Props)
    (now later : list cont_call) : M Invocation :=
  '(thrown, i) ← Page.continuations host now
        {| inv_cfg := merged; inv_promise := Pending; inv_waiting := Nothing |};
  match thrown with
  | Some e =>
      mret {| inv_cfg := inv_cfg i; inv_promise := reject e (inv_promise i);
              inv_waiting := Nothing |}
  | None =>
      '(_, i) ← Page.continuations host later
            {| inv_cfg := inv_cfg i; inv_promise := inv_promise i;
               inv_waiting := Continuations later |};
      mret {| inv_cfg := inv_cfg i; inv_promise := inv_promise i;
              inv_waiting := Nothing |}
  end.

(** The data that [makeDom] hands to the parser. *)
Definition data_of (host : Host) (cfg : Props) (response : value) : value :=
  match aget "data" cfg with
  | VObj (Function f) _ => fn_returns host f [response]
  | data => data
  end.

(** What registering and removing listeners leaves alone. *)
Definition same_document (d d' : Document) : Prop :=
  source d' = source d ∧ head d' = head d ∧ page d' = page d.

(** Every arrow function among the listeners of [d] was created before the
    [n]-th one. *)
Definition closures_below (n : nat) (d : Document) : Prop :=
  Forall (λ l, match l_callback l with
               | CbBound c _ _ => (c < n)%nat
               | CbDefault _ => True
               end) (listeners d).

(** What [Menu.setDocument(doc, menuId)] does in the world [w]. *)
Definition published (w : World) (doc : Document) (menuId : string) : event :=
  match itemsCache w !! menuId with
  | Some item => MenuBarSetDocument doc item
  | None =>
      Warn ("Cannot set document to the menuitem. The given id " ++ menuId
            ++ " does not exist.")
  end.

(** ** Examples *)

(** An application whose function 0 is a [ready] that resolves with [null],
    whose function 1 is a [ready] that rejects with ["x"] after it has
    returned, and whose other functions resolve with [undefined]; a markup
    that is not empty is a [document] element without a [head], with three
    elements that match [.item]; requests are answered with the status 500. *)
Definition example_host : Host :=
  {| call_user := λ _ args, nth 0 args VUndefined;
     ready_calls := λ id _,
       match id with
       | 0 => ([CallResolve VNull], [])
       | 1 => ([], [CallReject (VStr "x")])
       | _ => ([CallResolve VUndefined], [])
       end;
     JSON_parse := λ _, None;
     parsed_head := λ _, None;
     parsed_docEl := λ _, true;
     parsed_query := λ _,
       Some (λ selector,
         if String.eqb selector ".item" then Matches [1; 2; 3] else QueryThrows);
     answer := λ _, Done {| status := 500; response := VStr "boom" |} |}.

(** [{url: "/x", onError: fn}]. *)
Definition url_onError_cfg : Props :=
  [("url", VStr "/x"); ("onError", VFun (FnUser 7))].

(** A document whose [querySelectorAll] throws. *)
Definition unqueryable : Document :=
  {| source := Parsed (VStr "<document></document>") VUndefined;
     head := None; docEl := true; listeners := []; page := None;
     querySelectorAll := Some (λ _, QueryThrows) |}.

(** [{events: {"select .item": [h1, h2]}}]. *)
Definition two_handlers_cfg : Props :=
  [("events",
    VObj Plain
      [("select .item",
        VObj Array [("0", VFun (FnUser 1)); ("1", VFun (FnUser 2))])])].

(** A menu with one item, [{id: "home", name: "Home", page: HomePage}]. *)
Definition home_page : Page :=
  {| page_id := 100; page_cfg := [("name", VStr "home")] |}.

Definition home_item : Item :=
  {| item_id := "home"; item_attributes := []; item_name := Some (Text "Home");
     item_page := Some home_page |}.

Definition home_menu : World :=
  exec (Menu.create
          {| cfg_attributes := None; cfg_rootTemplateAttributes := None;
             cfg_items := Some [home_item]; cfg_loadingMessage := None;
             cfg_errorMessage := None |})
       (initial_world example_host).

(** The element of the item in [home_menu]. *)
Definition home_element : Element :=
  {| nodeName := "menuItem"; attributes := [("id", "home")];
     innerHTML := "<title>Home</title>"; el_page := Some home_page;
     pageDoc := None |}.

(** ** Induction on values *)

Section ValueInduction.
Variable P : value → Prop.
Hypothesis Hundefined : P VUndefined.
Hypothesis Hnull : P VNull.
Hypothesis Hbool : ∀ b, P (VBool b).
Hypothesis Hnum : ∀ z, P (VNum z).
Hypothesis Hstr : ∀ s, P (VStr s).
Hypothesis Hobj : ∀ c ps, Forall (λ kv, P kv.2) ps → P (VObj c ps).

Fixpoint value_ind (v : value) : P v :=
  match v with
  | VUndefined => Hundefined
  | VNull => Hnull
  | VBool b => Hbool b
  | VNum z => Hnum z
  | VStr s => Hstr s
  | VObj c ps =>
      Hobj c ps
        ((fix all (ps : Props) : Forall (λ kv, P kv.2) ps :=
            match ps with
            | [] => List.Forall_nil _
            | kv :: ps' => @List.Forall_cons _ _ kv ps' (value_ind kv.2) (all ps')
            end) ps)
  end.
End ValueInduction.

(** ** Bindings, prepared documents, menu items and registrations *)

(** The function that a handler reference stands for, if any: a string
    is looked up in the configuration. *)
Definition handler_fn (cfg : Props) (fn : value) : option fn_ref :=
  match (match fn with VStr name => aget name cfg | _ => fn end) with
  | VObj (Function f) _ => Some f
  | _ => None
  end.

(** The bindings of one entry of the events map on a document: for every
    handler reference that stands for a function, in order, every target
    of the descriptor. *)
Definition descriptor_bindings (cfg : Props) (doc : Document)
    (entry : string * value) : list (target * string * fn_ref) :=
  let '(ev, elements) := Handler.descriptor_targets doc entry.1 in
  flat_map (λ fn, match handler_fn cfg fn with
                  | Some f => map (λ el, (el, ev, f)) elements
                  | None => []
                  end) (Handler.handler_list entry.2).

(** The bindings of the events map of a configuration, entry by entry. *)
Definition bindings (cfg : Props) (doc : Document) : list (target * string * fn_ref) :=
  flat_map (descriptor_bindings cfg doc) (props_of (aget "events" cfg)).

(** The listeners of a list of bindings, when the arrow functions are
    numbered from [n]. *)
Definition bound_listeners (cfg : Props) (n : nat)
    (bs : list (target * string * fn_ref)) : list Listener :=
  imap (λ i b, {| l_target := b.1.1; l_type := b.1.2;
                  l_callback := CbBound (n + i) b.2 cfg |}) bs.

(** One registration of [setListeners]. *)
Definition add_binding (cfg : Props) (b : target * string * fn_ref)
    (doc : Document) : M Document :=
  closure ← fresh;
  mret (addEventListener b.1.1 b.1.2 (CbBound closure b.2 cfg) doc).

(** The calls of the handlers of a list of bindings by an event of type
    [type] on the target [t]. *)
Definition binding_calls (cfg : Props) (t : target) (type : string)
    (bs : list (target * string * fn_ref)) : list event :=
  map (λ b, HandlerCalled b.2 cfg t type)
      (List.filter (λ b, bool_decide (b.1 = (t, type))) bs).

(** The listeners that [setDefaultHandlers] registers or removes: every
    function of [handlers], under its event name, on the document. *)
Definition default_listeners : list Listener :=
  flat_map (λ entry : string * list default_handler,
              map (λ h, {| l_target := TDocument; l_type := entry.1;
                           l_callback := CbDefault h |}) entry.2)
           Handler.handlers.

(** A listener that [removeDefaultHandlers] removes. *)
Definition is_default_listener (l : Listener) : bool :=
  existsb (λ d, same_listener d l) default_listeners.

(** The host of the examples, with a [JSON.parse] that knows [{}]. *)
Definition parsing_host : Host :=
  {| call_user := call_user example_host;
     ready_calls := ready_calls example_host;
     JSON_parse := λ s, if String.eqb s "{}" then Some (VObj Plain []) else None;
     parsed_head := parsed_head example_host;
     parsed_docEl := parsed_docEl example_host;
     parsed_query := parsed_query example_host;
     answer := answer example_host |}.

(** [<lockup data-href-page="details" data-href-page-replace="true">]. *)
Definition details_link : Element :=
  {| nodeName := "lockup";
     attributes := [("data-href-page", "details"); ("data-href-page-replace", "true")];
     innerHTML := ""; el_page := None; pageDoc := None |}.

(** A property of the source that [_.defaults] has seen is settled: a
    second pass would not write it. *)
Definition settled (object : Props) (kv : string * value) : Prop :=
  aget kv.1 object ≠ VUndefined ∨
  (alookup kv.1 object = Some VUndefined ∧ kv.2 = VUndefined).

(** The events of the data step of [makeDom]. *)
Definition data_events (cfg : Props) (response : value) : list event :=
  match aget "data" cfg with
  | VObj (Function f) _ =>
      DataCalled f response ::
      match f with
      | FnDefaultTemplate => [Warn "No template exists!"]
      | _ => []
      end
  | _ => []
  end.

(** The events of the call of the template by the parser: the default
    template warns. *)
Definition template_events (cfg : Props) : list event :=
  match aget "template" cfg with
  | VObj (Function FnDefaultTemplate) _ => [Warn "No template exists!"]
  | _ => []
  end.

(** The document that [prepareDom] makes of the parsed one in [makeDom],
    which [afterReady] is called with: the parsed document with its style,
    the default handlers and the listeners of the events map, whose arrow
    functions are numbered from [n] on; or what [appendStyle] throws. *)
Definition prepared_document (host : Host) (cfg : Props) (response : value)
    (n : nat) : completion Document :=
  let parsed := Parser_dom host (aget "template" cfg) (data_of host cfg response) in
  match Page.appendStyle (aget "style" cfg) parsed with
  | Returns styled =>
      Returns (set_listeners
                 (default_listeners ++ bound_listeners cfg n (bindings cfg parsed))
                 styled)
  | Throws e => Throws e
  end.

(** The events of the call of [afterReady]. *)
Definition afterReady_events (cfg : Props) (doc : Document) : list event :=
  match aget "afterReady" cfg with
  | VObj (Function f) _ => [AfterReadyCalled f doc]
  | _ => []
  end.

(** A host that answers every request with the status 200. *)
Definition serving_host : Host :=
  {| call_user := call_user example_host;
     ready_calls := ready_calls example_host;
     JSON_parse := JSON_parse example_host;
     parsed_head := parsed_head example_host;
     parsed_docEl := parsed_docEl example_host;
     parsed_query := parsed_query example_host;
     answer := λ _, Done {| status := 200; response := VObj Plain [("ok", VBool true)] |} |}.

(** A continuation call that makes the factory build a document. *)
Definition builds (c : cont_call) : bool :=
  match c with
  | CallResolve response => truthy response || isUndefined response
  | CallReject _ => false
  end.

(** The number of calls of [afterReady] in a trace. *)
Definition afterReady_calls (tr : list event) : nat :=
  length (List.filter (λ e, match e with AfterReadyCalled _ _ => true | _ => false end) tr).

(** A host whose [ready] functions call [resolve] twice before they
    return and once more, with [null], later. *)
Definition eager_host : Host :=
  {| call_user := call_user example_host;
     ready_calls := λ _ _,
       ([CallResolve VUndefined; CallResolve (VStr "again")], [CallResolve VNull]);
     JSON_parse := JSON_parse example_host;
     parsed_head := parsed_head example_host;
     parsed_docEl := parsed_docEl example_host;
     parsed_query := parsed_query example_host;
     answer := answer example_host |}.

(** The functions [post], [put] and [del] of [methods]. *)
Definition Ajax_post (url options : value) : ajax_call := ajax url options "POST".
Definition Ajax_put (url options : value) : ajax_call := ajax url options "PUT".
Definition Ajax_del (url options : value) : ajax_call := ajax url options "DELETE".

(** An item that [addItem] accepts. *)
Definition has_id (item : Item) : bool := negb (String.eqb (item_id item) "").

(** The element that [addItem] makes for an item. *)
Definition item_element (item : Item) : Element :=
  {| nodeName := "menuItem";
     attributes :=
       Menu.setAttributes []
         (assign (assign [] (item_attributes item)) [("id", item_id item)]);
     innerHTML :=
       "<title>" ++ match item_name item with
                    | Some t => text_value t
                    | None => "undefined"
                    end ++ "</title>";
     el_page := item_page item;
     pageDoc := None |}.

(** The callback of [_.each(defaults.items, ..)] in [create]. *)
Definition add_items (its : list Item) : M unit :=
  each (λ item (_ : unit), Menu.addItem item;; mret tt) its tt.

(** The warning of [addItem] for an item without an id. *)
Definition no_id_warning : event :=
  Warn "Cannot add menuitem. A unique identifier is required for the menuitem to work correctly.".

(** A string without a space. *)
Fixpoint no_space (s : string) : bool :=
  match s with
  | EmptyString => true
  | String c s' => negb (Ascii.eqb c " "%char) && no_space s'
  end.

(** A string that is empty or starts with a space. *)
Definition starts_blank (s : string) : bool :=
  match s with
  | EmptyString => true
  | String c _ => Ascii.eqb c " "%char
  end.



(** The document that [makeDom] returns: the prepared one, with the
    configuration as its [page]; or what [appendStyle] throws. *)
Definition built_document (host : Host) (cfg : Props) (response : value)
    (n : nat) : completion Document :=
  match prepared_document host cfg response n with
  | Returns prepared => Returns (set_page (Some cfg) prepared)
  | Throws e => Throws e
  end.

(** The response that [makeDom] works with: [[]] in place of [undefined]. *)
Definition payload_of (response : value) : value :=
  if isUndefined response then VObj Array [] else response.

(** Whether [appendStyle] returns in [makeDom] for a response. *)
Definition stylable (host : Host) (cfg : Props) (response : value) : bool :=
  match prepared_document host cfg (payload_of response) 0 with
  | Returns _ => true
  | Throws _ => false
  end.

(** [{ready: fn, template: "<document></document>"}], where the [ready]
    function calls [resolve(undefined)]. *)
Definition resolving_cfg : Props :=
  [("ready", VFun (FnUser 2)); ("template", VStr "<document></document>")].

(** [{ready: fn, afterReady: fn, template: "<document></document>"}]. *)
Definition eager_cfg : Props :=
  [("ready", VFun (FnUser 3)); ("afterReady", VFun (FnUser 4));
   ("template", VStr "<document></document>")].

(** * Properties *)

Local Open Scope list_scope.
Local Open Scope nat_scope.

Lemma wf_obj c ps :
  wf (VObj c ps) ↔ NoDup (map fst ps) ∧ Forall (λ kv, wf kv.2) ps.
Proof.
  simpl. split; intros [Hnd Hall]; split; auto.
  - induction ps as [|kv ps IH]; [constructor|].
    destruct Hall as [Hv Hall]. apply NoDup_cons in Hnd as [_ Hnd].
    constructor; auto.
  - clear Hnd. induction Hall; simpl; auto.
Qed.

(** ** Association lists *)

Section AssocLemmas.
Context {V : Type}.
Implicit Types (ps : list (string * V)) (k : string) (v : V).

Lemma alookup_aset_eq k v ps : alookup k (aset k v ps) = Some v.
Proof.
  induction ps as [|[k' v'] ps IH]; simpl.
  - by rewrite decide_True.
  - destruct (decide (k = k')) as [->|Hne]; simpl.
    + by rewrite decide_True.
    + by rewrite decide_False.
Qed.

Lemma alookup_aset_ne k k' v ps :
  k ≠ k' → alookup k (aset k' v ps) = alookup k ps.
Proof.
  intros Hne. induction ps as [|[k2 v2] ps IH]; simpl.
  - by rewrite decide_False.
  - destruct (decide (k' = k2)) as [->|Hne2]; simpl.
    + by rewrite !decide_False.
    + destruct (decide (k = k2)); [done|apply IH].
Qed.

Lemma aset_same k v ps : alookup k ps = Some v → aset k v ps = ps.
Proof.
  induction ps as [|[k' v'] ps IH]; simpl; [done|].
  destruct (decide (k = k')) as [->|Hne].
  - by intros [= ->].
  - intros H. by rewrite IH.
Qed.

Lemma alookup_In k v ps :
  NoDup (map fst ps) → In (k, v) ps → alookup k ps = Some v.
Proof.
  induction ps as [|[k' v'] ps IH]; simpl; [done|].
  intros Hnd [Heq|Hin].
  - injection Heq as -> ->. by rewrite decide_True.
  - apply NoDup_cons in Hnd as [Hnotin Hnd].
    destruct (decide (k = k')) as [->|Hne].
    + exfalso. apply Hnotin. apply list_elem_of_In.
      apply (in_map fst) in Hin. exact Hin.
    + by apply IH.
Qed.
End AssocLemmas.

Lemma aget_aset_eq k v (ps : Props) : aget k (aset k v ps) = v.
Proof. unfold aget. by rewrite alookup_aset_eq. Qed.

Lemma aget_aset_ne k k' v (ps : Props) : k ≠ k' → aget k (aset k' v ps) = aget k ps.
Proof. intros. unfold aget. by rewrite alookup_aset_ne. Qed.

(** ** [_.defaultsDeep] *)

Lemma mergeValue_obj oc op sc sp :
  mergeValue (VObj oc op) (VObj sc sp) = VObj oc (baseMerge op sp).
Proof. reflexivity. Qed.

Lemma mergeValue_clone sc sp :
  mergeValue VUndefined (VObj sc sp) =
    match sc with
    | Function _ => VObj sc sp
    | _ => VObj sc (baseMerge [] sp)
    end.
Proof. by destruct sc. Qed.

Lemma baseMerge_cons object k s source :
  baseMerge object ((k, s) :: source) =
    baseMerge (aset k (mergeValue (aget k object) s) object) source.
Proof. reflexivity. Qed.

(** An object that already holds, under every key of the source, a value
    that merging leaves alone, is left alone. *)
Lemma baseMerge_stable source : ∀ object,
  (∀ k s, In (k, s) source →
     ∃ v, alookup k object = Some v ∧ mergeValue v s = v) →
  baseMerge object source = object.
Proof.
  induction source as [|[k s] source IH]; intros object Hst; [done|].
  rewrite baseMerge_cons.
  destruct (Hst k s) as (v & Hv & Hm); [by left|].
  assert (aset k (mergeValue (aget k object) s) object = object) as ->.
  { apply aset_same. unfold aget. rewrite Hv. simpl. by rewrite Hm. }
  apply IH. intros k' s' Hin. apply Hst. by right.
Qed.

Lemma baseMerge_lookup_other k source : ∀ object,
  ¬ In k (map fst source) →
  alookup k (baseMerge object source) = alookup k object.
Proof.
  induction source as [|[k' s] source IH]; intros object Hk; [done|].
  rewrite baseMerge_cons, IH.
  - apply alookup_aset_ne. intros ->. apply Hk. by left.
  - intros Hin. apply Hk. by right.
Qed.

Lemma baseMerge_lookup k s source : ∀ object,
  NoDup (map fst source) → In (k, s) source →
  alookup k (baseMerge object source) = Some (mergeValue (aget k object) s).
Proof.
  induction source as [|[k' s'] source IH]; intros object Hnd Hin; [done|].
  simpl in Hnd. apply NoDup_cons in Hnd as [Hnotin Hnd].
  rewrite list_elem_of_In in Hnotin.
  rewrite baseMerge_cons. destruct Hin as [[= -> ->]|Hin].
  - rewrite baseMerge_lookup_other by done. apply alookup_aset_eq.
  - rewrite IH by done. rewrite aget_aset_ne; [done|].
    intros ->. apply Hnotin. by apply (in_map fst) in Hin.
Qed.

(** Merging a value into itself changes nothing. *)
Lemma mergeValue_self v : wf v → mergeValue v v = v.
Proof.
  induction v as [| | | | |c ps IH] using value_ind; try done.
  intros [Hnd Hwf]%wf_obj. rewrite mergeValue_obj. f_equal.
  apply baseMerge_stable. intros k s Hin. exists s. split.
  - by apply alookup_In.
  - rewrite Forall_forall in IH, Hwf.
    apply (IH (k, s)); [by apply list_elem_of_In|].
    apply (Hwf (k, s)). by apply list_elem_of_In.
Qed.

Lemma baseMerge_idempotent_from source :
  NoDup (map fst source) →
  (∀ k s, In (k, s) source →
     ∀ o, mergeValue (mergeValue o s) s = mergeValue o s) →
  ∀ object, baseMerge (baseMerge object source) source = baseMerge object source.
Proof.
  intros Hnd Hidem object. apply baseMerge_stable. intros k s Hin.
  exists (mergeValue (aget k object) s). split.
  - by apply baseMerge_lookup.
  - by apply (Hidem k).
Qed.

(** Merging the same source a second time changes nothing. *)
Lemma mergeValue_idempotent s :
  wf s → ∀ o, mergeValue (mergeValue o s) s = mergeValue o s.
Proof.
  induction s as [| | | | |sc sp IH] using value_ind;
    try (intros _ []; done).
  intros Hwf. pose proof Hwf as [Hnd Hall]%wf_obj.
  assert (∀ object,
    baseMerge (baseMerge object sp) sp = baseMerge object sp) as Hprops.
  { apply baseMerge_idempotent_from; [done|]. intros k s Hin.
    rewrite Forall_forall in IH, Hall.
    apply (IH (k, s)); [by apply list_elem_of_In|].
    apply (Hall (k, s)). by apply list_elem_of_In. }
  intros [| | | | |oc op]; try done.
  - rewrite mergeValue_clone. destruct sc.
    + rewrite mergeValue_obj. by rewrite Hprops.
    + rewrite mergeValue_obj. by rewrite Hprops.
    + by apply mergeValue_self.
  - rewrite !mergeValue_obj. by rewrite Hprops.
Qed.

Lemma defaultsDeep_idempotent object source :
  wf (VObj Plain source) →
  defaultsDeep (defaultsDeep object source) source = defaultsDeep object source.
Proof.
  intros [Hnd Hall]%wf_obj. unfold defaultsDeep.
  apply baseMerge_idempotent_from; [done|]. intros k s Hin.
  apply mergeValue_idempotent. rewrite Forall_forall in Hall.
  apply (Hall (k, s)). by apply list_elem_of_In.
Qed.

(** A defined value is kept by a merge. *)
Lemma kept_refl v : kept v v.
Proof. destruct v; simpl; eauto. Qed.

Lemma kept_trans a b c : kept a b → kept b c → kept a c.
Proof.
  destruct a; simpl; try (intros ->; done).
  intros [ps ->]. simpl. done.
Qed.

Lemma kept_defined a b : a ≠ VUndefined → kept a b → b ≠ VUndefined.
Proof.
  destruct a; simpl; try congruence.
  intros _ [ps ->]. done.
Qed.

Lemma mergeValue_kept o s : o ≠ VUndefined → kept o (mergeValue o s).
Proof.
  destruct o as [| | | | |oc op]; [done|..]; intros _;
    destruct s as [| | | | |sc sp]; simpl; eauto.
Qed.

(** The value under a key after a merge: the value before, merged with the
    source's values for that key. *)
Lemma baseMerge_aget k source : ∀ object,
  ∃ ss, aget k (baseMerge object source) = fold_left mergeValue ss (aget k object).
Proof.
  induction source as [|[k' s] source IH]; intros object.
  - by exists [].
  - rewrite baseMerge_cons.
    destruct (IH (aset k' (mergeValue (aget k' object) s) object)) as [ss Hss].
    destruct (decide (k = k')) as [->|Hne].
    + exists (s :: ss). rewrite Hss. by rewrite aget_aset_eq.
    + exists ss. rewrite Hss. by rewrite aget_aset_ne.
Qed.

Lemma get_path_undefined path : get_path path VUndefined = VUndefined.
Proof. induction path; simpl; auto. Qed.

Lemma mergeValue_path_kept path : ∀ o s,
  get_path path o ≠ VUndefined →
  kept (get_path path o) (get_path path (mergeValue o s)).
Proof.
  induction path as [|k path IH]; intros o s Hdef; simpl in *.
  - apply mergeValue_kept, Hdef.
  - assert (∀ ss v, get_path path v ≠ VUndefined →
        kept (get_path path v) (get_path path (fold_left mergeValue ss v))) as Hfold.
    { induction ss as [|s' ss IHss]; intros v Hv; simpl; [apply kept_refl|].
      eapply kept_trans; [apply (IH v s' Hv)|].
      apply IHss. eapply kept_defined; [exact Hv|]. by apply IH. }
    destruct o as [| | | | |oc op];
      try (exfalso; apply Hdef; apply get_path_undefined).
    destruct s as [| | | | |sc sp]; try apply kept_refl.
    rewrite mergeValue_obj. simpl in *.
    destruct (baseMerge_aget k sp op) as [ss ->]. by apply Hfold.
Qed.

Lemma defaultsDeep_path_kept path object source :
  get_path path (VObj Plain object) ≠ VUndefined →
  kept (get_path path (VObj Plain object))
       (get_path path (VObj Plain (defaultsDeep object source))).
Proof.
  intros Hdef.
  apply (mergeValue_path_kept path (VObj Plain object) (VObj Plain source) Hdef).
Qed.

Lemma Page_defaults_wf : wf (VObj Plain Page.defaults).
Proof.
  apply wf_obj. split.
  - by apply (bool_decide_unpack _).
  - repeat apply List.Forall_cons; try apply List.Forall_nil; simpl; auto.
    + split; [apply NoDup_nil_2|done].
    + split; [apply NoDup_nil_2|done].
    + split; [|done]. by apply (bool_decide_unpack _).
Qed.

Lemma defaultsDeep_aget k s object source :
  NoDup (map fst source) → In (k, s) source →
  aget k (defaultsDeep object source) = mergeValue (aget k object) s.
Proof.
  intros Hnd Hin. unfold aget at 1, defaultsDeep.
  by rewrite (baseMerge_lookup k s).
Qed.

Lemma Page_defaults_aget k s object :
  In (k, s) Page.defaults →
  aget k (defaultsDeep object Page.defaults) = mergeValue (aget k object) s.
Proof.
  apply defaultsDeep_aget. pose proof Page_defaults_wf as [Hnd _]%wf_obj. done.
Qed.

(** ** Effects on the trace *)

Lemma advance_advance evs1 n1 evs2 n2 w :
  advance evs2 n2 (advance evs1 n1 w) = advance (evs1 ++ evs2) n2 w.
Proof. destruct w. unfold advance. simpl. by rewrite app_assoc. Qed.

Lemma advance_trace evs n w : trace (advance evs n w) = trace w ++ evs.
Proof. by destruct w. Qed.

Lemma advance_next_ref evs n w : next_ref (advance evs n w) = n.
Proof. by destruct w. Qed.

Lemma advance_page_defaults evs n w :
  page_defaults (advance evs n w) = page_defaults w.
Proof. by destruct w. Qed.

Lemma advance_nil w : advance [] (next_ref w) w = w.
Proof. destruct w. unfold advance. simpl. by rewrite app_nil_r. Qed.

Section Emits.
Context (Q : event → Prop).

Lemma emits_ret {A} (a : A) : emits Q (mret a).
Proof.
  intros w. exists [], (next_ref w). split; [constructor|]. split; [done|].
  unfold exec. simpl. by rewrite advance_nil.
Qed.

Lemma emits_bind {A B} (m : M A) (k : A → M B) :
  emits Q m → (∀ a, emits Q (k a)) → emits Q (m ≫= k).
Proof.
  intros Hm Hk w. unfold exec, mbind, M_bind.
  destruct (Hm w) as (evs1 & n1 & HQ1 & Hn1 & Hw1). unfold exec in Hw1.
  destruct (m w) as [a w1]. simpl in Hw1. subst w1.
  destruct (Hk a (advance evs1 n1 w)) as (evs2 & n2 & HQ2 & Hn2 & Hw2).
  rewrite advance_next_ref in Hn2.
  exists (evs1 ++ evs2), n2. split; [by apply Forall_app|]. split; [lia|].
  unfold exec in Hw2. rewrite Hw2. apply advance_advance.
Qed.

Lemma emits_gets {A} (f : World → A) : emits Q (gets f).
Proof.
  intros w. exists [], (next_ref w). split; [constructor|]. split; [done|].
  unfold exec. simpl. by rewrite advance_nil.
Qed.

Lemma emits_fresh : emits Q fresh.
Proof.
  intros w. exists [], (S (next_ref w)). split; [constructor|]. split; [lia|].
  destruct w. unfold exec, fresh, advance. simpl. by rewrite app_nil_r.
Qed.

Lemma emits_emit e : Q e → emits Q (emit e).
Proof.
  intros He w. exists [e], (next_ref w). split; [by constructor|]. split; [done|].
  by destruct w.
Qed.

Lemma emits_each {A B} (f : A → B → M B) l :
  (∀ x acc, emits Q (f x acc)) → ∀ acc, emits Q (each f l acc).
Proof.
  intros Hf. induction l as [|x l IH]; intros acc; simpl.
  - apply emits_ret.
  - apply emits_bind; [apply Hf|]. intros acc'. apply IH.
Qed.
End Emits.


(** What an effect that only extends the trace leaves alone. *)
Lemma emits_exec Q {A} (m : M A) w :
  emits Q m →
  ∃ evs, Forall Q evs ∧ trace (exec m w) = trace w ++ evs ∧
         page_defaults (exec m w) = page_defaults w ∧
         (next_ref w ≤ next_ref (exec m w))%nat.
Proof.
  intros Hm. destruct (Hm w) as (evs & n & Hevs & Hn & ->).
  exists evs. rewrite advance_trace, advance_page_defaults, advance_next_ref. done.
Qed.

(** [setListeners] creates function objects and nothing else. *)
Lemma setListeners_emits Q doc cfg add :
  emits Q (Handler.setListeners doc cfg add).
Proof.
  unfold Handler.setListeners. destruct doc as [doc|]; [|apply emits_ret].
  destruct (isObject _); [|apply emits_ret].
  apply emits_bind; [|intros; apply emits_ret].
  apply emits_each. intros [e fns] d. unfold Handler.bind_descriptor.
  destruct (Handler.descriptor_targets d e) as [ev els].
  apply emits_each. intros fn d'. unfold Handler.bind_handler.
  destruct (match fn with VStr name => aget name cfg | _ => fn end)
    as [| | | | |[| |f] ?]; try apply emits_ret.
  apply emits_each. intros el d''.
  apply emits_bind; [apply emits_fresh|]. intros; apply emits_ret.
Qed.

Lemma prepareDom_emits doc cfg :
  emits dom_event (Page.prepareDom doc cfg).
Proof.
  unfold Page.prepareDom. destruct doc as [doc|].
  - apply emits_bind; [apply emits_gets|]. intros defaults.
    destruct (Page.appendStyle _ doc) as [styled|e]; [|apply emits_ret].
    apply emits_bind; [|intros; apply emits_ret].
    apply setListeners_emits.
  - apply emits_bind; [by apply emits_emit|]. intros; apply emits_ret.
Qed.

Lemma call_emits host f args : emits dom_event (Page.call host f args).
Proof.
  unfold Page.call. apply emits_bind; [|intros; apply emits_ret].
  destruct f; try apply emits_ret. by apply emits_emit.
Qed.

Lemma render_emits host template data :
  emits dom_event (Page.render host template data).
Proof.
  unfold Page.render. apply emits_bind; [|intros; apply emits_ret].
  destruct template as [| | | | |[| |f] ?]; try apply emits_ret.
  apply emits_bind; [apply call_emits|]. intros; apply emits_ret.
Qed.

Lemma makeDom_emits host cfg response :
  emits dom_event (Page.makeDom host cfg response).
Proof.
  unfold Page.makeDom.
  apply emits_bind; [apply emits_gets|]. intros defaults.
  apply emits_bind.
  { destruct (aget "data" _) as [| | | | |[| |f] ?]; try apply emits_ret.
    apply emits_bind; [by apply emits_emit|]. intros; apply call_emits. }
  intros data. apply emits_bind; [apply render_emits|]. intros doc.
  apply emits_bind; [apply prepareDom_emits|]. intros [[prepared|e] cfg'];
    [|apply emits_ret].
  apply emits_bind; [|intros; apply emits_ret].
  destruct (aget "afterReady" _) as [| | | | |[| |f] ?]; try apply emits_ret.
  by apply emits_emit.
Qed.

(** ** Running effects *)

Lemma eval_bind {A B} (m : M A) (k : A → M B) w :
  eval (m ≫= k) w = eval (k (eval m w)) (exec m w).
Proof. unfold eval, exec, mbind, M_bind. by destruct (m w). Qed.

Lemma exec_bind {A B} (m : M A) (k : A → M B) w :
  exec (m ≫= k) w = exec (k (eval m w)) (exec m w).
Proof. unfold eval, exec, mbind, M_bind. by destruct (m w). Qed.

Lemma eval_ret {A} (a : A) w : eval (mret a) w = a.
Proof. done. Qed.


Lemma eval_gets {A} (f : World → A) w : eval (gets f) w = f w.
Proof. done. Qed.

Lemma exec_gets {A} (f : World → A) w : exec (gets f) w = w.
Proof. done. Qed.

Lemma exec_emit e w : exec (emit e) w = advance [e] (next_ref w) w.
Proof. by destruct w. Qed.

(** ** The page pipeline: [ready] *)

Lemma continue_emits host c i : emits dom_event (Page.continue host c i).
Proof.
  destruct c as [response|reason]; simpl; [|apply emits_ret].
  unfold Page.resolve_ready. destruct (_ || _); [|apply emits_ret].
  apply emits_bind; [apply makeDom_emits|]. intros [[doc|e] cfg]; apply emits_ret.
Qed.

Lemma continuations_emits host calls : ∀ i,
  emits dom_event (Page.continuations host calls i).
Proof.
  induction calls as [|c calls IH]; intros i; simpl; [apply emits_ret|].
  apply emits_bind; [apply continue_emits|]. intros [[e|] i'];
    [apply emits_ret|apply IH].
Qed.

Lemma defaultsDeep_keeps_function k f ps object source :
  aget k object = VObj (Function f) ps →
  ∃ ps', aget k (defaultsDeep object source) = VObj (Function f) ps'.
Proof.
  intros Hk.
  pose proof (defaultsDeep_path_kept [k] object source) as Hkept.
  simpl in Hkept. rewrite Hk in Hkept. apply Hkept. done.
Qed.

(** The factory with a [ready] function, run to its end. *)
Lemma run_ready host cfg options w f ps :
  aget "ready" (defaultsDeep cfg (page_defaults w)) = VObj (Function f) ps →
  Page.run host cfg options w =
    ready_continuations host (defaultsDeep cfg (page_defaults w))
      (Page.ready_of host f options).1 (Page.ready_of host f options).2
      (exec (emit (ReadyCalled f options)) w).
Proof.
  intros Hready. unfold Page.run. unfold mbind at 1, M_bind at 1.
  unfold Page.invoke. unfold mbind at 1, M_bind at 1, gets at 1. rewrite Hready.
  destruct (Page.ready_of host f options) as [now later].
  unfold ready_continuations, mbind, M_bind, exec. simpl.
  destruct (Page.continuations host now _ _) as [[[e|] i] w']; [done|].
  unfold Page.later. simpl. unfold mbind, M_bind.
  by destruct (Page.continuations host later _ w') as [[thrown i'] w''].
Qed.

Lemma ready_continuations_emits host merged now later :
  emits dom_event (ready_continuations host merged now later).
Proof.
  unfold ready_continuations.
  apply emits_bind; [apply continuations_emits|]. intros [[e|] i];
    [apply emits_ret|].
  apply emits_bind; [apply continuations_emits|]. intros [thrown i'].
  apply emits_ret.
Qed.

(** ** [_.defaults] after [_.defaultsDeep] *)

Lemma mergeValue_undefined o s :
  mergeValue o s = VUndefined → o = VUndefined ∧ s = VUndefined.
Proof.
  destruct o as [| | | | |oc op], s as [| | | | |[] sp]; simpl; try done.
Qed.

Lemma baseMerge_defined k source object :
  aget k object ≠ VUndefined → aget k (baseMerge object source) ≠ VUndefined.
Proof.
  intros Hdef. destruct (baseMerge_aget k source object) as [ss ->].
  revert Hdef. generalize (aget k object). induction ss as [|s ss IH]; [done|].
  intros v Hv. simpl. apply IH. intros [-> _]%mergeValue_undefined. done.
Qed.

Lemma baseMerge_present k source : ∀ object,
  is_Some (alookup k object) → is_Some (alookup k (baseMerge object source)).
Proof.
  induction source as [|[k' s] source IH]; intros object Hk; [done|].
  rewrite baseMerge_cons. apply IH.
  destruct (decide (k = k')) as [->|Hne].
  - rewrite alookup_aset_eq. eauto.
  - by rewrite alookup_aset_ne.
Qed.

Lemma baseMerge_source_key k s source : ∀ object,
  In (k, s) source →
  is_Some (alookup k (baseMerge object source)) ∧
  (aget k (baseMerge object source) = VUndefined → s = VUndefined).
Proof.
  induction source as [|[k' s'] source IH]; intros object Hin; [done|].
  rewrite baseMerge_cons. destruct Hin as [[= -> ->]|Hin]; [|by apply IH].
  split.
  - apply baseMerge_present. rewrite alookup_aset_eq. eauto.
  - intros Hundef. destruct s as [| | | | |c ps]; [done|exfalso..];
      revert Hundef; apply baseMerge_defined; rewrite aget_aset_eq;
      by intros [_ ?]%mergeValue_undefined.
Qed.

Lemma defaults_shallow_defaultsDeep object source :
  defaults_shallow (defaultsDeep object source) source = defaultsDeep object source.
Proof.
  unfold defaults_shallow, defaultsDeep.
  set (merged := baseMerge object source).
  assert (∀ l, (∀ k v, In (k, v) l → In (k, v) source) →
    fold_left (λ o '(k, v), if isUndefined (aget k o) then aset k v o else o)
      l merged = merged) as Hfold.
  { induction l as [|[k v] l IH]; intros Hl; [done|]. simpl.
    destruct (baseMerge_source_key k v source object) as [[v' Hv'] Hundef];
      [apply Hl; by left|]. fold merged in Hv', Hundef.
    destruct (isUndefined (aget k merged)) eqn:Hu.
    - assert (aget k merged = VUndefined) as Hk
        by (by destruct (aget k merged)).
      rewrite (Hundef Hk). rewrite aset_same.
      + apply IH. intros k0 v0 ?. apply Hl. by right.
      + rewrite Hv'. unfold aget in Hk. rewrite Hv' in Hk. simpl in Hk. by subst.
    - apply IH. intros k0 v0 ?. apply Hl. by right. }
  by apply Hfold.
Qed.

(** ** [makeDom] *)

Lemma each_invariant {A B} (P : B → Prop) (f : A → B → M B) l :
  (∀ x acc w, P acc → P (eval (f x acc) w)) →
  ∀ acc w, P acc → P (eval (each f l acc) w).
Proof.
  intros Hf. induction l as [|x l IH]; intros acc w Hacc; [done|].
  simpl. rewrite eval_bind. apply IH, Hf, Hacc.
Qed.

Lemma listenerFn_same add t type cb d :
  same_document d (Handler.listenerFn add t type cb d).
Proof.
  destruct add; simpl; unfold addEventListener, removeEventListener;
    [destruct (existsb _ _)|]; done.
Qed.

Lemma same_document_trans d1 d2 d3 :
  same_document d1 d2 → same_document d2 d3 → same_document d1 d3.
Proof. intros (?&?&?) (?&?&?). repeat split; congruence. Qed.

Lemma setListeners_same doc cfg add w :
  match eval (Handler.setListeners (Some doc) cfg add) w with
  | Some doc' => same_document doc doc'
  | None => False
  end.
Proof.
  unfold Handler.setListeners. destruct (isObject _); [|done].
  rewrite eval_bind, eval_ret.
  apply (each_invariant (same_document doc)); [|done].
  intros [e fns] d w1 Hd. unfold Handler.bind_descriptor.
  destruct (Handler.descriptor_targets d e) as [ev els].
  apply (each_invariant (same_document doc)); [|done].
  intros fn d' w2 Hd'. unfold Handler.bind_handler.
  destruct (match fn with VStr name => aget name cfg | _ => fn end)
    as [| | | | |[| |f] ?]; try done.
  apply (each_invariant (same_document doc)); [|done].
  intros el d'' w3 Hd''. rewrite eval_bind, eval_ret.
  eapply same_document_trans; [exact Hd''|apply listenerFn_same].
Qed.

Lemma setDefaultHandlers_same doc add :
  match Handler.setDefaultHandlers (Some doc) add with
  | Some doc' => same_document doc doc'
  | None => False
  end.
Proof.
  simpl. repeat (eapply same_document_trans; [|apply listenerFn_same]). done.
Qed.

Lemma data_step_emits host cfg response :
  emits dom_event
    (match aget "data" cfg with
     | VObj (Function f) _ =>
         emit (DataCalled f response);; Page.call host f [response]
     | data => mret data
     end).
Proof.
  destruct (aget "data" _) as [| | | | |[| |f] ?]; try apply emits_ret.
  apply emits_bind; [by apply emits_emit|]. intros; apply call_emits.
Qed.

Lemma data_step_eval host cfg response w :
  eval (match aget "data" cfg with
        | VObj (Function f) _ =>
            emit (DataCalled f response);; Page.call host f [response]
        | data => mret data
        end) w = data_of host cfg response.
Proof.
  unfold data_of. destruct (aget "data" _) as [| | | | |[| |f] ?]; try done.
  rewrite eval_bind. unfold Page.call. by rewrite eval_bind.
Qed.

(** ** The page pipeline: [url] *)

Lemma ajax_truthy_url url options method :
  truthy url = true → ajax url options method ≠ ThrowsTypeError.
Proof.
  intros Hurl. unfold ajax, ajax_send.
  destruct (isUndefined options && typeof_object url).
  - destruct url as [| | | | |c ps]; try done.
    simpl. by destruct (truthy (aget "url" ps)).
  - by destruct (negb (isString url)).
Qed.

(** The factory without a [ready] function and with a [url], up to its
    return: the request has been made, the promise is pending. *)
Lemma invoke_url host cfg options w :
  let merged := defaultsDeep cfg (page_defaults w) in
  let request := Ajax_get (aget "url" merged) (aget "options" merged) in
  isFunction (aget "ready" merged) = false →
  truthy (aget "url" merged) = true →
  Page.invoke host cfg options w =
    ({| inv_cfg := merged; inv_promise := Pending;
        inv_waiting := Transport request |},
     advance (sent request) (next_ref w) w).
Proof.
  intros merged request Hready Hurl. unfold Page.invoke.
  unfold mbind at 1, M_bind at 1, gets at 1. fold merged.
  pose proof (ajax_truthy_url (aget "url" merged) (aget "options" merged) "GET" Hurl)
    as Hthrow. fold (Ajax_get (aget "url" merged) (aget "options" merged)) in Hthrow.
  fold request in Hthrow.
  destruct (aget "ready" merged) as [| | | | |[| |f] ?]; try done;
    rewrite Hurl; fold request; (destruct request as [r| |]; [| |done]);
    try (by destruct w); simpl; by rewrite advance_nil.
Qed.

(** C2, as the code has it.  A configuration without a [ready] function
    and with a [url], whose transport call fails.  With an [onError]
    function, [onError] is called with the response of the failed request
    and with the request, and the promise of the invocation is neither
    fulfilled nor rejected: it stays pending.  Without one, the promise is
    rejected with the failed request. *)
Theorem transport_failure host cfg options w x :
  let merged := defaultsDeep cfg (page_defaults w) in
  let request := Ajax_get (aget "url" merged) (aget "options" merged) in
  let final := Page.run host cfg options w in
  isFunction (aget "ready" merged) = false →
  truthy (aget "url" merged) = true →
  Page.ajax_promise host request = Rejected x →
  match aget "onError" merged with
  | VObj (Function onError) _ =>
      inv_promise final.1 = Pending ∧
      trace final.2 =
        trace w ++ sent request ++ [OnErrorCalled onError (failure_response x) x]
  | _ =>
      inv_promise final.1 = Rejected x ∧
      trace final.2 = trace w ++ sent request
  end.
Proof.
  intros merged request final Hready Hurl Hfail. subst final.
  unfold Page.run. unfold mbind, M_bind.
  rewrite (invoke_url host cfg options w Hready Hurl). fold merged request.
  unfold Page.later. cbn [inv_waiting]. rewrite Hfail.
  unfold Page.transport_done. cbn [inv_cfg].
  destruct (aget "onError" merged) as [| | | | |[| |f] ?];
    cbn [mret M_ret fst snd inv_promise reject];
    rewrite ?advance_trace; try done.
  split; [done|].
  change (trace (exec (emit (OnErrorCalled f (failure_response x) x))
                   (advance (sent request) (next_ref w) w)) =
          trace w ++ sent request ++ [OnErrorCalled f (failure_response x) x]).
  by rewrite exec_emit, !advance_trace, <- app_assoc.
Qed.

(** C2, witness of [transport_failure]: [{url: "/x", onError: fn}] with a
    request answered by the status 500. *)
Lemma transport_failure_witness :
  let final :=
    Page.run example_host url_onError_cfg VUndefined (initial_world example_host) in
  let x := XhrFailure {| status := 500; response := VStr "boom" |} in
  inv_promise final.1 = Pending ∧
  trace final.2 =
    [AjaxSent {| req_method := VStr "GET"; req_url := VStr "/x";
                 req_options := [("responseType", VStr "json")] |};
     OnErrorCalled (FnUser 7) (VStr "boom") x].
Proof.
  exact (transport_failure example_host url_onError_cfg VUndefined
           (initial_world example_host)
           (XhrFailure {| status := 500; response := VStr "boom" |})
           eq_refl eq_refl eq_refl).
Defined.

(** C2, counterexample to the sentence of the specification: with [onError]
    declared and a failed request, the promise of the invocation is not
    resolved, to [undefined] or to anything else. *)
Lemma onError_promise_not_resolved :
  let w := initial_world example_host in
  let merged := defaultsDeep url_onError_cfg (page_defaults w) in
  let final := Page.run example_host url_onError_cfg VUndefined w in
  isFunction (aget "onError" merged) = true ∧
  truthy (aget "url" merged) = true ∧
  Page.ajax_promise example_host
    (Ajax_get (aget "url" merged) (aget "options" merged)) =
    Rejected (XhrFailure {| status := 500; response := VStr "boom" |}) ∧
  ¬ (∃ d, inv_promise final.1 = Fulfilled d).
Proof.
  repeat split. intros [d Hd]. vm_compute in Hd. discriminate.
Qed.

(** ** The event binder *)

Lemma bind_handler_no_target cfg add ev fn doc w :
  Handler.bind_handler cfg add ev [] fn doc w = (doc, w).
Proof.
  unfold Handler.bind_handler.
  by destruct (match fn with VStr name => aget name cfg | _ => fn end)
    as [| | | | |[| |f] ?].
Qed.

Lemma bind_handlers_no_target cfg add ev fns doc w :
  each (Handler.bind_handler cfg add ev []) fns doc w = (doc, w).
Proof.
  induction fns as [|fn fns IH]; [done|].
  simpl. unfold mbind, M_bind. by rewrite bind_handler_no_target.
Qed.

(** C9. A descriptor with a selector, on a document whose
    [querySelectorAll] throws for that selector or that has no
    [querySelectorAll]: the descriptor has no target, [setListeners] adds
    or removes no listener for it and goes on to the next descriptor; with
    this descriptor alone it returns the document as it was.  For a value
    that is no document, [setListeners] returns at once. *)
Theorem failed_query_binds_nothing cfg add e fns doc w ev selector :
  split_space e = (ev, Some selector) →
  (split_space selector).1 ≠ "" →
  querySelectorAll doc = None ∨
    (∃ query, querySelectorAll doc = Some query ∧ query selector = QueryThrows) →
  Handler.descriptor_targets doc e = (ev, []) ∧
  Handler.bind_descriptor cfg add (e, fns) doc w = (doc, w) ∧
  (∀ c, aget "events" cfg = VObj c [(e, fns)] →
        Handler.setListeners (Some doc) cfg add w = (Some doc, w)) ∧
  Handler.setListeners None cfg add w = (None, w).
Proof.
  intros Hsplit Hselector Hquery.
  assert (Handler.descriptor_targets doc e = (ev, [])) as Htargets.
  { unfold Handler.descriptor_targets. rewrite Hsplit. simpl.
    destruct (String.eqb_spec (split_space selector).1 ""); [done|]. simpl.
    unfold Handler.attempt_query.
    destruct Hquery as [->|(query & -> & ->)]; done. }
  assert (Handler.bind_descriptor cfg add (e, fns) doc w = (doc, w)) as Hbind.
  { unfold Handler.bind_descriptor. rewrite Htargets.
    apply bind_handlers_no_target. }
  split; [done|]. split; [done|]. split; [|done].
  intros c Hevents. unfold Handler.setListeners. rewrite Hevents.
  cbn [isObject props_of each]. unfold mbind, M_bind. by rewrite Hbind.
Qed.

(** C9, witness of [failed_query_binds_nothing]: the descriptor
    ["select ::"] on a document whose query throws. *)
Lemma failed_query_witness :
  let cfg := [("events", VObj Plain [("select ::", VFun (FnUser 1))])] in
  Handler.setListeners (Some unqueryable) cfg true (initial_world example_host) =
    (Some unqueryable, initial_world example_host).
Proof.
  intros cfg.
  assert (querySelectorAll unqueryable = None ∨
          ∃ query, querySelectorAll unqueryable = Some query ∧
                   query "::" = QueryThrows) as Hquery.
  { right. by exists (λ _, QueryThrows). }
  assert ((split_space "::").1 ≠ "") as Hselector by discriminate.
  exact (proj1 (proj2 (proj2 (failed_query_binds_nothing cfg true "select ::"
           (VFun (FnUser 1)) unqueryable (initial_world example_host)
           "select" "::" eq_refl Hselector Hquery))) Plain eq_refl).
Defined.

(** ** Detaching *)

Lemma set_listeners_same d : set_listeners (listeners d) d = d.
Proof. by destruct d. Qed.

Lemma filter_all {A} (f : A → bool) l :
  Forall (λ x, f x = true) l → List.filter f l = l.
Proof.
  induction 1 as [|x l Hx _ IH]; [done|]. simpl. by rewrite Hx, IH.
Qed.

(** Removing a function object that has just been created removes
    nothing. *)
Lemma removeEventListener_new n c t type f this d :
  closures_below n d → n ≤ c →
  removeEventListener t type (CbBound c f this) d = d.
Proof.
  intros Hbelow Hc. unfold removeEventListener.
  rewrite filter_all; [apply set_listeners_same|].
  eapply Forall_impl; [exact Hbelow|]. intros l Hl. simpl in Hl.
  unfold same_listener. simpl.
  destruct (l_callback l) as [h|c' f' this']; simpl.
  - by rewrite andb_false_r.
  - assert (c ≠ c') as Hne by lia.
    rewrite (bool_decide_eq_false_2 (c = c') Hne). by rewrite andb_false_r.
Qed.

Lemma closures_below_mono n m d : n ≤ m → closures_below n d → closures_below m d.
Proof.
  intros Hnm Hbelow. eapply Forall_impl; [exact Hbelow|].
  intros l Hl. simpl in *. destruct (l_callback l); [done|lia].
Qed.

Lemma with_next_ref_same w : with_next_ref (next_ref w) w = w.
Proof. by destruct w. Qed.

Lemma with_next_ref_twice n m w :
  with_next_ref m (with_next_ref n w) = with_next_ref m w.
Proof. by destruct w. Qed.

Lemma next_ref_with_next_ref n w : next_ref (with_next_ref n w) = n.
Proof. by destruct w. Qed.

Lemma each_returns_unchanged {A B} (f : A → B → M B) (P : nat → Prop) l d :
  (∀ n m, n ≤ m → P n → P m) →
  (∀ x w, P (next_ref w) → ∃ n, next_ref w ≤ n ∧ f x d w = (d, with_next_ref n w)) →
  ∀ w, P (next_ref w) → ∃ n, next_ref w ≤ n ∧ each f l d w = (d, with_next_ref n w).
Proof.
  intros Hmono Hf. induction l as [|x l IH]; intros w Hw.
  - exists (next_ref w). split; [done|]. simpl. by rewrite with_next_ref_same.
  - simpl. unfold mbind, M_bind.
    destruct (Hf x w Hw) as (n & Hn & ->).
    destruct (IH (with_next_ref n w)) as (m & Hm & ->).
    + rewrite next_ref_with_next_ref. by apply (Hmono (next_ref w)).
    + rewrite next_ref_with_next_ref in Hm. exists m. split; [lia|].
      by rewrite with_next_ref_twice.
Qed.

(** [removeListeners] leaves every listener in place: the function that it
    hands to [removeEventListener] is a new one each time. *)
Lemma removeListeners_removes_nothing doc cfg w :
  closures_below (next_ref w) doc →
  eval (Handler.removeListeners (Some doc) cfg) w = Some doc.
Proof.
  intros Hbelow. unfold Handler.removeListeners, Handler.setListeners.
  destruct (isObject _); [|done].
  rewrite eval_bind, eval_ret. f_equal.
  set (P := λ n, closures_below n doc).
  assert (∀ n m, n ≤ m → P n → P m) as Hmono
    by (intros n m Hnm; by apply closures_below_mono).
  assert (∀ entry w, P (next_ref w) →
    ∃ n, next_ref w ≤ n ∧
         Handler.bind_descriptor cfg false entry doc w = (doc, with_next_ref n w))
    as Hentry.
  { intros [e fns] w1 Hw1. unfold Handler.bind_descriptor.
    destruct (Handler.descriptor_targets doc e) as [ev els].
    apply (each_returns_unchanged _ P); [done| |done].
    intros fn w2 Hw2. unfold Handler.bind_handler.
    destruct (match fn with VStr name => aget name cfg | _ => fn end)
      as [| | | | |[| |f] ?];
      try (exists (next_ref w2); split; [done|]; simpl;
           by rewrite with_next_ref_same).
    apply (each_returns_unchanged _ P); [done| |done].
    intros el w3 Hw3. exists (S (next_ref w3)). split; [lia|].
    unfold mbind, M_bind, fresh. simpl.
    by rewrite (removeEventListener_new (next_ref w3)). }
  destruct (each_returns_unchanged (Handler.bind_descriptor cfg false) P
              (props_of (aget "events" cfg)) doc Hmono Hentry w Hbelow)
    as (n & _ & Heach).
  unfold eval. by rewrite Heach.
Qed.

(** C3, at the input that the specification names: a document with three
    elements that match [.item] and the events map
    [{"select .item": [h1, h2]}].  After [addListeners], a [select] event
    on any of the three elements calls [h1] once and [h2] once, with the
    configuration as receiver.  After [removeListeners] with the same
    document and configuration, the six listeners are all still there, and
    the event calls [h1] and [h2] as before. *)
Theorem detach_leaves_the_handlers_firing :
  let w0 := initial_world example_host in
  let doc := Parser_dom example_host (VStr "<document></document>") VUndefined in
  let attached := Handler.addListeners (Some doc) two_handlers_cfg w0 in
  let detached := Handler.removeListeners attached.1 two_handlers_cfg attached.2 in
  let fired d w el :=
    trace (exec (Handler.fire example_host d (TElement el)
                   {| Handler.ev_type := "select"; Handler.ev_target := el |}) w) in
  let both el :=
    [HandlerCalled (FnUser 1) two_handlers_cfg (TElement el) "select";
     HandlerCalled (FnUser 2) two_handlers_cfg (TElement el) "select"] in
  ∃ a, attached.1 = Some a ∧ length (listeners a) = 6 ∧
       Forall (λ el, fired a attached.2 el = both el) [1; 2; 3] ∧
       detached.1 = Some a ∧
       Forall (λ el, fired a detached.2 el = both el) [1; 2; 3].
Proof.
  eexists. split; [reflexivity|]. split; [reflexivity|]. split; [|split].
  - repeat apply List.Forall_cons; try apply List.Forall_nil; reflexivity.
  - reflexivity.
  - repeat apply List.Forall_cons; try apply List.Forall_nil; reflexivity.
Qed.

Lemma each_joint {A B} (I : B → World → Prop) (f : A → B → M B) l :
  (∀ x acc w, I acc w → I (f x acc w).1 (f x acc w).2) →
  ∀ acc w, I acc w → I (each f l acc w).1 (each f l acc w).2.
Proof.
  intros Hf. induction l as [|x l IH]; intros acc w Hacc; [done|].
  simpl. unfold mbind, M_bind. specialize (Hf x acc w Hacc).
  destruct (f x acc w) as [acc' w']. by apply IH.
Qed.

Lemma listenerFn_closures_below add n t type f this d :
  closures_below n d →
  closures_below (S n) (Handler.listenerFn add t type (CbBound n f this) d).
Proof.
  intros Hbelow. apply (closures_below_mono n (S n)) in Hbelow; [|lia].
  destruct add; simpl.
  - unfold addEventListener. destruct (existsb _ _); [done|].
    unfold closures_below. destruct d; simpl in *.
    apply Forall_app. split; [done|]. repeat constructor.
  - unfold removeEventListener, closures_below. destruct d; simpl in *.
    unfold closures_below in Hbelow. simpl in Hbelow.
    induction Hbelow as [|l ls Hl _ IH]; simpl; [constructor|].
    destruct (negb _); [by constructor|done].
Qed.

(** The listeners that [setListeners] registers are functions created
    before the next one. *)
Lemma setListeners_closures_below doc cfg add w :
  closures_below (next_ref w) doc →
  ∃ doc', (Handler.setListeners (Some doc) cfg add w).1 = Some doc' ∧
          closures_below
            (next_ref (Handler.setListeners (Some doc) cfg add w).2) doc'.
Proof.
  intros Hbelow. unfold Handler.setListeners.
  destruct (isObject _); [|by exists doc].
  set (I := λ d w, closures_below (next_ref w) d).
  pose proof (each_joint I (Handler.bind_descriptor cfg add)
                (props_of (aget "events" cfg))) as Heach.
  unfold mbind, M_bind.
  destruct (each (Handler.bind_descriptor cfg add) _ doc w) as [doc' w'] eqn:Hrun.
  exists doc'. split; [done|]. simpl.
  specialize (Heach) with (acc := doc) (w := w). rewrite Hrun in Heach.
  apply Heach; [|done]. clear.
  intros [e fns] d w Hd. unfold Handler.bind_descriptor.
  destruct (Handler.descriptor_targets d e) as [ev els].
  apply (each_joint I); [|done]. clear.
  intros fn d w Hd. unfold Handler.bind_handler.
  destruct (match fn with VStr name => aget name cfg | _ => fn end)
    as [| | | | |[| |f] ?]; try done.
  apply (each_joint I); [|done]. clear.
  intros el d w Hd. unfold mbind, M_bind, fresh, I. simpl.
  destruct w; simpl in *. by apply listenerFn_closures_below.
Qed.

(** C3 in general: whatever the document and the configuration,
    [removeListeners] after [addListeners] returns the document with all
    its listeners. *)
Lemma detach_after_attach_removes_nothing doc cfg w :
  closures_below (next_ref w) doc →
  let attached := Handler.addListeners (Some doc) cfg w in
  eval (Handler.removeListeners attached.1 cfg) attached.2 = attached.1.
Proof.
  intros Hbelow attached.
  destruct (setListeners_closures_below doc cfg true w Hbelow) as (doc' & Hdoc & Hb).
  fold (Handler.addListeners (Some doc) cfg) in Hdoc, Hb. fold attached in Hdoc, Hb.
  rewrite Hdoc. by apply removeListeners_removes_nothing.
Qed.

(** ** Menu synchronisation *)

Lemma setDocument_run doc menuId w :
  Menu.setDocument doc menuId w =
    (tt, with_trace (trace w ++ [published w doc menuId]) w).
Proof.
  unfold Menu.setDocument, published, mbind, M_bind, gets.
  by destruct (itemsCache w !! menuId).
Qed.

(** [onMenuItemSelect] on an element of the world. *)
Lemma onMenuItemSelect_run w el type element :
  elements w !! el = Some element →
  Handler.onMenuItemSelect {| Handler.ev_type := type; Handler.ev_target := el |} w =
    match el_page element with
    | Some page =>
        if loads element then
          let menuId := Handler.menuId_of element in
          let loading :=
            Navigation_getLoaderDoc (text_value (loadingMessage (menu_defaults w))) in
          (Some {| Handler.load_element := el; Handler.load_menuId := menuId |},
           with_trace (trace w ++ [published w loading menuId; PageCalled page]) w)
        else (None, w)
    | None => (None, w)
    end.
Proof.
  intros Hel. unfold Handler.onMenuItemSelect, loads.
  unfold mbind, M_bind, gets. simpl. rewrite Hel.
  destruct (String.eqb _ "menuitem"), (el_page element) as [page|]; try done.
  simpl. destruct (_ || _); [|done].
  unfold Menu.getLoadingMessage, gets. rewrite setDocument_run.
  destruct w; simpl. by rewrite <- app_assoc.
Qed.

(** A selection that loads nothing leaves the world as it is. *)
Lemma select_idle w el element p :
  elements w !! el = Some element →
  loads element = false →
  Handler.select el p w = (tt, w).
Proof.
  intros Hel Hloads. unfold Handler.select. unfold mbind, M_bind.
  rewrite (onMenuItemSelect_run w el "select" element Hel), Hloads.
  by destruct (el_page element).
Qed.

(** A selection that loads the page: the loading document is published,
    the factory is called once, and the callbacks of [then] do their
    part. *)
Lemma select_loads w el element page p :
  elements w !! el = Some element →
  el_page element = Some page →
  loads element = true →
  let menuId := Handler.menuId_of element in
  let loading :=
    Navigation_getLoaderDoc (text_value (loadingMessage (menu_defaults w))) in
  let after := exec (Handler.select el p) w in
  trace after =
    trace w ++ [published w loading menuId; PageCalled page] ++
      match p with
      | Pending => []
      | Fulfilled (Some doc) => [published w doc menuId; DismissModal]
      | Fulfilled None => [DismissModal]
      | Rejected error =>
          [published w (Navigation_getErrorDoc error) menuId; DismissModal]
      end ∧
  elements after =
    match p with
    | Fulfilled (Some doc) => <[el := set_pageDoc (Some doc) element]> (elements w)
    | _ => elements w
    end.
Proof.
  intros Hel Hpage Hloads menuId loading after. subst after.
  assert (Handler.select el p w =
          Handler.settle
            {| Handler.load_element := el; Handler.load_menuId := menuId |} p
            (with_trace (trace w ++ [published w loading menuId; PageCalled page]) w))
    as Hselect.
  { unfold Handler.select. unfold mbind, M_bind.
    by rewrite (onMenuItemSelect_run w el "select" element Hel), Hpage, Hloads. }
  unfold exec. rewrite Hselect.
  unfold Handler.settle, Handler.onPageLoaded, Handler.onPageFailed.
  destruct p as [|[doc|]|error];
    unfold mbind, M_bind, modify, emit; rewrite ?setDocument_run;
    destruct w; simpl in *; (split; [by rewrite <- ?app_assoc|]); try done.
  apply map_eq. intros i. rewrite lookup_alter, lookup_insert.
  destruct (decide (el = i)) as [<-|]; [by rewrite Hel|done].
Qed.

(** C4, as the code has it.  A selection that loads the page of a menu item
    whose id is in the menu: the loading document is published to the item
    and the factory is called; then, when the promise is rejected, the
    error document of the failure is published and the dismissal of the
    modal is requested; when it is fulfilled with a document, the document
    is recorded as [pageDoc] of the element and published, and the
    dismissal is requested; when it is fulfilled with [null], only the
    dismissal is requested, nothing is published. *)
Theorem menu_selection_outcomes w el element page item p :
  elements w !! el = Some element →
  el_page element = Some page →
  loads element = true →
  itemsCache w !! Handler.menuId_of element = Some item →
  let loading :=
    Navigation_getLoaderDoc (text_value (loadingMessage (menu_defaults w))) in
  let after := exec (Handler.select el p) w in
  match p with
  | Pending =>
      trace after = trace w ++ [MenuBarSetDocument loading item; PageCalled page] ∧
      elements after = elements w
  | Rejected error =>
      trace after =
        trace w ++ [MenuBarSetDocument loading item; PageCalled page;
                    MenuBarSetDocument (Navigation_getErrorDoc error) item;
                    DismissModal] ∧
      elements after = elements w
  | Fulfilled None =>
      trace after =
        trace w ++ [MenuBarSetDocument loading item; PageCalled page; DismissModal] ∧
      elements after = elements w
  | Fulfilled (Some doc) =>
      trace after =
        trace w ++ [MenuBarSetDocument loading item; PageCalled page;
                    MenuBarSetDocument doc item; DismissModal] ∧
      elements after = <[el := set_pageDoc (Some doc) element]> (elements w)
  end.
Proof.
  intros Hel Hpage Hloads Hitem loading after.
  destruct (select_loads w el element page p Hel Hpage Hloads) as [Htrace Helements].
  fold loading after in Htrace, Helements.
  unfold published in Htrace. rewrite Hitem in Htrace.
  by destruct p as [|[doc|]|error].
Qed.

(** C4, witness of [menu_selection_outcomes]: the item of [home_menu],
    whose page fails with ["x"]. *)
Lemma menu_selection_witness :
  trace (exec (Handler.select 0 (Rejected (Reason (VStr "x")))) home_menu) =
    [MenuBarSetDocument (Navigation_getLoaderDoc "") 0;
     PageCalled home_page;
     MenuBarSetDocument (Navigation_getErrorDoc (Reason (VStr "x"))) 0;
     DismissModal].
Proof.
  exact (proj1 (menu_selection_outcomes home_menu 0 home_element home_page 0
                  (Rejected (Reason (VStr "x"))) eq_refl eq_refl eq_refl eq_refl)).
Defined.

(** C4, counterexample to the sentence of the specification: the page of the item
    of [home_menu] succeeds with a null document, and no error document is
    published; the loading document stays. *)
Lemma null_document_publishes_no_error :
  let after := exec (Handler.select 0 (Fulfilled None)) home_menu in
  trace after =
    [MenuBarSetDocument (Navigation_getLoaderDoc "") 0;
     PageCalled home_page;
     DismissModal] ∧
  ¬ (∃ error item,
       In (MenuBarSetDocument (Navigation_getErrorDoc error) item) (trace after)).
Proof.
  split; [reflexivity|].
  intros (error & item & [H|[H|[H|[]]]]); discriminate.
Qed.

(** ** At most one load *)

Lemma page_calls_app id tr1 tr2 :
  page_calls id (tr1 ++ tr2) = page_calls id tr1 + page_calls id tr2.
Proof. unfold page_calls. by rewrite List.filter_app, length_app. Qed.

Lemma page_calls_published id w doc menuId :
  page_calls id [published w doc menuId] = 0.
Proof. unfold published. by destruct (itemsCache w !! menuId). Qed.

(** C5, as the code has it.  A selection of an element calls the page
    factory of the element exactly once when the element is a menu item
    that has a page and either no [pageDoc] or a non-empty [reloadOnSelect]
    attribute; any other selection calls no factory and changes nothing.
    [pageDoc] is recorded only when the promise of the factory is fulfilled
    with a document; then, and with no [reloadOnSelect] attribute, the next
    selection calls no factory, nor does any sequence of selections, and
    once the attribute has been set the next selection calls the factory
    exactly once. *)
Theorem page_calls_of_a_selection w el element p :
  elements w !! el = Some element →
  let after := exec (Handler.select el p) w in
  (loads element = false → after = w) ∧
  (∀ page, el_page element = Some page → loads element = true →
     page_calls (page_id page) (trace after) =
       page_calls (page_id page) (trace w) + 1 ∧
     elements after !! el =
       Some match p with
            | Fulfilled (Some doc) => set_pageDoc (Some doc) element
            | _ => element
            end) ∧
  (∀ doc outcomes, pageDoc element = Some doc →
     getAttribute Handler.menuItemReloadAttribute element = None →
     after = w ∧
     exec (each (λ p (_ : unit), Handler.select el p) outcomes tt) w = w) ∧
  (∀ doc page v, pageDoc element = Some doc → el_page element = Some page →
     toLowerCase (nodeName element) = "menuitem" → v ≠ "" →
     let reloading :=
       with_elements
         (<[el := setAttribute Handler.menuItemReloadAttribute v element]> (elements w))
         w in
     page_calls (page_id page) (trace (exec (Handler.select el p) reloading)) =
       page_calls (page_id page) (trace w) + 1).
Proof.
  intros Hel after.
  assert (∀ w element page p, elements w !! el = Some element →
            el_page element = Some page → loads element = true →
            page_calls (page_id page) (trace (exec (Handler.select el p) w)) =
              page_calls (page_id page) (trace w) + 1) as Hcount.
  { clear. intros w element page p Hel Hpage Hloads.
    destruct (select_loads w el element page p Hel Hpage Hloads) as [-> _].
    rewrite !page_calls_app. f_equal.
    change [?a; ?b] with ([a] ++ [b]). rewrite page_calls_app, page_calls_published.
    assert (page_calls (page_id page) [PageCalled page] = 1) as ->
      by (unfold page_calls; simpl; by rewrite Nat.eqb_refl).
    destruct p as [|[doc|]|error]; try done.
    - change [?a; ?b] with ([a] ++ [b]). by rewrite page_calls_app, page_calls_published.
    - change [?a; ?b] with ([a] ++ [b]). by rewrite page_calls_app, page_calls_published. }
  split; [|split; [|split]].
  - intros Hloads. subst after. unfold exec.
    by rewrite (select_idle w el element p Hel Hloads).
  - intros page Hpage Hloads. split; [by apply (Hcount w element)|].
    destruct (select_loads w el element page p Hel Hpage Hloads) as [_ Helements].
    fold after in Helements. rewrite Helements.
    destruct p as [|[doc|]|error]; try done. by rewrite lookup_insert_eq.
  - intros doc outcomes Hdoc Hreload.
    assert (loads element = false) as Hloads
      by (unfold loads; rewrite Hdoc, Hreload; simpl; by rewrite andb_false_r).
    split.
    + subst after. unfold exec. by rewrite (select_idle w el element p Hel Hloads).
    + induction outcomes as [|p' outcomes IH]; [done|].
      simpl. rewrite exec_bind. unfold exec at 2, eval.
      rewrite (select_idle w el element p' Hel Hloads). exact IH.
  - intros doc page v Hdoc Hpage Hmenuitem Hv reloading.
    rewrite (Hcount reloading
               (setAttribute Handler.menuItemReloadAttribute v element) page p).
    + by destruct w.
    + unfold reloading. destruct w; simpl. by rewrite lookup_insert_eq.
    + done.
    + unfold loads. simpl. rewrite Hmenuitem, Hpage. simpl.
      unfold getAttribute. simpl. rewrite alookup_aset_eq. simpl.
      destruct (String.eqb_spec v ""); [done|]. simpl. by rewrite orb_true_r.
Qed.

(** C5, witness of [page_calls_of_a_selection]: the first selection of the
    item of [home_menu] calls its page once. *)
Lemma page_calls_witness :
  page_calls 100 (trace (exec (Handler.select 0 (Fulfilled None)) home_menu)) = 1.
Proof.
  exact (proj1 (proj1 (proj2 (page_calls_of_a_selection home_menu 0 home_element
                  (Fulfilled None) eq_refl)) home_page eq_refl eq_refl)).
Defined.

(** C5, counterexample to the sentence of the specification: the page of the item
    of [home_menu] fails, the item is selected twice, the reload attribute
    is never set, and the factory is called twice. *)
Lemma failed_load_is_repeated :
  let failed := Rejected (Reason (VStr "x")) in
  let once := exec (Handler.select 0 failed) home_menu in
  let twice := exec (Handler.select 0 failed) once in
  getAttribute Handler.menuItemReloadAttribute <$> elements home_menu !! 0 = Some None ∧
  getAttribute Handler.menuItemReloadAttribute <$> elements once !! 0 = Some None ∧
  page_calls 100 (trace twice) = 2.
Proof. repeat split. Qed.

(** ** The menu is created once *)


Lemma addItem_keeps item w :
  created (exec (Menu.addItem item) w) = created w ∧
  menu_doc (exec (Menu.addItem item) w) = menu_doc w.
Proof.
  unfold Menu.addItem, exec. destruct (String.eqb _ _); by destruct w.
Qed.

(** The first creation: the document is returned and the flag is set. *)
Lemma create_first cfg w :
  created w = false →
  eval (Menu.create cfg) w = Some (menu_doc w) ∧
  created (exec (Menu.create cfg) w) = true ∧
  menu_doc (exec (Menu.create cfg) w) = menu_doc w.
Proof.
  intros Hcreated.
  assert (∃ w', Menu.create cfg w = (Some (menu_doc w), w') ∧
                created w' = true ∧ menu_doc w' = menu_doc w)
    as (w' & Hrun & Hc & Hd).
  { unfold Menu.create.
    unfold mbind at 1, M_bind at 1, gets at 1. rewrite Hcreated.
    unfold mbind, M_bind, modify, gets.
    set (w1 := with_menuBarTpl _ _).
    set (I := λ (_ : unit) w', created w' = false ∧ menu_doc w' = menu_doc w).
    pose proof (each_joint I (λ item (_ : ()), Menu.addItem item ≫= λ _, mret ())
                  (items (menu_defaults
                     (with_menu_defaults
                        (Menu.assign_options (menu_defaults w) cfg) w))))
      as Heach.
    specialize (Heach) with (acc := tt) (w := w1).
    unfold mbind, M_bind in Heach.
    destruct (each _ _ () w1) as [[] w2]. simpl in Heach.
    destruct Heach as [_ Hdoc].
    - intros item [] w' [Hc Hd]. unfold I.
      destruct (addItem_keeps item w') as [Hc' Hd']. unfold exec in Hc', Hd'.
      destruct (Menu.addItem item w') as [r w'']. simpl in *. split; congruence.
    - unfold I, w1. by destruct w.
    - eexists. split; [|split].
      + simpl. destruct w2; simpl in *. rewrite Hdoc. reflexivity.
      + by destruct w2.
      + destruct w2; simpl in *. done. }
  unfold eval, exec. by rewrite Hrun.
Qed.



(** ** The registry of pages *)

Lemma create_run name cfg w :
  isObject name = false →
  let p := {| page_id := next_ref w; page_cfg := assign cfg [("name", name)] |} in
  let unnamed :=
    if negb (truthy name) || negb (isString name) then
      [Warn "Creating page without a name, name based navigation will not be possible."]
    else [] in
  let overriding :=
    if bool_decide (is_Some (pages w !! Page.key name)) then
      [Warn ("The given page name " ++ default "undefined" (Page.key name)
             ++ " already exists! Overriding...")%string]
    else [] in
  Page.create name cfg w =
    (p, with_pages (<[Page.key name := p]> (pages w))
          (advance (unnamed ++ overriding) (S (next_ref w)) w)).
Proof.
  intros Hname p unnamed overriding. unfold Page.create. rewrite Hname.
  subst p unnamed overriding.
  unfold mbind, M_bind, gets, modify, Page.makePage, fresh, console_warn, emit, modify.
  destruct (negb (truthy name) || negb (isString name)); simpl;
    destruct (bool_decide (is_Some (pages w !! Page.key name)));
    destruct w; simpl; unfold advance; simpl;
    rewrite <- ?app_assoc, ?app_nil_r; done.
Qed.

(** C7. Two registrations under one name: the second returns its factory
    and replaces the first in the registry, with a warning; [get] with the
    name then returns the factory of the second registration.  [get]
    changes nothing, and it returns [undefined] for a name that is not in
    the registry, as is every name before the first registration. *)
Theorem second_registration_replaces host name cfg1 cfg2 w :
  let first := Page.create (VStr name) cfg1 w in
  let second := Page.create (VStr name) cfg2 first.2 in
  page_cfg second.1 = assign cfg2 [("name", VStr name)] ∧
  page_id second.1 ≠ page_id first.1 ∧
  In (Warn ("The given page name " ++ name ++ " already exists! Overriding...")%string)
     (trace second.2) ∧
  Page.get (VStr name) second.2 = (Some second.1, second.2) ∧
  (∀ n w', (Page.get n w').2 = w') ∧
  (∀ n w', pages w' !! Page.key n = None → (Page.get n w').1 = None) ∧
  (∀ n, (Page.get n (initial_world host)).1 = None).
Proof.
  intros first second. subst second first.
  rewrite (create_run (VStr name) cfg1 w eq_refl). cbn [fst snd].
  set (w1 := with_pages _ _).
  rewrite (create_run (VStr name) cfg2 w1 eq_refl). cbn [fst snd page_cfg page_id].
  assert (next_ref w1 = S (next_ref w)) as Hnext by (by destruct w).
  assert (pages w1 !! Some name =
          Some {| page_id := next_ref w;
                  page_cfg := assign cfg1 [("name", VStr name)] |}) as Hpages.
  { unfold w1. destruct w; simpl. by rewrite lookup_insert_eq. }
  split; [done|]. split; [lia|]. split; [|split; [|split; [|split]]].
  - assert (∀ x w, trace (with_pages x w) = trace w) as Htrace by (by intros ? []).
    rewrite Htrace, advance_trace. apply in_or_app. right. apply in_or_app. right.
    simpl Page.key. rewrite Hpages. rewrite bool_decide_eq_true_2 by eauto.
    by left.
  - unfold Page.get, gets. f_equal. simpl Page.key.
    destruct w1; simpl. by rewrite lookup_insert_eq.
  - done.
  - intros n w' Hn. unfold Page.get, gets. simpl. done.
  - intros n. unfold Page.get, gets. simpl. apply lookup_empty.
Qed.

(** C7, witness of [second_registration_replaces]: two registrations of
    ["p"], and a name that was never registered. *)
Lemma second_registration_witness :
  let w0 := initial_world example_host in
  let first := Page.create (VStr "p") [("url", VStr "/a")] w0 in
  let second := Page.create (VStr "p") [("url", VStr "/b")] first.2 in
  Page.get (VStr "p") second.2 = (Some second.1, second.2) ∧
  page_cfg second.1 = [("url", VStr "/b"); ("name", VStr "p")] ∧
  (Page.get (VStr "q") second.2).1 = None.
Proof.
  intros w0 first second.
  destruct (second_registration_replaces example_host "p"
              [("url", VStr "/a")] [("url", VStr "/b")] w0)
    as (Hcfg & _ & _ & Hget & _ & Hnone & _).
  split; [exact Hget|]. split; [exact Hcfg|].
  apply Hnone. reflexivity.
Defined.

(** ** The configuration of an invocation *)

Lemma prepareDom_cfg doc cfg w :
  (eval (Page.prepareDom (Some doc) cfg) w).2 = defaults_shallow cfg (page_defaults w).
Proof.
  unfold Page.prepareDom. rewrite eval_bind, eval_gets, exec_gets.
  destruct (Page.appendStyle _ doc) as [styled|e]; [|done].
  by rewrite eval_bind.
Qed.

(** The configuration that [makeDom] returns, also where it throws. *)
Lemma makeDom_cfg host cfg response w :
  (eval (Page.makeDom host cfg response) w).2 =
    defaults_shallow (defaults_shallow cfg (page_defaults w)) (page_defaults w).
Proof.
  unfold Page.makeDom. rewrite eval_bind, eval_gets, exec_gets.
  set (built := defaults_shallow cfg (page_defaults w)).
  set (payload := if isUndefined response then VObj Array [] else response).
  rewrite eval_bind, data_step_eval.
  destruct (emits_exec _ _ w (data_step_emits host built payload))
    as (evs & _ & _ & Hdefaults & _).
  set (w2 := exec _ w) in *.
  rewrite eval_bind.
  destruct (emits_exec _ _ w2
              (render_emits host (aget "template" built) (data_of host built payload)))
    as (evs' & _ & _ & Hdefaults' & _).
  set (doc := eval (Page.render host _ _) w2).
  set (w3 := exec (Page.render host _ _) w2) in *.
  rewrite eval_bind.
  pose proof (prepareDom_cfg doc built w3) as Hcfg.
  destruct (eval (Page.prepareDom (Some doc) built) w3) as [[prepared|e] cfg'];
    simpl in Hcfg; subst cfg'.
  - rewrite eval_bind, eval_ret. simpl. by rewrite Hdefaults', Hdefaults.
  - rewrite eval_ret. simpl. by rewrite Hdefaults', Hdefaults.
Qed.

Lemma makeDom_merged host object response w :
  let merged := defaultsDeep object (page_defaults w) in
  (eval (Page.makeDom host merged response) w).2 = merged.
Proof.
  intros merged. rewrite makeDom_cfg. unfold merged.
  by rewrite !defaults_shallow_defaultsDeep.
Qed.

Lemma continue_merged host object c i w :
  inv_cfg i = defaultsDeep object (page_defaults w) →
  inv_cfg (Page.continue host c i w).1.2 = defaultsDeep object (page_defaults w) ∧
  page_defaults (Page.continue host c i w).2 = page_defaults w.
Proof.
  intros Hcfg. split.
  - destruct c as [response|reason]; [|done]. simpl. unfold Page.resolve_ready.
    destruct (_ || _); [|done]. unfold mbind, M_bind. rewrite Hcfg.
    pose proof (makeDom_merged host object response w) as Hm. unfold eval in Hm.
    by destruct (Page.makeDom _ _ _ w) as [[[doc|e] cfg'] w'].
  - change (Page.continue host c i w).2 with (exec (Page.continue host c i) w).
    by destruct (emits_exec _ _ w (continue_emits host c i)) as (_ & _ & _ & -> & _).
Qed.

Lemma continuations_merged host object calls : ∀ i w,
  inv_cfg i = defaultsDeep object (page_defaults w) →
  inv_cfg (Page.continuations host calls i w).1.2 =
    defaultsDeep object (page_defaults w) ∧
  page_defaults (Page.continuations host calls i w).2 = page_defaults w.
Proof.
  induction calls as [|c calls IH]; intros i w Hcfg; [done|].
  simpl. unfold mbind, M_bind.
  destruct (continue_merged host object c i w Hcfg) as [Hc Hd].
  destruct (Page.continue host c i w) as [[[e|] i'] w']; simpl in *; [done|].
  rewrite <- Hd. apply IH. by rewrite Hd.
Qed.

(** The configuration of an invocation is the configuration of the page
    with the defaults merged into it, whatever the way of the invocation. *)
Lemma invoke_merged host cfg options w :
  inv_cfg (Page.invoke host cfg options w).1 = defaultsDeep cfg (page_defaults w).
Proof.
  set (merged := defaultsDeep cfg (page_defaults w)).
  assert (inv_cfg
            ((if truthy (aget "url" merged) then
                match Ajax_get (aget "url" merged) (aget "options" merged) with
                | Sends r =>
                    emit (AjaxSent r);;
                    mret {| inv_cfg := merged; inv_promise := Pending;
                            inv_waiting := Transport (Sends r) |}
                | RejectsTypeError =>
                    mret {| inv_cfg := merged; inv_promise := Pending;
                            inv_waiting := Transport RejectsTypeError |}
                | ThrowsTypeError =>
                    mret {| inv_cfg := merged; inv_promise := Rejected AjaxTypeError;
                            inv_waiting := Nothing |}
                end
              else
                '(doc, cfg') ← Page.makeDom host merged VUndefined;
                match doc with
                | Returns doc =>
                    mret {| inv_cfg := cfg'; inv_promise := Fulfilled (Some doc);
                            inv_waiting := Nothing |}
                | Throws e =>
                    mret {| inv_cfg := cfg'; inv_promise := Rejected e;
                            inv_waiting := Nothing |}
                end) w).1 = merged) as Hother.
  { destruct (truthy (aget "url" merged)).
    - by destruct (Ajax_get _ _).
    - unfold mbind, M_bind.
      pose proof (makeDom_merged host cfg VUndefined w) as Hm. unfold eval in Hm.
      fold merged in Hm.
      by destruct (Page.makeDom _ _ _ w) as [[[doc|e] cfg'] w']. }
  unfold Page.invoke. unfold mbind at 1, M_bind at 1, gets at 1. fold merged.
  destruct (aget "ready" merged) as [| | | | |[| |f] ps]; try exact Hother.
  clear Hother. unfold mbind at 1, M_bind at 1.
  destruct (emit (ReadyCalled f options) w) as [[] w1] eqn:Hemit.
  assert (page_defaults w1 = page_defaults w) as Hpd.
  { change w1 with ((tt, w1).2). rewrite <- Hemit. by destruct w. }
  destruct (Page.ready_of host f options) as [now later].
  unfold mbind, M_bind.
  destruct (continuations_merged host cfg now
              {| inv_cfg := merged; inv_promise := Pending; inv_waiting := Nothing |}
              w1) as [Hc _]; [by rewrite Hpd|].
  rewrite Hpd in Hc. fold merged in Hc.
  by destruct (Page.continuations host now _ w1) as [[[e|] i] w2].
Qed.

(** C8. The merge of [defaults] into a configuration at the start of a
    factory invocation, [_.defaultsDeep(cfg, defaults)], whose result is
    the configuration of the invocation: a configuration
    without [template] gets the default template, a function that returns
    the empty string; one without [data] gets the default data function,
    the identity; one without [options], or whose [options] lack
    [responseType], gets the response type ["json"]; no value that the
    configuration defines, at any depth, is overwritten; and merging the
    defaults a second time changes nothing. *)
Theorem defaults_merge_populates_keeps_idempotent (cfg : Props) :
  let merged := defaultsDeep cfg Page.defaults in
  (aget "template" cfg = VUndefined →
     aget "template" merged = VFun FnDefaultTemplate) ∧
  (aget "data" cfg = VUndefined → aget "data" merged = VFun FnDefaultData) ∧
  (aget "options" cfg = VUndefined →
     aget "responseType" (props_of (aget "options" merged)) = VStr "json") ∧
  (∀ c ps, aget "options" cfg = VObj c ps → aget "responseType" ps = VUndefined →
     ∃ ps', aget "options" merged = VObj c ps' ∧
            aget "responseType" ps' = VStr "json") ∧
  (∀ host args w, eval (Page.call host FnDefaultTemplate args) w = VStr "") ∧
  (∀ host d w, eval (Page.call host FnDefaultData [d]) w = d) ∧
  (∀ path, get_path path (VObj Plain cfg) ≠ VUndefined →
     kept (get_path path (VObj Plain cfg)) (get_path path (VObj Plain merged))) ∧
  defaultsDeep merged Page.defaults = merged ∧
  (∀ host options w, page_defaults w = Page.defaults →
     inv_cfg (Page.invoke host cfg options w).1 = merged).
Proof.
  intros merged. subst merged. repeat split.
  - intros H. rewrite (Page_defaults_aget "template" (VFun FnDefaultTemplate)).
    + by rewrite H.
    + simpl; auto.
  - intros H. rewrite (Page_defaults_aget "data" (VFun FnDefaultData)).
    + by rewrite H.
    + simpl; auto.
  - intros H.
    rewrite (Page_defaults_aget "options" (VObj Plain [("responseType", VStr "json")])).
    + by rewrite H.
    + simpl; auto 10.
  - intros c ps H Hrt.
    rewrite (Page_defaults_aget "options" (VObj Plain [("responseType", VStr "json")])).
    + rewrite H, mergeValue_obj. eexists. split; [done|].
      rewrite baseMerge_cons. simpl. rewrite Hrt. simpl. apply aget_aset_eq.
    + simpl; auto 10.
  - intros path. apply defaultsDeep_path_kept.
  - apply defaultsDeep_idempotent, Page_defaults_wf.
  - intros host options w Hdefaults. rewrite invoke_merged. by rewrite Hdefaults.
Qed.

(** The theorem at the configuration [{url: "/x", options: {method: "POST"}}]. *)
Lemma defaults_merge_witness :
  let cfg := [("url", VStr "/x"); ("options", VObj Plain [("method", VStr "POST")])] in
  defaultsDeep cfg Page.defaults =
    [("url", VStr "/x");
     ("options", VObj Plain [("method", VStr "POST"); ("responseType", VStr "json")]);
     ("style", VStr "");
     ("template", VFun FnDefaultTemplate);
     ("data", VFun FnDefaultData)] ∧
  aget "template" (defaultsDeep cfg Page.defaults) = VFun FnDefaultTemplate ∧
  aget "data" (defaultsDeep cfg Page.defaults) = VFun FnDefaultData ∧
  (∃ ps', aget "options" (defaultsDeep cfg Page.defaults) = VObj Plain ps' ∧
          aget "responseType" ps' = VStr "json") ∧
  kept (VStr "/x") (get_path ["url"] (VObj Plain (defaultsDeep cfg Page.defaults))).
Proof.
  intros cfg.
  destruct (defaults_merge_populates_keeps_idempotent cfg)
    as (Ht & Hd & _ & Ho & _ & _ & Hk & _ & _).
  split; [reflexivity|]. split; [by apply Ht|]. split; [by apply Hd|].
  split; [by apply (Ho Plain [("method", VStr "POST")])|].
  by apply (Hk ["url"]).
Defined.

(** ** The model on small inputs *)

Example descriptor_without_selector :
  Handler.descriptor_targets unqueryable "scroll" = ("scroll", [TDocument]).
Proof. reflexivity. Qed.

Example descriptor_with_selector :
  Handler.descriptor_targets
    (Parser_dom example_host (VStr "<document></document>") VUndefined)
    "select .item" = ("select", [TElement 1; TElement 2; TElement 3]).
Proof. reflexivity. Qed.

(** The selector is everything after the first space. *)
Example descriptor_selector_with_spaces :
  split_space "select listItemLockup title" =
    ("select", Some "listItemLockup title").
Proof. reflexivity. Qed.

(** Two spaces after the event name: the second part of the split is empty,
    and the handler goes to the document. *)
Example descriptor_with_two_spaces :
  Handler.descriptor_targets unqueryable "select  .item" = ("select", [TDocument]).
Proof. reflexivity. Qed.

Example menu_item_node_name : toLowerCase "menuItem" = "menuitem".
Proof. reflexivity. Qed.

Example defaults_into_empty : defaultsDeep [] Page.defaults = Page.defaults.
Proof. reflexivity. Qed.

(** [null] is a defined value: it is kept. *)
Example defaults_keep_null :
  defaultsDeep [("template", VNull)] Page.defaults =
    [("template", VNull); ("style", VStr ""); ("data", VFun FnDefaultData);
     ("options", VObj Plain [("responseType", VStr "json")])].
Proof. reflexivity. Qed.

Example ajax_get_request :
  Ajax_get (VStr "/x") (VObj Plain [("responseType", VStr "text")]) =
    Sends {| req_method := VStr "GET"; req_url := VStr "/x";
             req_options := [("responseType", VStr "text")] |}.
Proof. reflexivity. Qed.

Example ajax_status_300 :
  ajax_settle (Done {| status := 300; response := VNull |}) =
    Fulfilled {| status := 300; response := VNull |}.
Proof. reflexivity. Qed.

(** A page without [ready] and [url]: the promise is fulfilled when the
    factory returns, with a document that has the default style, the three
    default listeners and the configuration as its [page]. *)
Example immediate_page :
  let returned :=
    Page.invoke example_host [("template", VStr "<document></document>")] VUndefined
      (initial_world example_host) in
  ∃ doc, inv_promise returned.1 = Fulfilled (Some doc) ∧
         source doc = Parsed (VStr "<document></document>") (VObj Array []) ∧
         head doc = Some "<style></style>" ∧
         length (listeners doc) = 3 ∧
         page doc = Some (inv_cfg returned.1) ∧
         trace returned.2 = [DataCalled FnDefaultData (VObj Array [])].
Proof. eexists. repeat split. Qed.

(** A registered page, taken from the registry and called. *)
Example registered_page_called :
  let w0 := initial_world example_host in
  let registered := Page.create (VStr "p") [("ready", VFun (FnUser 0))] w0 in
  let found := Page.get (VStr "p") registered.2 in
  found.1 = Some registered.1 ∧
  inv_promise (Page.apply example_host registered.1 VUndefined found.2).1 =
    Fulfilled None.
Proof. split; reflexivity. Qed.

(** ** What [addListeners] registers *)

Lemma each_app {A B} (f : A → B → M B) l1 l2 acc w :
  each f (l1 ++ l2) acc w =
    each f l2 (each f l1 acc w).1 (each f l1 acc w).2.
Proof.
  revert acc w. induction l1 as [|x l1 IH]; intros acc w; [done|].
  simpl. unfold mbind, M_bind. destruct (f x acc w) as [acc' w']. apply IH.
Qed.

Lemma each_flat_map {A B C} (f : C → B → M B) (g : A → list C) l acc w :
  each (λ x acc, each f (g x) acc) l acc w = each f (flat_map g l) acc w.
Proof.
  revert acc w. induction l as [|x l IH]; intros acc w; [done|].
  simpl. rewrite each_app. unfold mbind, M_bind.
  destruct (each f (g x) acc w) as [acc' w']. apply IH.
Qed.

Lemma each_map {A B C} (f : C → B → M B) (g : A → C) l acc w :
  each (λ x acc, f (g x) acc) l acc w = each f (map g l) acc w.
Proof.
  revert acc w. induction l as [|x l IH]; intros acc w; [done|].
  simpl. unfold mbind, M_bind. destruct (f (g x) acc w) as [acc' w']. apply IH.
Qed.

Lemma each_ext {A B} (f g : A → B → M B) l acc w :
  (∀ x acc w, f x acc w = g x acc w) → each f l acc w = each g l acc w.
Proof.
  intros Hfg. revert acc w. induction l as [|x l IH]; intros acc w; [done|].
  simpl. unfold mbind, M_bind. rewrite Hfg. destruct (g x acc w). apply IH.
Qed.

(** A function object that has just been created is not registered yet. *)
Lemma addEventListener_new n c t type f this d :
  closures_below n d → n ≤ c →
  addEventListener t type (CbBound c f this) d =
    set_listeners
      (listeners d ++ [{| l_target := t; l_type := type;
                          l_callback := CbBound c f this |}]) d.
Proof.
  intros Hbelow Hc. unfold addEventListener.
  assert (existsb
            (same_listener {| l_target := t; l_type := type;
                              l_callback := CbBound c f this |})
            (listeners d) = false) as ->; [|done].
  apply not_true_is_false. intros (l & Hin & Hsame)%existsb_exists.
  unfold closures_below in Hbelow. rewrite Forall_forall in Hbelow.
  apply list_elem_of_In, Hbelow in Hin.
  unfold same_listener in Hsame. simpl in Hsame.
  destruct (l_callback l) as [h|c' f' this']; simpl in *.
  - by rewrite andb_false_r in Hsame.
  - apply andb_true_iff in Hsame as [_ Hcc]. apply bool_decide_eq_true in Hcc. lia.
Qed.

Lemma bound_listeners_cons cfg n b bs :
  bound_listeners cfg n (b :: bs) =
    {| l_target := b.1.1; l_type := b.1.2; l_callback := CbBound n b.2 cfg |}
    :: bound_listeners cfg (S n) bs.
Proof.
  unfold bound_listeners. simpl. rewrite Nat.add_0_r. f_equal.
  apply imap_ext. intros i x _. simpl. do 2 f_equal. lia.
Qed.

Lemma bound_listeners_app cfg n bs1 bs2 :
  bound_listeners cfg n (bs1 ++ bs2) =
    bound_listeners cfg n bs1 ++ bound_listeners cfg (n + length bs1) bs2.
Proof.
  revert n. induction bs1 as [|b bs1 IH]; intros n.
  - simpl. by rewrite Nat.add_0_r.
  - replace (n + length (b :: bs1)) with (S n + length bs1) by (simpl; lia).
    change ((b :: bs1) ++ bs2) with (b :: (bs1 ++ bs2)).
    by rewrite !bound_listeners_cons, IH.
Qed.

Lemma set_listeners_twice l1 l2 d :
  set_listeners l2 (set_listeners l1 d) = set_listeners l2 d.
Proof. done. Qed.

(** The registrations of a list of bindings, one after the other. *)
Lemma add_bindings_run cfg bs : ∀ d w,
  closures_below (next_ref w) d →
  each (add_binding cfg) bs d w =
    (set_listeners (listeners d ++ bound_listeners cfg (next_ref w) bs) d,
     with_next_ref (next_ref w + length bs) w).
Proof.
  induction bs as [|b bs IH]; intros d w Hbelow.
  - simpl. unfold bound_listeners. simpl.
    by rewrite app_nil_r, set_listeners_same, Nat.add_0_r, with_next_ref_same.
  - simpl each. unfold mbind, M_bind, add_binding at 1, fresh.
    unfold mbind, M_bind. simpl.
    rewrite (addEventListener_new (next_ref w)) by done.
    rewrite IH.
    + rewrite next_ref_with_next_ref, with_next_ref_twice, bound_listeners_cons.
      simpl. rewrite <- app_assoc. simpl. do 2 f_equal. lia.
    + rewrite next_ref_with_next_ref.
      pose proof (listenerFn_closures_below true (next_ref w) b.1.1 b.1.2 b.2 cfg d
                    Hbelow) as Hnext.
      simpl in Hnext. by rewrite (addEventListener_new (next_ref w)) in Hnext.
Qed.

Lemma bound_closures_below cfg n bs d :
  closures_below n d →
  closures_below (n + length bs)
    (set_listeners (listeners d ++ bound_listeners cfg n bs) d).
Proof.
  intros Hbelow. unfold closures_below. simpl. apply Forall_app. split.
  - apply (closures_below_mono n); [lia|done].
  - clear Hbelow. revert n. induction bs as [|b bs IH]; intros n; [constructor|].
    rewrite bound_listeners_cons. constructor; [simpl; lia|].
    replace (n + length (b :: bs)) with (S n + length bs) by (simpl; lia).
    apply IH.
Qed.

Lemma bind_handler_bindings cfg ev els fn d w :
  Handler.bind_handler cfg true ev els fn d w =
    each (add_binding cfg)
      (match handler_fn cfg fn with
       | Some f => map (λ el, (el, ev, f)) els
       | None => []
       end) d w.
Proof.
  unfold Handler.bind_handler, handler_fn.
  destruct (match fn with VStr name => aget name cfg | _ => fn end)
    as [| | | | |[| |f] ?]; try done.
  by rewrite <- each_map.
Qed.

Lemma descriptor_targets_query d d' e :
  querySelectorAll d' = querySelectorAll d →
  Handler.descriptor_targets d' e = Handler.descriptor_targets d e.
Proof.
  intros Hq. unfold Handler.descriptor_targets, Handler.attempt_query.
  by rewrite Hq.
Qed.

Lemma bind_descriptor_bindings cfg doc entry d w :
  querySelectorAll d = querySelectorAll doc →
  Handler.bind_descriptor cfg true entry d w =
    each (add_binding cfg) (descriptor_bindings cfg doc entry) d w.
Proof.
  intros Hq. destruct entry as [e fns].
  unfold Handler.bind_descriptor, descriptor_bindings. simpl.
  rewrite (descriptor_targets_query doc d e Hq).
  destruct (Handler.descriptor_targets doc e) as [ev els].
  rewrite <- each_flat_map. apply each_ext. intros fn acc w'.
  apply bind_handler_bindings.
Qed.

Lemma bind_descriptors_run cfg doc entries : ∀ d w,
  querySelectorAll d = querySelectorAll doc →
  closures_below (next_ref w) d →
  each (Handler.bind_descriptor cfg true) entries d w =
    (set_listeners
       (listeners d ++
        bound_listeners cfg (next_ref w) (flat_map (descriptor_bindings cfg doc) entries))
       d,
     with_next_ref
       (next_ref w + length (flat_map (descriptor_bindings cfg doc) entries)) w).
Proof.
  induction entries as [|entry entries IH]; intros d w Hq Hbelow.
  - simpl. unfold bound_listeners. simpl.
    by rewrite app_nil_r, set_listeners_same, Nat.add_0_r, with_next_ref_same.
  - simpl each. unfold mbind, M_bind.
    rewrite (bind_descriptor_bindings cfg doc entry d w Hq).
    rewrite add_bindings_run by done.
    rewrite IH.
    + rewrite next_ref_with_next_ref, with_next_ref_twice. simpl flat_map.
      rewrite bound_listeners_app, length_app. simpl.
      rewrite <- !app_assoc. do 2 f_equal. lia.
    + done.
    + rewrite next_ref_with_next_ref. by apply bound_closures_below.
Qed.

(** The run of [addListeners] on a document. *)
Lemma addListeners_run doc cfg w :
  closures_below (next_ref w) doc →
  Handler.addListeners (Some doc) cfg w =
    (Some (set_listeners
             (listeners doc ++ bound_listeners cfg (next_ref w) (bindings cfg doc))
             doc),
     with_next_ref (next_ref w + length (bindings cfg doc)) w).
Proof.
  intros Hbelow. unfold Handler.addListeners, Handler.setListeners, bindings.
  destruct (aget "events" cfg) as [| | | | |c entries]; simpl;
    try (unfold bound_listeners; simpl;
         by rewrite app_nil_r, set_listeners_same, Nat.add_0_r, with_next_ref_same).
  unfold mbind, M_bind.
  by rewrite (bind_descriptors_run cfg doc entries doc w eq_refl Hbelow).
Qed.

(** X1. What [addListeners] does to a document whose registered arrow
    functions are all older than the next object: it keeps the listeners
    that are there, in their order, and appends one listener for every
    binding of the events map, in the order of the map, of the handler
    lists and of the targets; each is a new arrow function that calls the
    handler with the configuration as receiver.  Source, head and [page] of
    the document stay, one object is created for every binding, and a
    configuration whose [events] is not an object leaves the document as it
    is. *)
Theorem addListeners_appends_bindings doc cfg w :
  closures_below (next_ref w) doc →
  let attached := Handler.addListeners (Some doc) cfg w in
  let bs := bindings cfg doc in
  attached.1 =
    Some (set_listeners (listeners doc ++ bound_listeners cfg (next_ref w) bs) doc) ∧
  attached.2 = with_next_ref (next_ref w + length bs) w ∧
  (isObject (aget "events" cfg) = false → attached = (Some doc, w)).
Proof.
  intros Hbelow attached bs. subst attached bs.
  rewrite (addListeners_run doc cfg w Hbelow). cbn [fst snd].
  split; [done|]. split; [done|].
  intros Hevents. unfold bindings.
  replace (props_of (aget "events" cfg)) with (@nil (string * value))
    by (by destruct (aget "events" cfg)).
  unfold bound_listeners. simpl.
  by rewrite app_nil_r, set_listeners_same, Nat.add_0_r, with_next_ref_same.
Qed.

Lemma listeners_on_app t type ls1 ls2 d :
  listeners_on t type (set_listeners (ls1 ++ ls2) d) =
    listeners_on t type (set_listeners ls1 d) ++
    listeners_on t type (set_listeners ls2 d).
Proof. unfold listeners_on. simpl. by rewrite List.filter_app, map_app. Qed.

(** An event on a target whose listeners are arrow functions of
    [setListeners]: the handlers are called in the order of registration. *)
Lemma fire_bound host cfg t e n bs d w :
  Handler.fire host (set_listeners (bound_listeners cfg n bs) d) t e w =
    (tt, with_trace (trace w ++ binding_calls cfg t (Handler.ev_type e) bs) w).
Proof.
  unfold Handler.fire, binding_calls. revert n w.
  induction bs as [|b bs IH]; intros n w.
  - simpl. destruct w; simpl. by rewrite app_nil_r.
  - rewrite bound_listeners_cons. unfold listeners_on in *. simpl in *.
    destruct b as [[t' type'] f]. simpl.
    destruct (decide (t' = t)) as [->|Ht].
    + destruct (decide (type' = Handler.ev_type e)) as [->|Htype].
      * rewrite !bool_decide_eq_true_2 by done. simpl.
        unfold mbind, M_bind. simpl. rewrite IH. destruct w; simpl.
        by rewrite <- app_assoc.
      * rewrite (bool_decide_eq_false_2 (type' = _)) by done.
        rewrite (bool_decide_eq_false_2 (_ = (t, _))) by congruence.
        rewrite andb_false_r. apply IH.
    + rewrite (bool_decide_eq_false_2 (t' = t)) by done.
      rewrite (bool_decide_eq_false_2 (_ = (t, _))) by congruence.
      simpl. apply IH.
Qed.

Lemma fire_listeners_on host d d' t e w :
  listeners_on t (Handler.ev_type e) d' = listeners_on t (Handler.ev_type e) d →
  Handler.fire host d' t e w = Handler.fire host d t e w.
Proof. intros Hl. unfold Handler.fire. by rewrite Hl. Qed.

Lemma bindings_query cfg d d' :
  querySelectorAll d' = querySelectorAll d → bindings cfg d' = bindings cfg d.
Proof.
  intros Hq. unfold bindings. apply flat_map_ext. intros entry.
  unfold descriptor_bindings. by rewrite (descriptor_targets_query d d' _ Hq).
Qed.

(** X2. After [addListeners], an event on a target that had no listener of
    that type calls exactly the handlers that the events map binds to this
    target and type, each once per binding, in the order of the map, with
    the configuration as receiver; the event changes nothing else. *)
Theorem attached_handlers_fire_once_per_binding host doc cfg w t e :
  closures_below (next_ref w) doc →
  listeners_on t (Handler.ev_type e) doc = [] →
  let attached := Handler.addListeners (Some doc) cfg w in
  ∃ doc', attached.1 = Some doc' ∧
    Handler.fire host doc' t e attached.2 =
      (tt, with_trace
             (trace attached.2 ++
              binding_calls cfg t (Handler.ev_type e) (bindings cfg doc))
             attached.2).
Proof.
  intros Hbelow Hnone attached. subst attached.
  rewrite (addListeners_run doc cfg w Hbelow). cbn [fst snd].
  eexists. split; [done|].
  rewrite (fire_listeners_on host
             (set_listeners (bound_listeners cfg (next_ref w) (bindings cfg doc)) doc)).
  - apply fire_bound.
  - rewrite listeners_on_app, set_listeners_same, Hnone. done.
Qed.

(** X2, at the document with three elements that match [.item] and the
    events map [{"select .item": [h1, h2]}]. *)
Lemma attached_handlers_fire_witness :
  let doc := Parser_dom example_host (VStr "<document></document>") VUndefined in
  let attached :=
    Handler.addListeners (Some doc) two_handlers_cfg (initial_world example_host) in
  ∃ doc', attached.1 = Some doc' ∧
    trace (exec (Handler.fire example_host doc' (TElement 2)
                   {| Handler.ev_type := "select"; Handler.ev_target := 2 |})
             attached.2) =
      [HandlerCalled (FnUser 1) two_handlers_cfg (TElement 2) "select";
       HandlerCalled (FnUser 2) two_handlers_cfg (TElement 2) "select"].
Proof.
  intros doc attached.
  destruct (attached_handlers_fire_once_per_binding example_host doc two_handlers_cfg
              (initial_world example_host) (TElement 2)
              {| Handler.ev_type := "select"; Handler.ev_target := 2 |})
    as (doc' & Hdoc & Hfire); [constructor|reflexivity|].
  exists doc'. split; [exact Hdoc|]. unfold exec. subst attached.
  rewrite Hfire. reflexivity.
Defined.

(** X1, at the same document and events map: six listeners are appended,
    numbered from the next object on. *)
Lemma addListeners_appends_witness :
  let doc := Parser_dom example_host (VStr "<document></document>") VUndefined in
  let attached :=
    Handler.addListeners (Some doc) two_handlers_cfg (initial_world example_host) in
  option_map (λ d, length (listeners d)) attached.1 = Some 6 ∧
  attached.2 = with_next_ref 6 (initial_world example_host).
Proof.
  intros doc attached.
  destruct (addListeners_appends_bindings doc two_handlers_cfg
              (initial_world example_host)) as (Hdoc & Hworld & _); [constructor|].
  fold attached in Hdoc, Hworld. rewrite Hdoc, Hworld. split; reflexivity.
Defined.

(** X3. Attaching the same configuration a second time registers every
    binding again, as [addEventListener] has never seen the new arrow
    functions: an event then calls every bound handler twice. *)
Theorem attaching_twice_fires_twice host doc cfg w t e :
  closures_below (next_ref w) doc →
  listeners_on t (Handler.ev_type e) doc = [] →
  let once := Handler.addListeners (Some doc) cfg w in
  let twice := Handler.addListeners once.1 cfg once.2 in
  ∃ doc'', twice.1 = Some doc'' ∧
    length (listeners doc'') = length (listeners doc) + 2 * length (bindings cfg doc) ∧
    Handler.fire host doc'' t e twice.2 =
      (tt, with_trace
             (trace twice.2 ++
              binding_calls cfg t (Handler.ev_type e) (bindings cfg doc) ++
              binding_calls cfg t (Handler.ev_type e) (bindings cfg doc))
             twice.2).
Proof.
  intros Hbelow Hnone once twice. subst twice once.
  rewrite (addListeners_run doc cfg w Hbelow). cbn [fst snd].
  set (n := next_ref w). set (bs := bindings cfg doc).
  set (doc' := set_listeners (listeners doc ++ bound_listeners cfg n bs) doc).
  assert (closures_below (next_ref (with_next_ref (n + length bs) w)) doc') as Hbelow'.
  { rewrite next_ref_with_next_ref. by apply bound_closures_below. }
  rewrite (addListeners_run doc' cfg _ Hbelow'). cbn [fst snd].
  rewrite (bindings_query cfg doc doc' eq_refl). fold bs.
  rewrite next_ref_with_next_ref.
  eexists. split; [done|]. split.
  - simpl. rewrite !length_app. unfold bound_listeners. rewrite !length_imap. lia.
  - rewrite (fire_listeners_on host
      (set_listeners (bound_listeners cfg n bs ++
                      bound_listeners cfg (n + length bs) bs) doc)).
    + rewrite <- bound_listeners_app. rewrite fire_bound. f_equal. f_equal. f_equal.
      unfold binding_calls. by rewrite List.filter_app, map_app.
    + unfold listeners_on in *. subst doc'. simpl.
      rewrite !List.filter_app, !map_app, Hnone. done.
Qed.

(** X3, at the same document and events map. *)
Lemma attaching_twice_witness :
  let doc := Parser_dom example_host (VStr "<document></document>") VUndefined in
  let w := initial_world example_host in
  let once := Handler.addListeners (Some doc) two_handlers_cfg w in
  let twice := Handler.addListeners once.1 two_handlers_cfg once.2 in
  ∃ doc'', twice.1 = Some doc'' ∧ length (listeners doc'') = 12.
Proof.
  intros doc w once twice.
  destruct (attaching_twice_fires_twice example_host doc two_handlers_cfg w
              (TElement 1) {| Handler.ev_type := "select"; Handler.ev_target := 1 |})
    as (doc'' & Hdoc & Hlen & _); [constructor|reflexivity|].
  exists doc''. split; [exact Hdoc|]. exact Hlen.
Defined.

(** ** The default handlers *)

Lemma filter_filter {A} (f g : A → bool) l :
  List.filter f (List.filter g l) = List.filter (λ x, g x && f x) l.
Proof.
  induction l as [|x l IH]; [done|]. simpl.
  destruct (g x); simpl; [destruct (f x)|]; by rewrite IH.
Qed.

Lemma filter_ext_bool {A} (f g : A → bool) l :
  (∀ x, f x = g x) → List.filter f l = List.filter g l.
Proof. intros H. induction l as [|x l IH]; [done|]. simpl. by rewrite H, IH. Qed.

(** What [removeDefaultHandlers] leaves of a document. *)
Lemma removeDefaultHandlers_run d :
  Handler.removeDefaultHandlers (Some d) =
    Some (set_listeners
            (List.filter (λ l, negb (is_default_listener l)) (listeners d)) d).
Proof.
  unfold Handler.removeDefaultHandlers, Handler.setDefaultHandlers. simpl.
  unfold removeEventListener. simpl. f_equal. unfold set_listeners. simpl.
  f_equal. rewrite !filter_filter.
  apply filter_ext_bool. intros l. unfold is_default_listener. simpl.
  by rewrite orb_false_r, !negb_orb, andb_assoc.
Qed.

(** What [addDefaultHandlers] adds to a document: the default handlers
    that are not registered yet, in the order of [handlers]. *)
Lemma addDefaultHandlers_run d :
  Handler.addDefaultHandlers (Some d) =
    Some (set_listeners
            (listeners d ++
             List.filter (λ l, negb (existsb (same_listener l) (listeners d)))
               default_listeners) d).
Proof.
  unfold Handler.addDefaultHandlers, Handler.setDefaultHandlers. simpl.
  unfold addEventListener.
  set (L h := {| l_target := TDocument; l_type := "select";
                 l_callback := CbDefault h |}).
  destruct (existsb (same_listener (L OnLinkClick)) (listeners d)) eqn:H1,
    (existsb (same_listener (L OnModalCloseBtnClick)) (listeners d)) eqn:H2,
    (existsb (same_listener (L OnMenuItemSelect)) (listeners d)) eqn:H3;
    subst L; cbv beta zeta in *;
    do 4 (simpl; rewrite ?existsb_app, ?H1, ?H2, ?H3);
    simpl; rewrite <- ?app_assoc, ?app_nil_r, ?set_listeners_same; done.
Qed.

Lemma default_listeners_removed (g : Listener → bool) :
  List.filter (λ l, negb (is_default_listener l)) (List.filter g default_listeners) = [].
Proof.
  rewrite filter_filter. unfold default_listeners. simpl.
  unfold is_default_listener. simpl. by rewrite !andb_false_r.
Qed.

(** X4. [removeDefaultHandlers] after [addDefaultHandlers] leaves the
    document with the listeners it had before, apart from default handlers
    that were already registered on it: these are removed as well.  A
    document that had none is given back as it was. *)
Theorem default_handlers_round_trip d :
  Handler.removeDefaultHandlers (Handler.addDefaultHandlers (Some d)) =
    Some (set_listeners
            (List.filter (λ l, negb (is_default_listener l)) (listeners d)) d) ∧
  (listeners d = [] →
   Handler.removeDefaultHandlers (Handler.addDefaultHandlers (Some d)) = Some d).
Proof.
  assert (Handler.removeDefaultHandlers (Handler.addDefaultHandlers (Some d)) =
          Some (set_listeners
                  (List.filter (λ l, negb (is_default_listener l)) (listeners d)) d))
    as Hrun.
  { rewrite addDefaultHandlers_run, removeDefaultHandlers_run.
    cbn [listeners set_listeners].
    by rewrite List.filter_app, default_listeners_removed, app_nil_r. }
  split; [exact Hrun|].
  intros Hnone. rewrite Hrun, Hnone. simpl. rewrite <- Hnone.
  by rewrite set_listeners_same.
Qed.

(** X4, at a parsed document. *)
Lemma default_handlers_round_trip_witness :
  let d := Parser_dom example_host (VStr "<document></document>") VUndefined in
  Handler.removeDefaultHandlers (Handler.addDefaultHandlers (Some d)) = Some d.
Proof. intros d. by apply (default_handlers_round_trip d). Defined.

(** X5. Adding the default handlers is idempotent: a second
    [addDefaultHandlers] changes nothing, whatever the document had
    registered before, as [addEventListener] ignores a function object that
    is already registered for the event. *)
Theorem default_handlers_added_once doc :
  Handler.addDefaultHandlers (Handler.addDefaultHandlers doc) =
    Handler.addDefaultHandlers doc ∧
  match Handler.addDefaultHandlers doc with
  | Some d' => Forall (λ l, In l (listeners d')) default_listeners
  | None => doc = None
  end.
Proof.
  destruct doc as [d|]; [|done].
  rewrite addDefaultHandlers_run.
  set (L h := {| l_target := TDocument; l_type := "select";
                 l_callback := CbDefault h |}).
  assert (∀ h, existsb (same_listener (L h)) (listeners d) = true → In (L h) (listeners d))
    as Hin.
  { intros h Hex. apply existsb_exists in Hex as (l & Hl & Hsame).
    replace (L h) with l; [done|].
    destruct l as [t ty [h'|c f this]]; unfold same_listener in Hsame; simpl in Hsame;
      [|by rewrite andb_false_r in Hsame].
    apply andb_prop in Hsame as [Heq Hh]. apply andb_prop in Heq as [Ht Hty].
    apply bool_decide_eq_true in Ht, Hty, Hh. by subst. }
  pose proof (Hin OnLinkClick) as Hin1. pose proof (Hin OnModalCloseBtnClick) as Hin2.
  pose proof (Hin OnMenuItemSelect) as Hin3. clear Hin.
  destruct (existsb (same_listener (L OnLinkClick)) (listeners d)) eqn:H1,
    (existsb (same_listener (L OnModalCloseBtnClick)) (listeners d)) eqn:H2,
    (existsb (same_listener (L OnMenuItemSelect)) (listeners d)) eqn:H3;
    subst L; cbv beta zeta in *;
    (split;
     [rewrite addDefaultHandlers_run; unfold default_listeners; simpl;
      do 4 (simpl; rewrite ?existsb_app, ?H1, ?H2, ?H3);
      simpl; rewrite ?app_nil_r; done
     |unfold default_listeners; simpl; rewrite ?H1, ?H2, ?H3; simpl;
      repeat constructor; rewrite ?in_app_iff; simpl; auto 10]).
Qed.

(** ** [addAll] and [removeAll] *)

Lemma bound_not_default cfg bs : ∀ n,
  List.filter (λ l, negb (is_default_listener l)) (bound_listeners cfg n bs) =
    bound_listeners cfg n bs.
Proof.
  induction bs as [|b bs IH]; intros n; [done|].
  rewrite bound_listeners_cons. cbn [List.filter].
  replace (is_default_listener _) with false.
  - simpl. by rewrite IH.
  - unfold is_default_listener, default_listeners, same_listener. simpl.
    by rewrite !andb_false_r.
Qed.

(** [addAll] on a document: the default handlers that are missing, then
    the bindings of the events map. *)
Lemma addAll_run doc cfg w :
  closures_below (next_ref w) doc →
  Handler.addAll (Some doc) cfg w =
    (Some (set_listeners
             ((listeners doc ++
               List.filter (λ l, negb (existsb (same_listener l) (listeners doc)))
                 default_listeners) ++
              bound_listeners cfg (next_ref w) (bindings cfg doc))
             doc),
     with_next_ref (next_ref w + length (bindings cfg doc)) w).
Proof.
  intros Hbelow. unfold Handler.addAll, Handler.setHandlers.
  rewrite addDefaultHandlers_run.
  set (missing := List.filter _ default_listeners).
  rewrite addListeners_run.
  - by rewrite (bindings_query cfg doc (set_listeners _ doc) eq_refl).
  - unfold closures_below. cbn [listeners set_listeners]. apply Forall_app.
    split; [exact Hbelow|]. subst missing. unfold default_listeners. simpl.
    repeat match goal with |- context [if ?b then _ else _] => destruct b end;
      simpl; repeat constructor.
Qed.

(** X6. [removeAll] after [addAll] with the same configuration: the default
    handlers are gone, and every listener that [addAll] registered for the
    events map is still on the document, as the arrow functions that
    [removeAll] hands to [removeEventListener] are new ones. *)
Theorem removeAll_keeps_the_bindings doc cfg w :
  closures_below (next_ref w) doc →
  let attached := Handler.addAll (Some doc) cfg w in
  let detached := Handler.removeAll attached.1 cfg attached.2 in
  detached.1 =
    Some (set_listeners
            (List.filter (λ l, negb (is_default_listener l)) (listeners doc) ++
             bound_listeners cfg (next_ref w) (bindings cfg doc))
            doc).
Proof.
  intros Hbelow attached detached. subst detached attached.
  rewrite (addAll_run doc cfg w Hbelow). cbn [fst snd].
  unfold Handler.removeAll, Handler.setHandlers.
  rewrite removeDefaultHandlers_run. cbn [listeners set_listeners].
  rewrite !List.filter_app, default_listeners_removed, app_nil_r, bound_not_default.
  set (kept := List.filter _ (listeners doc)).
  set (bound := bound_listeners _ _ _).
  pose proof (removeListeners_removes_nothing
                (set_listeners (kept ++ bound) doc) cfg
                (with_next_ref (next_ref w + length (bindings cfg doc)) w)) as Hrm.
  unfold eval in Hrm. rewrite set_listeners_twice. apply Hrm.
  rewrite next_ref_with_next_ref.
  pose proof (bound_closures_below cfg (next_ref w) (bindings cfg doc)
                (set_listeners kept doc)) as Hb.
  cbn [listeners set_listeners] in Hb. rewrite set_listeners_twice in Hb.
  apply Hb. unfold closures_below. cbn [listeners set_listeners]. subst kept.
  unfold closures_below in Hbelow. rewrite Forall_forall in Hbelow |- *.
  intros l Hl. apply Hbelow. apply list_elem_of_In. apply list_elem_of_In in Hl.
  apply filter_In in Hl. tauto.
Qed.

(** X6, at the document with three elements that match [.item]: the six
    listeners of the events map are left. *)
Lemma removeAll_keeps_witness :
  let doc := Parser_dom example_host (VStr "<document></document>") VUndefined in
  let w := initial_world example_host in
  let attached := Handler.addAll (Some doc) two_handlers_cfg w in
  let detached := Handler.removeAll attached.1 two_handlers_cfg attached.2 in
  option_map (λ d, length (listeners d)) attached.1 = Some 9 ∧
  option_map (λ d, length (listeners d)) detached.1 = Some 6.
Proof.
  intros doc w attached detached. split; [reflexivity|].
  subst detached attached.
  rewrite (removeAll_keeps_the_bindings doc two_handlers_cfg w); [reflexivity|].
  constructor.
Defined.

(** ** A [select] event in a prepared document *)

Lemma fire_app host ls1 ls2 d t e w :
  Handler.fire host (set_listeners (ls1 ++ ls2) d) t e w =
    Handler.fire host (set_listeners ls2 d) t e
      (Handler.fire host (set_listeners ls1 d) t e w).2.
Proof.
  unfold Handler.fire. rewrite listeners_on_app, each_app.
  by destruct (each _ (listeners_on t (Handler.ev_type e) (set_listeners ls1 d)) tt w)
    as [[] w'].
Qed.

Lemma with_trace_twice x y w : with_trace y (with_trace x w) = with_trace y w.
Proof. done. Qed.

Lemma with_trace_same w : with_trace (trace w) w = w.
Proof. by destruct w. Qed.

(** The three default handlers on an element that is not a menu item:
    [onLinkClick], then [onModalCloseBtnClick]; [onMenuItemSelect] does
    nothing. *)
Lemma fire_defaults host d el element w :
  elements w !! el = Some element →
  toLowerCase (nodeName element) ≠ "menuitem" →
  let e := {| Handler.ev_type := "select"; Handler.ev_target := el |} in
  let page := getAttribute Handler.hrefAttribute element in
  let replace :=
    bool_decide (getAttribute Handler.hrefPageReplaceAttribute element = Some "true") in
  let attr := getAttribute Handler.hrefOptionsAttribute element in
  let attr := if truthy_attr attr then default "" attr else "{}" in
  Handler.fire host (set_listeners default_listeners d) TDocument e w =
    (tt, with_trace
           (trace w ++
            (if truthy_attr page then
               match JSON_parse host attr with
               | Some options => [Navigate (default "" page) options replace]
               | None =>
                   [Warn ("Invalid value for the page options ("
                          ++ Handler.hrefOptionsAttribute ++ "=" ++ attr
                          ++ ") in the template.")%string;
                    Navigate (default "" page) (VObj Plain []) replace]
               end
             else []) ++
            (if truthy_attr (getAttribute Handler.modalCloseBtnAttribute element)
             then [DismissModal] else []))
           w).
Proof.
  intros Hel Hname e page replace attr0 attr.
  unfold Handler.fire, listeners_on, default_listeners. simpl.
  unfold mbind, M_bind.
  assert (Handler.onLinkClick host e w =
          (tt, with_trace
                 (trace w ++
                  (if truthy_attr page then
                     match JSON_parse host attr with
                     | Some options => [Navigate (default "" page) options replace]
                     | None =>
                         [Warn ("Invalid value for the page options ("
                                ++ Handler.hrefOptionsAttribute ++ "=" ++ attr
                                ++ ") in the template.")%string;
                          Navigate (default "" page) (VObj Plain []) replace]
                     end
                   else [])) w)) as ->.
  { unfold Handler.onLinkClick, mbind, M_bind, gets. simpl. rewrite Hel.
    fold page. destruct (truthy_attr page); simpl.
    - fold attr0. fold attr. fold replace.
      destruct (JSON_parse host attr); simpl; [done|].
      unfold Navigation_navigate, emit, modify. simpl. by rewrite <- app_assoc.
    - by rewrite app_nil_r, with_trace_same. }
  set (w1 := with_trace _ w).
  assert (Handler.onModalCloseBtnClick e w1 =
          (tt, with_trace
                 (trace w1 ++
                  (if truthy_attr
                        (getAttribute Handler.modalCloseBtnAttribute element)
                   then [DismissModal] else [])) w1)) as ->.
  { unfold Handler.onModalCloseBtnClick, mbind, M_bind, gets. simpl. rewrite Hel.
    destruct (truthy_attr (getAttribute Handler.modalCloseBtnAttribute element));
      simpl; [done|].
    by rewrite app_nil_r. }
  set (w2 := with_trace _ w1).
  assert (Handler.onMenuItemSelect e w2 = (None, w2)) as ->.
  { unfold Handler.onMenuItemSelect, mbind, M_bind, gets. simpl. rewrite Hel.
    destruct (String.eqb _ "menuitem") eqn:Heq; [|done].
    by apply String.eqb_eq in Heq. }
  simpl. subst w2 w1. simpl. by rewrite <- app_assoc.
Qed.

(** X7. A [select] event that reaches a document which [addAll] has set
    up, from an element that is not a menu item: the element's
    [data-href-page] makes the one navigation request, with the parsed
    [data-href-page-options] (with [{}] after a warning when they do not
    parse) and with [replace] only for the attribute value ["true"]; an
    element without the attribute, or with an empty one, requests none.
    Then the modal is dismissed if the element says so, and only then the
    handlers that the events map binds to the document are called.  Nothing
    but the trace changes. *)
Theorem select_in_a_prepared_document host doc cfg w0 w el element :
  listeners doc = [] →
  elements w !! el = Some element →
  toLowerCase (nodeName element) ≠ "menuitem" →
  let e := {| Handler.ev_type := "select"; Handler.ev_target := el |} in
  let page := getAttribute Handler.hrefAttribute element in
  let replace :=
    bool_decide (getAttribute Handler.hrefPageReplaceAttribute element = Some "true") in
  let attr := getAttribute Handler.hrefOptionsAttribute element in
  let attr := if truthy_attr attr then default "" attr else "{}" in
  ∃ doc', (Handler.addAll (Some doc) cfg w0).1 = Some doc' ∧
    Handler.fire host doc' TDocument e w =
      (tt, with_trace
             (trace w ++
              (if truthy_attr page then
                 match JSON_parse host attr with
                 | Some options => [Navigate (default "" page) options replace]
                 | None =>
                     [Warn ("Invalid value for the page options ("
                            ++ Handler.hrefOptionsAttribute ++ "=" ++ attr
                            ++ ") in the template.")%string;
                      Navigate (default "" page) (VObj Plain []) replace]
                 end
               else []) ++
              (if truthy_attr (getAttribute Handler.modalCloseBtnAttribute element)
               then [DismissModal] else []) ++
              binding_calls cfg TDocument "select" (bindings cfg doc))
             w).
Proof.
  intros Hnone Hel Hname e page replace attr0 attr.
  rewrite addAll_run by (unfold closures_below; rewrite Hnone; constructor).
  eexists. split; [done|]. rewrite Hnone.
  etrans;
    [apply (fire_app host default_listeners
              (bound_listeners cfg (next_ref w0) (bindings cfg doc)) doc TDocument e w)|].
  unfold e. rewrite (fire_defaults host doc el element w Hel Hname). cbn [snd].
  rewrite fire_bound. fold page attr0 attr replace. simpl.
  by rewrite <- !app_assoc.
Qed.

(** X7, at a link to the page [details] in a document without events map. *)
Lemma select_in_a_prepared_document_witness :
  let doc := Parser_dom parsing_host (VStr "<document></document>") VUndefined in
  let w := with_elements (<[7 := details_link]> ∅) (initial_world parsing_host) in
  ∃ doc', (Handler.addAll (Some doc) [] w).1 = Some doc' ∧
    trace (exec (Handler.fire parsing_host doc' TDocument
                   {| Handler.ev_type := "select"; Handler.ev_target := 7 |}) w) =
      [Navigate "details" (VObj Plain []) true].
Proof.
  intros doc w.
  destruct (select_in_a_prepared_document parsing_host doc [] w w 7 details_link)
    as (doc' & Hdoc & Hfire); [reflexivity|reflexivity|discriminate|].
  exists doc'. split; [exact Hdoc|]. unfold exec. rewrite Hfire. reflexivity.
Defined.

(** ** [_.defaults] *)

Lemma defaults_shallow_cons k v source object :
  defaults_shallow object ((k, v) :: source) =
    defaults_shallow (if isUndefined (aget k object) then aset k v object else object)
      source.
Proof. done. Qed.

Lemma isUndefined_true v : isUndefined v = true ↔ v = VUndefined.
Proof. by destruct v. Qed.

Lemma isUndefined_false v : isUndefined v = false ↔ v ≠ VUndefined.
Proof. by destruct v. Qed.

(** [_.defaults] keeps a value that is not [undefined]. *)
Lemma defaults_shallow_keeps k source : ∀ object,
  aget k object ≠ VUndefined →
  aget k (defaults_shallow object source) = aget k object.
Proof.
  induction source as [|[k' v] source IH]; intros object Hdef; [done|].
  rewrite defaults_shallow_cons.
  destruct (isUndefined (aget k' object)) eqn:Hu; [|by apply IH].
  apply isUndefined_true in Hu.
  assert (k ≠ k') as Hne by (intros ->; done).
  rewrite IH; rewrite aget_aset_ne; done.
Qed.

(** [_.defaults] fills an [undefined] value from the source. *)
Lemma defaults_shallow_fills k v source : ∀ object,
  aget k object = VUndefined → aget k source = v → v ≠ VUndefined →
  aget k (defaults_shallow object source) = v.
Proof.
  induction source as [|[k' v'] source IH]; intros object Hundef Hv Hdef.
  - unfold aget in Hv. simpl in Hv. congruence.
  - rewrite defaults_shallow_cons. unfold aget in Hv. simpl in Hv.
    destruct (decide (k = k')) as [<-|Hne].
    + simpl in Hv. subst v'. rewrite Hundef. simpl.
      rewrite defaults_shallow_keeps; rewrite aget_aset_eq; done.
    + fold (aget k source) in Hv. apply IH; [|done..].
      destruct (isUndefined (aget k' object)); [|done].
      by rewrite aget_aset_ne.
Qed.

Lemma settled_step object k v kv :
  settled object kv →
  settled (if isUndefined (aget k object) then aset k v object else object) kv.
Proof.
  intros Hs. destruct (isUndefined (aget k object)) eqn:Hu; [|done].
  apply isUndefined_true in Hu. destruct kv as [k0 v0]. unfold settled in *. simpl in *.
  destruct (decide (k0 = k)) as [->|Hne].
  - destruct Hs as [Hdef|[Hlook ->]]; [done|].
    destruct v; [right|left; rewrite aget_aset_eq; done..].
    by rewrite alookup_aset_eq.
  - by rewrite aget_aset_ne, alookup_aset_ne.
Qed.

Lemma settled_self object k v :
  settled (if isUndefined (aget k object) then aset k v object else object) (k, v).
Proof.
  destruct (isUndefined (aget k object)) eqn:Hu.
  - unfold settled. simpl. rewrite aget_aset_eq, alookup_aset_eq.
    destruct v; [by right|by left..].
  - left. by apply isUndefined_false.
Qed.

Lemma settled_fold source : ∀ object seen,
  Forall (settled object) seen →
  Forall (settled (defaults_shallow object source)) (seen ++ source).
Proof.
  induction source as [|[k v] source IH]; intros object seen Hseen.
  - by rewrite app_nil_r.
  - rewrite defaults_shallow_cons.
    replace (seen ++ (k, v) :: source) with ((seen ++ [(k, v)]) ++ source)
      by (by rewrite <- app_assoc).
    apply IH. apply Forall_app. split.
    + eapply Forall_impl; [exact Hseen|]. intros kv. apply settled_step.
    + constructor; [apply settled_self|constructor].
Qed.

Lemma settled_stable source : ∀ object,
  Forall (settled object) source → defaults_shallow object source = object.
Proof.
  induction source as [|[k v] source IH]; intros object Hs; [done|].
  rewrite defaults_shallow_cons.
  apply Forall_cons in Hs as [Hkv Hs].
  destruct (isUndefined (aget k object)) eqn:Hu; [|by apply IH].
  apply isUndefined_true in Hu.
  destruct Hkv as [Hdef|[Hlook Hv]]; [done|]. simpl in *. subst v.
  rewrite aset_same by done. by apply IH.
Qed.

(** [_.defaults] with the same source a second time changes nothing. *)
Lemma defaults_shallow_idempotent object source :
  defaults_shallow (defaults_shallow object source) source =
    defaults_shallow object source.
Proof.
  apply settled_stable.
  apply (settled_fold source object []). constructor.
Qed.

(** ** The document that [makeDom] builds *)

Lemma data_step_run host cfg response w :
  (match aget "data" cfg with
   | VObj (Function f) _ =>
       emit (DataCalled f response);; Page.call host f [response]
   | data => mret data
   end) w =
  (data_of host cfg response, with_trace (trace w ++ data_events cfg response) w).
Proof.
  unfold data_of, data_events.
  destruct (aget "data" cfg) as [| | | | |[| |f] ?]; simpl;
    try (by rewrite app_nil_r, with_trace_same).
  destruct f; unfold Page.call, mbind, M_bind; simpl; try done.
  by rewrite <- app_assoc.
Qed.

(** The call of the parser: a template that is a function is called. *)
Lemma render_run host cfg data w :
  Page.render host (aget "template" cfg) data w =
    (Parser_dom host (aget "template" cfg) data,
     with_trace (trace w ++ template_events cfg) w).
Proof.
  unfold Page.render, template_events.
  destruct (aget "template" cfg) as [| | | | |[| |f] ?]; simpl;
    try (by rewrite app_nil_r, with_trace_same).
  destruct f; unfold Page.call, mbind, M_bind; simpl;
    by rewrite ?app_nil_r, ?with_trace_same.
Qed.

(** What [appendStyle] leaves alone. *)
Lemma appendStyle_returns style doc styled :
  Page.appendStyle style doc = Returns styled →
  listeners styled = listeners doc ∧
  querySelectorAll styled = querySelectorAll doc ∧
  page styled = page doc ∧ source styled = source doc ∧ docEl styled = docEl doc.
Proof.
  unfold Page.appendStyle. destruct style; try (by intros [= <-]).
  destruct (_ || _); [by intros [= <-]|done].
Qed.

(** What [appendStyle] throws. *)
Lemma appendStyle_throws style doc e :
  Page.appendStyle style doc = Throws e →
  e = DomTypeError ∧ isString style = true ∧ head doc = None ∧ docEl doc = false.
Proof.
  unfold Page.appendStyle. destruct style; try done.
  destruct (head doc), (docEl doc); simpl; try done. by intros [= <-].
Qed.

(** [prepareDom] on a document. *)
Lemma prepareDom_run doc cfg w :
  closures_below (next_ref w) doc →
  let built := defaults_shallow cfg (page_defaults w) in
  Page.prepareDom (Some doc) cfg w =
    match Page.appendStyle (aget "style" built) doc with
    | Returns styled =>
        ((Returns
            (Some (set_listeners
                     ((listeners doc ++
                       List.filter
                         (λ l, negb (existsb (same_listener l) (listeners doc)))
                         default_listeners) ++
                      bound_listeners built (next_ref w) (bindings built doc))
                     styled)),
          built),
         with_next_ref (next_ref w + length (bindings built doc)) w)
    | Throws e => ((Throws e, built), w)
    end.
Proof.
  intros Hbelow built. unfold Page.prepareDom, mbind, M_bind, gets. fold built.
  destruct (Page.appendStyle (aget "style" built) doc) as [styled|e] eqn:Hstyle;
    [|done].
  destruct (appendStyle_returns _ _ _ Hstyle) as (Hl & Hq & _).
  rewrite addAll_run by (unfold closures_below; by rewrite Hl).
  by rewrite Hl, (bindings_query built doc _ Hq).
Qed.

(** [makeDom], step by step: the data step, the call of the parser,
    [prepareDom], and, unless [appendStyle] has thrown, [afterReady]. *)
Lemma makeDom_run host cfg response w :
  let built := defaults_shallow cfg (page_defaults w) in
  let payload := payload_of response in
  Page.makeDom host cfg response w =
    match prepared_document host built payload (next_ref w) with
    | Returns prepared =>
        ((Returns (set_page (Some built) prepared), built),
         with_next_ref
           (next_ref w +
            length (bindings built
                      (Parser_dom host (aget "template" built)
                         (data_of host built payload))))
           (with_trace
              (trace w ++ data_events built payload ++ template_events built ++
               afterReady_events built prepared)
              w))
    | Throws e =>
        ((Throws e, built),
         with_trace (trace w ++ data_events built payload ++ template_events built) w)
    end.
Proof.
  intros built payload. unfold Page.makeDom.
  unfold mbind at 1, M_bind at 1, gets at 1. fold (payload_of response).
  fold built payload.
  unfold mbind at 1, M_bind at 1. rewrite data_step_run.
  set (w1 := with_trace _ w).
  unfold mbind at 1, M_bind at 1. rewrite render_run.
  set (w2 := with_trace _ w1).
  set (parsed := Parser_dom host (aget "template" built) (data_of host built payload)).
  unfold mbind at 1, M_bind at 1.
  rewrite (prepareDom_run parsed built w2) by constructor.
  change (page_defaults w2) with (page_defaults w).
  assert (defaults_shallow built (page_defaults w) = built) as Hidem
    by apply defaults_shallow_idempotent.
  rewrite !Hidem. unfold prepared_document. fold parsed.
  destruct (Page.appendStyle (aget "style" built) parsed) as [styled|e].
  - cbn [default from_option listeners parsed Parser_dom app List.filter existsb negb].
    change (List.filter _ default_listeners) with default_listeners.
    change (next_ref w2) with (next_ref w). unfold id.
    unfold afterReady_events. subst w2 w1.
    set (de := data_events built payload). set (te := template_events built).
    clearbody de te.
    destruct (aget "afterReady" built) as [| | | | |[| |f] ?];
      unfold mbind, M_bind; simpl;
      rewrite ?app_nil_r, <- ?app_assoc; done.
  - subst w2 w1. simpl. by rewrite <- app_assoc.
Qed.

(** X8. A configuration with an [afterReady] function.  Where [appendStyle]
    returns, [makeDom] calls [afterReady] once, after the data step and the
    call of the template, with the document that has its style, the default
    handlers and the listeners of the events map, but whose [page] property
    is not set yet; the document that [makeDom] returns is this one with the
    completed configuration as its [page].  Where [appendStyle] throws, on
    a document without [head] and without [document] element, [makeDom]
    throws, and [afterReady] is not called. *)
Theorem afterReady_receives_the_prepared_document host cfg response w f ps :
  aget "afterReady" cfg = VObj (Function f) ps →
  let built := defaults_shallow cfg (page_defaults w) in
  let payload := payload_of response in
  let result := Page.makeDom host cfg response w in
  match prepared_document host built payload (next_ref w) with
  | Returns d =>
      trace result.2 =
        trace w ++ data_events built payload ++ template_events built ++
        [AfterReadyCalled f d] ∧
      page d = None ∧
      firstn 3 (listeners d) = default_listeners ∧
      result.1 = (Returns (set_page (Some built) d), built)
  | Throws e =>
      trace result.2 = trace w ++ data_events built payload ++ template_events built ∧
      result.1 = (Throws e, built)
  end.
Proof.
  intros Hafter built payload result. subst result.
  rewrite makeDom_run. fold built payload.
  assert (aget "afterReady" built = VObj (Function f) ps) as Hbuilt.
  { unfold built. rewrite defaults_shallow_keeps; by rewrite Hafter. }
  destruct (prepared_document host built payload (next_ref w)) as [d|e] eqn:Hd;
    [|done].
  cbn [fst snd]. unfold afterReady_events. rewrite Hbuilt.
  split; [by destruct w|]. unfold prepared_document in Hd.
  destruct (Page.appendStyle _ _) as [styled|e] eqn:Hstyle; [|done].
  injection Hd as <-.
  destruct (appendStyle_returns _ _ _ Hstyle) as (_ & _ & Hpage & _).
  split; [simpl; by rewrite Hpage|]. done.
Qed.

(** X8, at [{template: "<document></document>", afterReady: fn}] with the
    defaults of the module. *)
Lemma afterReady_witness :
  let cfg := [("template", VStr "<document></document>");
              ("afterReady", VFun (FnUser 4))] in
  let result := Page.makeDom example_host cfg VUndefined (initial_world example_host) in
  ∃ d doc, trace result.2 =
             [DataCalled FnDefaultData (VObj Array []); AfterReadyCalled (FnUser 4) d] ∧
           page d = None ∧ head d = Some "<style></style>" ∧
           result.1.1 = Returns doc ∧ page doc = Some result.1.2.
Proof.
  intros cfg result.
  pose proof (afterReady_receives_the_prepared_document example_host cfg VUndefined
                (initial_world example_host) (FnUser 4) [] eq_refl) as Hwitness.
  cbv zeta in Hwitness.
  destruct (prepared_document example_host _ _ _) as [d|e] eqn:Hd; [|discriminate Hd].
  destruct Hwitness as (Htrace & Hpage & _ & Hresult).
  exists d. eexists. split; [exact Htrace|]. split; [exact Hpage|].
  split; [by injection Hd as <-|].
  subst result. rewrite Hresult. done.
Defined.

(** X9. The style of a document.  After [setOptions({style: s})], the
    style of a configuration is its own [style] or, where that is
    [undefined], [s].  Where it is a string, the document that [makeDom]
    returns carries it in the [style] element of its head, provided that
    the parsed document has a [head] or a [document] element; where it has
    neither, [makeDom] throws a [TypeError].  With a [style] that is not a
    string, [null] included, no style is set and the head stays as the
    parser made it. *)
Theorem style_of_a_document host cfg response s w :
  let w' := exec (Page.setOptions [("style", VStr s)]) w in
  let built := defaults_shallow cfg (page_defaults w') in
  let parsed :=
    Parser_dom host (aget "template" built)
      (data_of host built (payload_of response)) in
  let style := match aget "style" cfg with VUndefined => VStr s | own => own end in
  let result := (Page.makeDom host cfg response w').1.1 in
  match style with
  | VStr x =>
      if bool_decide (is_Some (head parsed)) || docEl parsed
      then ∃ doc, result = Returns doc ∧
                  head doc = Some ("<style>" ++ x ++ "</style>")%string
      else result = Throws DomTypeError
  | _ => ∃ doc, result = Returns doc ∧ head doc = head parsed
  end.
Proof.
  intros w' built parsed style result. subst result.
  rewrite makeDom_run. fold built.
  assert (aget "style" (page_defaults w') = VStr s) as Hdefault.
  { unfold w', Page.setOptions, exec, modify. simpl. by rewrite aget_aset_eq. }
  assert (aget "style" built = style) as Hstyle.
  { unfold built, style. destruct (aget "style" cfg) eqn:Hown;
      try (rewrite defaults_shallow_keeps; by rewrite Hown).
    by apply defaults_shallow_fills. }
  unfold prepared_document. fold parsed. rewrite Hstyle.
  unfold Page.appendStyle.
  destruct style as [| | | |x|]; try (by eexists).
  destruct (bool_decide (is_Some (head parsed)) || docEl parsed); [|done].
  by eexists.
Qed.

(** ** A successful request *)

(** X10. A configuration without a [ready] function and with a [url], whose
    request is answered with a status from 200 to 300: [makeDom] is called
    with the response of the request ([[]] when it has none).  Where it
    returns, the promise of the invocation is fulfilled with its document;
    where it throws, which it does when the parsed document has neither a
    [head] nor a [document] element, the promise stays pending.  The
    request is the only thing that precedes the data step, and [onError] is
    not called. *)
Theorem transport_success host cfg options w x :
  let merged := defaultsDeep cfg (page_defaults w) in
  let request := Ajax_get (aget "url" merged) (aget "options" merged) in
  let final := Page.run host cfg options w in
  let payload := payload_of (response x) in
  isFunction (aget "ready" merged) = false →
  truthy (aget "url" merged) = true →
  Page.ajax_promise host request = Fulfilled x →
  inv_cfg final.1 = merged ∧
  match prepared_document host merged payload (next_ref w) with
  | Returns d =>
      inv_promise final.1 = Fulfilled (Some (set_page (Some merged) d)) ∧
      trace final.2 =
        trace w ++ sent request ++ data_events merged payload ++
        template_events merged ++ afterReady_events merged d
  | Throws e =>
      inv_promise final.1 = Pending ∧
      trace final.2 =
        trace w ++ sent request ++ data_events merged payload ++
        template_events merged
  end.
Proof.
  intros merged request final payload Hready Hurl Hdone. subst final.
  unfold Page.run. unfold mbind, M_bind.
  rewrite (invoke_url host cfg options w Hready Hurl). fold merged request.
  unfold Page.later. cbn [inv_waiting]. rewrite Hdone.
  unfold Page.transport_done. cbn [inv_cfg]. unfold mbind, M_bind.
  rewrite makeDom_run. rewrite advance_page_defaults, advance_next_ref.
  assert (defaults_shallow merged (page_defaults w) = merged) as Hidem
    by apply defaults_shallow_defaultsDeep.
  rewrite !Hidem. fold payload.
  destruct (prepared_document host merged payload (next_ref w)) as [d|e];
    cbn [fst snd inv_promise inv_cfg resolve mret M_ret];
    (split; [done|]); (split; [done|]);
    rewrite advance_trace; destruct w; simpl; by rewrite <- !app_assoc.
Qed.

(** X10, at [{url: "/x", template: "<document></document>"}] and at
    [{url: "/x"}], whose template is the default one, with a request
    answered by the status 200. *)
Lemma transport_success_witness :
  let w := initial_world serving_host in
  let run cfg := Page.run serving_host cfg VUndefined w in
  (∃ doc, inv_promise
            (run [("url", VStr "/x"); ("template", VStr "<document></document>")]).1 =
          Fulfilled (Some doc) ∧ head doc = Some "<style></style>") ∧
  inv_promise (run [("url", VStr "/x")]).1 = Pending ∧
  trace (run [("url", VStr "/x")]).2 =
    [AjaxSent {| req_method := VStr "GET"; req_url := VStr "/x";
                 req_options := [("responseType", VStr "json")] |};
     DataCalled FnDefaultData (VObj Plain [("ok", VBool true)]);
     Warn "No template exists!"].
Proof.
  intros w run.
  destruct (transport_success serving_host
              [("url", VStr "/x"); ("template", VStr "<document></document>")]
              VUndefined w
              {| status := 200; response := VObj Plain [("ok", VBool true)] |}
              eq_refl eq_refl eq_refl) as (_ & Hbuilt).
  destruct (transport_success serving_host [("url", VStr "/x")] VUndefined w
              {| status := 200; response := VObj Plain [("ok", VBool true)] |}
              eq_refl eq_refl eq_refl) as (_ & Hthrown).
  split.
  - eexists. split; [exact (proj1 Hbuilt)|reflexivity].
  - split; [exact (proj1 Hthrown)|exact (proj2 Hthrown)].
Defined.

(** ** The continuation calls of [ready] *)

Lemma prepared_document_stylable host cfg response n :
  stylable host cfg response = true →
  ∃ d, prepared_document host cfg (payload_of response) n = Returns d.
Proof.
  unfold stylable, prepared_document.
  destruct (Page.appendStyle _ _) as [styled|e]; [by eexists|done].
Qed.

Lemma afterReady_calls_app tr1 tr2 :
  afterReady_calls (tr1 ++ tr2) = afterReady_calls tr1 + afterReady_calls tr2.
Proof. unfold afterReady_calls. by rewrite List.filter_app, length_app. Qed.

Lemma afterReady_calls_data cfg response :
  afterReady_calls (data_events cfg response) = 0.
Proof.
  unfold data_events. destruct (aget "data" cfg) as [| | | | |[| |[]] ?]; done.
Qed.

Lemma afterReady_calls_template cfg :
  afterReady_calls (template_events cfg) = 0.
Proof.
  unfold template_events. destruct (aget "template" cfg) as [| | | | |[| |[]] ?]; done.
Qed.

(** One call of the [resolve] continuation that builds. *)
Lemma resolve_ready_run host object response i w :
  let merged := defaultsDeep object (page_defaults w) in
  let payload := payload_of response in
  inv_cfg i = merged →
  truthy response || isUndefined response = true →
  Page.resolve_ready host response i w =
    match prepared_document host merged payload (next_ref w) with
    | Returns d =>
        ((None,
          {| inv_cfg := merged;
             inv_promise := resolve (Some (set_page (Some merged) d)) (inv_promise i);
             inv_waiting := inv_waiting i |}),
         with_next_ref
           (next_ref w +
            length (bindings merged
                      (Parser_dom host (aget "template" merged)
                         (data_of host merged payload))))
           (with_trace
              (trace w ++ data_events merged payload ++ template_events merged ++
               afterReady_events merged d)
              w))
    | Throws e =>
        ((Some e,
          {| inv_cfg := merged; inv_promise := inv_promise i;
             inv_waiting := inv_waiting i |}),
         with_trace (trace w ++ data_events merged payload ++ template_events merged) w)
    end.
Proof.
  intros merged payload Hcfg Hbuilds. unfold Page.resolve_ready. rewrite Hbuilds.
  unfold mbind, M_bind. rewrite makeDom_run, Hcfg.
  assert (defaults_shallow merged (page_defaults w) = merged) as Hidem
    by apply defaults_shallow_defaultsDeep.
  rewrite !Hidem. fold payload.
  by destruct (prepared_document host merged payload (next_ref w)).
Qed.

(** A continuation call leaves a settled promise as it is. *)
Lemma continue_settled host c i w :
  inv_promise i ≠ Pending →
  inv_promise (Page.continue host c i w).1.2 = inv_promise i.
Proof.
  intros Hp. destruct c as [response|reason]; simpl.
  - unfold Page.resolve_ready. destruct (_ || _).
    + unfold mbind, M_bind.
      destruct (Page.makeDom _ _ _ w) as [[[doc|e] cfg] w']; simpl;
        by destruct (inv_promise i).
    + simpl. by destruct (inv_promise i).
  - by destruct (inv_promise i).
Qed.

Lemma continuations_settled host calls : ∀ i w,
  inv_promise i ≠ Pending →
  inv_promise (Page.continuations host calls i w).1.2 = inv_promise i.
Proof.
  induction calls as [|c calls IH]; intros i w Hp; [done|].
  simpl. unfold mbind, M_bind.
  pose proof (continue_settled host c i w Hp) as Hc.
  destruct (Page.continue host c i w) as [[[e|] i'] w']; simpl in *; [done|].
  rewrite IH; [done|]. by rewrite Hc.
Qed.

(** What [reject] does to a settled promise. *)
Lemma reject_settled {A E} (e : E) (p : promise A E) : p ≠ Pending → reject e p = p.
Proof. by destruct p. Qed.

(** The promise after the continuation calls of [ready], by the first call. *)
Lemma continuations_first host object c calls i w :
  let merged := defaultsDeep object (page_defaults w) in
  inv_cfg i = merged → inv_promise i = Pending →
  let r := Page.continuations host (c :: calls) i w in
  match c with
  | CallResolve response =>
      if truthy response || isUndefined response then
        match prepared_document host merged (payload_of response) (next_ref w) with
        | Returns d =>
            inv_promise r.1.2 = Fulfilled (Some (set_page (Some merged) d))
        | Throws e => r.1.1 = Some e ∧ inv_promise r.1.2 = Pending
        end
      else inv_promise r.1.2 = Fulfilled None
  | CallReject reason => inv_promise r.1.2 = Rejected (Reason reason)
  end.
Proof.
  intros merged Hcfg Hp r. subst r. cbn [Page.continuations].
  unfold mbind, M_bind.
  destruct c as [response|reason]; cbn [Page.continue].
  - destruct (truthy response || isUndefined response) eqn:Hbuilds.
    + rewrite (resolve_ready_run host object response i w Hcfg Hbuilds).
      fold merged.
      destruct (prepared_document host merged (payload_of response) (next_ref w))
        as [d|e].
      * rewrite continuations_settled; cbn [inv_promise]; by rewrite Hp.
      * simpl. done.
    + unfold Page.resolve_ready. rewrite Hbuilds. cbn [mret M_ret].
      rewrite continuations_settled; cbn [inv_promise]; by rewrite Hp.
  - cbn [mret M_ret]. rewrite continuations_settled; cbn [inv_promise]; by rewrite Hp.
Qed.

Lemma ready_continuations_settled host merged now later w :
  let r := Page.continuations host now
             {| inv_cfg := merged; inv_promise := Pending; inv_waiting := Nothing |} w in
  inv_promise r.1.2 ≠ Pending →
  inv_promise (ready_continuations host merged now later w).1 = inv_promise r.1.2.
Proof.
  intros r Hp. subst r. unfold ready_continuations, mbind, M_bind.
  destruct (Page.continuations host now _ w) as [[[e|] i] w']; cbn [fst snd] in *.
  - cbn [mret M_ret fst inv_promise]. by apply reject_settled.
  - pose proof (continuations_settled host later
                  {| inv_cfg := inv_cfg i; inv_promise := inv_promise i;
                     inv_waiting := Continuations later |} w' Hp) as Hl.
    by destruct (Page.continuations host later _ w') as [[thrown' i'] w''].
Qed.

Lemma ready_continuations_thrown host merged now later w e :
  let r := Page.continuations host now
             {| inv_cfg := merged; inv_promise := Pending; inv_waiting := Nothing |} w in
  r.1.1 = Some e →
  inv_promise (ready_continuations host merged now later w).1 =
    reject e (inv_promise r.1.2).
Proof.
  intros r He. subst r. unfold ready_continuations, mbind, M_bind.
  destruct (Page.continuations host now _ w) as [[thrown i] w']; cbn [fst snd] in *.
  by subst thrown.
Qed.

Lemma ready_continuations_later host merged later w :
  inv_promise (ready_continuations host merged [] later w).1 =
    inv_promise
      (Page.continuations host later
         {| inv_cfg := merged; inv_promise := Pending;
            inv_waiting := Continuations later |} w).1.2.
Proof.
  unfold ready_continuations, mbind, M_bind. cbn [Page.continuations mret M_ret].
  cbn [inv_cfg inv_promise].
  by destruct (Page.continuations host later _ w) as [[thrown i] w'].
Qed.

(** X22. A configuration whose [ready] is a function: the factory calls
    [ready] with the options of the call, and the first continuation that
    [ready] calls decides the promise.  [resolve] with a truthy value or
    with [undefined] makes [makeDom] build a document from that value:
    where [makeDom] returns, the promise is fulfilled with its document,
    which is the parsed one with its style, the default handlers, the
    listeners of the events map and the configuration as its [page]; where
    it throws while [ready] is running, the promise is rejected with the
    [TypeError].  [resolve] with another falsy value fulfils the promise
    with [null]; [reject] rejects it with the value passed. *)
Theorem ready_decides_the_promise host cfg options w f ps now later :
  aget "ready" cfg = VObj (Function f) ps →
  Page.ready_of host f options = (now, later) →
  let merged := defaultsDeep cfg (page_defaults w) in
  let final := Page.run host cfg options w in
  (∃ evs, Forall dom_event evs ∧
          trace final.2 = trace w ++ ReadyCalled f options :: evs) ∧
  match now ++ later with
  | [] => inv_promise final.1 = Pending
  | CallResolve response :: _ =>
      if truthy response || isUndefined response then
        match built_document host merged (payload_of response) (next_ref w) with
        | Returns doc => inv_promise final.1 = Fulfilled (Some doc)
        | Throws e => now ≠ [] → inv_promise final.1 = Rejected e
        end
      else inv_promise final.1 = Fulfilled None
  | CallReject reason :: _ => inv_promise final.1 = Rejected (Reason reason)
  end.
Proof.
  intros Hready Hcalls merged final.
  destruct (defaultsDeep_keeps_function "ready" f ps cfg (page_defaults w) Hready)
    as [ps' Hmerged].
  subst final. rewrite (run_ready host cfg options w f ps' Hmerged), Hcalls.
  cbn [fst snd]. fold merged.
  set (called := exec (emit (ReadyCalled f options)) w).
  split.
  { destruct (emits_exec _ _ called (ready_continuations_emits host merged now later))
      as (evs & Hevs & Htrace & _).
    exists evs. split; [done|]. unfold exec in Htrace. rewrite Htrace.
    unfold called. rewrite exec_emit, advance_trace. by rewrite <- app_assoc. }
  assert (page_defaults called = page_defaults w) as Hpd by done.
  assert (next_ref called = next_ref w) as Hn by done.
  unfold built_document.
  destruct now as [|c now]; cbn [app].
  - rewrite ready_continuations_later.
    destruct later as [|c later]; [done|].
    pose proof (continuations_first host cfg c later
                  {| inv_cfg := merged; inv_promise := Pending;
                     inv_waiting := Continuations (c :: later) |} called) as Hfirst.
    cbv zeta in Hfirst. rewrite Hpd, Hn in Hfirst. fold merged in Hfirst.
    specialize (Hfirst eq_refl eq_refl).
    destruct c as [response|reason]; [|done].
    destruct (truthy response || isUndefined response); [|done].
    by destruct (prepared_document host merged (payload_of response) (next_ref w)).
  - pose proof (continuations_first host cfg c now
                  {| inv_cfg := merged; inv_promise := Pending;
                     inv_waiting := Nothing |} called) as Hfirst.
    cbv zeta in Hfirst. rewrite Hpd, Hn in Hfirst. fold merged in Hfirst.
    specialize (Hfirst eq_refl eq_refl).
    destruct c as [response|reason].
    + destruct (truthy response || isUndefined response).
      * destruct (prepared_document host merged (payload_of response) (next_ref w))
          as [d|e].
        -- rewrite ready_continuations_settled; by rewrite Hfirst.
        -- intros _. destruct Hfirst as [He Hp].
           by rewrite (ready_continuations_thrown _ _ _ _ _ e He), Hp.
      * rewrite ready_continuations_settled; by rewrite Hfirst.
    + rewrite ready_continuations_settled; by rewrite Hfirst.
Qed.

(** X22, at a [ready] that calls [resolve(undefined)], with a template and
    with the default one, at one that calls [resolve(null)], and at one that
    calls [reject("x")]. *)
Lemma ready_decides_witness :
  let w := initial_world example_host in
  let promise_of cfg := inv_promise (Page.run example_host cfg VUndefined w).1 in
  (∃ doc, promise_of resolving_cfg = Fulfilled (Some doc) ∧
          source doc = Parsed (VStr "<document></document>") (VObj Array []) ∧
          head doc = Some "<style></style>" ∧ length (listeners doc) = 3) ∧
  promise_of [("ready", VFun (FnUser 2))] = Rejected DomTypeError ∧
  promise_of [("ready", VFun (FnUser 0))] = Fulfilled None ∧
  promise_of [("ready", VFun (FnUser 1))] = Rejected (Reason (VStr "x")).
Proof.
  intros w promise_of.
  pose proof (proj2 (ready_decides_the_promise example_host resolving_cfg VUndefined w
                       (FnUser 2) [] [CallResolve VUndefined] [] eq_refl eq_refl))
    as Hbuilt.
  pose proof (proj2 (ready_decides_the_promise example_host
                       [("ready", VFun (FnUser 2))] VUndefined w
                       (FnUser 2) [] [CallResolve VUndefined] [] eq_refl eq_refl))
    as Hthrown.
  pose proof (proj2 (ready_decides_the_promise example_host
                       [("ready", VFun (FnUser 0))] VUndefined w
                       (FnUser 0) [] [CallResolve VNull] [] eq_refl eq_refl))
    as Hnull.
  pose proof (proj2 (ready_decides_the_promise example_host
                       [("ready", VFun (FnUser 1))] VUndefined w
                       (FnUser 1) [] [] [CallReject (VStr "x")] eq_refl eq_refl))
    as Hreject.
  split; [|split; [|split]].
  - eexists. split; [exact Hbuilt|]. repeat split.
  - apply Hthrown. discriminate.
  - exact Hnull.
  - exact Hreject.
Defined.

(** X11. A page with a [ready] and an [afterReady] function, where
    [appendStyle] returns for every response that [ready] resolves with:
    every call of [resolve] with a response that is truthy or [undefined]
    builds a document and calls [afterReady], those after the first one as
    well, although the promise keeps the document of the first call. *)
Theorem every_resolve_builds host cfg options w ready ps g qs now later :
  let merged := defaultsDeep cfg (page_defaults w) in
  aget "ready" merged = VObj (Function ready) ps →
  aget "afterReady" merged = VObj (Function g) qs →
  Page.ready_of host ready options = (now, later) →
  Forall (λ c, match c with
               | CallResolve response => stylable host merged response = true
               | CallReject _ => True
               end) (List.filter builds (now ++ later)) →
  let final := Page.run host cfg options w in
  afterReady_calls (trace final.2) =
    afterReady_calls (trace w) + length (List.filter builds (now ++ later)).
Proof.
  intros merged Hready Hafter Hcalls Hstylable final. subst final.
  assert (∀ calls i w1,
            page_defaults w1 = page_defaults w → inv_cfg i = merged →
            Forall (λ c, match c with
                         | CallResolve response => stylable host merged response = true
                         | CallReject _ => True
                         end) (List.filter builds calls) →
            let r := Page.continuations host calls i w1 in
            r.1.1 = None ∧ inv_cfg r.1.2 = merged ∧
            page_defaults r.2 = page_defaults w ∧
            afterReady_calls (trace r.2) =
              afterReady_calls (trace w1) + length (List.filter builds calls))
    as Hcont.
  { induction calls as [|c calls IH]; intros i w1 Hpd Hcfg Hok r; subst r.
    - simpl. split; [done|split; [done|split; [done|lia]]].
    - cbn [Page.continuations]. unfold mbind, M_bind.
      cbn [List.filter] in *.
      destruct c as [response|reason]; cbn [builds Page.continue] in *.
      + destruct (truthy response || isUndefined response) eqn:Hbuilds.
        * apply Forall_cons in Hok as [Hs Hok].
          unfold merged in Hcfg. rewrite <- Hpd in Hcfg.
          rewrite (resolve_ready_run host cfg response i w1 Hcfg Hbuilds).
          rewrite Hpd. fold merged.
          destruct (prepared_document_stylable host merged response (next_ref w1) Hs)
            as [d ->].
          destruct (IH {| inv_cfg := merged;
                          inv_promise :=
                            resolve (Some (set_page (Some merged) d)) (inv_promise i);
                          inv_waiting := inv_waiting i |}
                       (with_next_ref
                          (next_ref w1 +
                           length (bindings merged
                                     (Parser_dom host (aget "template" merged)
                                        (data_of host merged (payload_of response)))))
                          (with_trace
                             (trace w1 ++ data_events merged (payload_of response) ++
                              template_events merged ++ afterReady_events merged d)
                             w1)))
            as (Hnone & Hcfg' & Hpd' & Hcount); [by destruct w1|done|done|].
          split; [done|]. split; [done|]. split; [done|]. rewrite Hcount.
          cbn [trace with_next_ref with_trace].
          rewrite !afterReady_calls_app, afterReady_calls_data,
            afterReady_calls_template.
          unfold afterReady_events. rewrite Hafter.
          change (afterReady_calls [AfterReadyCalled g d]) with 1. simpl. lia.
        * unfold Page.resolve_ready. rewrite Hbuilds. cbn [mret M_ret].
          destruct (IH {| inv_cfg := inv_cfg i;
                          inv_promise := resolve None (inv_promise i);
                          inv_waiting := inv_waiting i |} w1)
            as (Hnone & Hcfg' & Hpd' & Hcount); done.
      + cbn [mret M_ret].
        destruct (IH {| inv_cfg := inv_cfg i;
                        inv_promise := reject (Reason reason) (inv_promise i);
                        inv_waiting := inv_waiting i |} w1)
          as (Hnone & Hcfg' & Hpd' & Hcount); done. }
  rewrite (run_ready host cfg options w ready ps Hready). rewrite Hcalls. cbn [fst snd].
  fold merged. unfold ready_continuations, mbind, M_bind.
  set (w1 := exec (emit (ReadyCalled ready options)) w).
  assert (afterReady_calls (trace w1) = afterReady_calls (trace w)) as Hw1.
  { unfold w1, exec, emit, modify. simpl. rewrite afterReady_calls_app.
    unfold afterReady_calls. simpl. lia. }
  rewrite List.filter_app in Hstylable. apply Forall_app in Hstylable as [Hnow Hlater].
  destruct (Hcont now
              {| inv_cfg := merged; inv_promise := Pending; inv_waiting := Nothing |}
              w1 eq_refl eq_refl Hnow) as (Hnone1 & Hcfg1 & Hpd1 & Hcount1).
  destruct (Page.continuations host now _ w1) as [[thrown1 i1] w2].
  cbn [fst snd] in *. subst thrown1.
  destruct (Hcont later
              {| inv_cfg := inv_cfg i1; inv_promise := inv_promise i1;
                 inv_waiting := Continuations later |} w2 Hpd1 Hcfg1 Hlater)
    as (_ & _ & _ & Hcount2).
  destruct (Page.continuations host later _ w2) as [[thrown2 i2] w3].
  cbn [mret M_ret fst snd] in *.
  rewrite Hcount2, Hcount1, Hw1, List.filter_app, length_app. lia.
Qed.

(** X11, at [{ready: fn, afterReady: fn, template: "<document></document>"}]
    with three calls of [resolve], two of which build. *)
Lemma every_resolve_builds_witness :
  let final := Page.run eager_host eager_cfg VUndefined (initial_world eager_host) in
  afterReady_calls (trace final.2) = 2.
Proof.
  intros final.
  apply (every_resolve_builds eager_host eager_cfg VUndefined (initial_world eager_host)
           (FnUser 3) [] (FnUser 4) []
           [CallResolve VUndefined; CallResolve (VStr "again")] [CallResolve VNull]
           eq_refl eq_refl eq_refl).
  repeat constructor.
Defined.

(** ** The three ways of an invocation *)

(** The factory without a [ready] function and without a [url], up to its
    return. *)
Lemma invoke_immediate host cfg options w :
  let merged := defaultsDeep cfg (page_defaults w) in
  isFunction (aget "ready" merged) = false →
  truthy (aget "url" merged) = false →
  Page.invoke host cfg options w =
    match prepared_document host merged (VObj Array []) (next_ref w) with
    | Returns d =>
        ({| inv_cfg := merged;
            inv_promise := Fulfilled (Some (set_page (Some merged) d));
            inv_waiting := Nothing |},
         with_next_ref
           (next_ref w +
            length (bindings merged
                      (Parser_dom host (aget "template" merged)
                         (data_of host merged (VObj Array [])))))
           (with_trace
              (trace w ++ data_events merged (VObj Array []) ++
               template_events merged ++ afterReady_events merged d)
              w))
    | Throws e =>
        ({| inv_cfg := merged; inv_promise := Rejected e; inv_waiting := Nothing |},
         with_trace
           (trace w ++ data_events merged (VObj Array []) ++ template_events merged)
           w)
    end.
Proof.
  intros merged Hready Hurl. unfold Page.invoke.
  unfold mbind at 1, M_bind at 1, gets at 1. fold merged. rewrite Hurl.
  assert (defaults_shallow merged (page_defaults w) = merged) as Hidem
    by apply defaults_shallow_defaultsDeep.
  destruct (aget "ready" merged) as [| | | | |[| |f] ?]; try done;
    unfold mbind, M_bind; rewrite makeDom_run, !Hidem;
    change (payload_of VUndefined) with (VObj Array []);
    by destruct (prepared_document host merged (VObj Array []) (next_ref w)).
Qed.

(** X23. An invocation of a page factory follows one of three ways, which
    the configuration decides after the merge of the defaults.  When
    [ready] is a function, the factory calls it and does what its
    continuation calls say; it sends no request, whatever [url] is.
    Otherwise, when [url] is truthy, the factory calls [Ajax.get] and
    returns a pending promise, without a call of [ready].  Otherwise
    [makeDom] is called with the empty array in place of a response, and
    the promise is settled when the factory returns: fulfilled with the
    document that [makeDom] builds from the template and the data of the
    configuration, or rejected with what [makeDom] throws; nothing is left
    to happen, [ready] is not called and no request is sent. *)
Theorem one_resolution_strategy host cfg options w :
  let merged := defaultsDeep cfg (page_defaults w) in
  let returned := Page.invoke host cfg options w in
  let final := Page.run host cfg options w in
  match aget "ready" merged with
  | VObj (Function ready) _ =>
      final =
        ready_continuations host merged
          (Page.ready_of host ready options).1 (Page.ready_of host ready options).2
          (exec (emit (ReadyCalled ready options)) w) ∧
      ∃ evs, Forall dom_event evs ∧
             trace final.2 = trace w ++ ReadyCalled ready options :: evs
  | _ =>
      if truthy (aget "url" merged) then
        let request := Ajax_get (aget "url" merged) (aget "options" merged) in
        inv_promise returned.1 = Pending ∧
        inv_waiting returned.1 = Transport request ∧
        trace returned.2 = trace w ++ sent request
      else
        final = returned ∧
        inv_cfg returned.1 = merged ∧
        inv_waiting returned.1 = Nothing ∧
        match prepared_document host merged (VObj Array []) (next_ref w) with
        | Returns d =>
            inv_promise returned.1 = Fulfilled (Some (set_page (Some merged) d)) ∧
            trace returned.2 =
              trace w ++ data_events merged (VObj Array []) ++
              template_events merged ++ afterReady_events merged d
        | Throws e =>
            inv_promise returned.1 = Rejected e ∧
            trace returned.2 =
              trace w ++ data_events merged (VObj Array []) ++ template_events merged
        end
  end.
Proof.
  intros merged returned final.
  assert (isFunction (aget "ready" merged) = false →
    if truthy (aget "url" merged) then
      let request := Ajax_get (aget "url" merged) (aget "options" merged) in
      inv_promise returned.1 = Pending ∧
      inv_waiting returned.1 = Transport request ∧
      trace returned.2 = trace w ++ sent request
    else
      final = returned ∧
      inv_cfg returned.1 = merged ∧
      inv_waiting returned.1 = Nothing ∧
      match prepared_document host merged (VObj Array []) (next_ref w) with
      | Returns d =>
          inv_promise returned.1 = Fulfilled (Some (set_page (Some merged) d)) ∧
          trace returned.2 =
            trace w ++ data_events merged (VObj Array []) ++
            template_events merged ++ afterReady_events merged d
      | Throws e =>
          inv_promise returned.1 = Rejected e ∧
          trace returned.2 =
            trace w ++ data_events merged (VObj Array []) ++ template_events merged
      end) as Hother.
  { intros Hready. destruct (truthy (aget "url" merged)) eqn:Hurl.
    - subst returned. rewrite (invoke_url host cfg options w Hready Hurl).
      cbn [fst snd inv_promise inv_waiting]. by rewrite advance_trace.
    - subst final. unfold Page.run, mbind, M_bind. fold returned. subst returned.
      rewrite (invoke_immediate host cfg options w Hready Hurl). fold merged.
      destruct (prepared_document host merged (VObj Array []) (next_ref w)) as [d|e];
        cbn [fst snd inv_cfg inv_promise inv_waiting Page.later mret M_ret];
        repeat split; by destruct w. }
  destruct (aget "ready" merged) as [| | | | |[| |f] ps] eqn:Hready;
    try (by apply Hother).
  clear Hother. subst final.
  rewrite (run_ready host cfg options w f ps Hready). fold merged.
  split; [done|].
  destruct (emits_exec _ _ (exec (emit (ReadyCalled f options)) w)
              (ready_continuations_emits host merged
                 (Page.ready_of host f options).1 (Page.ready_of host f options).2))
    as (evs & Hevs & Htrace & _).
  exists evs. split; [done|]. unfold exec in Htrace at 1. rewrite Htrace.
  rewrite exec_emit, advance_trace. by rewrite <- app_assoc.
Qed.

(** ** The default template *)

(** C1.  The factory of [{ready: fn}], where [fn] calls [resolve(undefined)]
    before it returns, on the defaults of the module.  [makeDom] calls the
    data function and the default template, which warns and returns the
    empty string; the parsed document has neither a [head] nor a [document]
    element, so that [appendStyle] throws, [afterReady] would not be called,
    and the promise is rejected with the [TypeError] instead of being
    fulfilled with a document.  With a template that has a [document]
    element the same call of [resolve] fulfils the promise with the built
    document; [resolve(null)] fulfils it with [null], and [reject("x")]
    rejects it with ["x"]. *)
Theorem ready_resolve_with_the_default_template :
  let w := initial_world example_host in
  let run cfg := Page.run example_host cfg VUndefined w in
  inv_promise (run [("ready", VFun (FnUser 2))]).1 = Rejected DomTypeError ∧
  trace (run [("ready", VFun (FnUser 2))]).2 =
    [ReadyCalled (FnUser 2) VUndefined; DataCalled FnDefaultData (VObj Array []);
     Warn "No template exists!"] ∧
  (∃ doc, inv_promise (run resolving_cfg).1 = Fulfilled (Some doc) ∧
          source doc = Parsed (VStr "<document></document>") (VObj Array []) ∧
          head doc = Some "<style></style>" ∧
          listeners doc = default_listeners ∧
          page doc = Some (inv_cfg (run resolving_cfg).1)) ∧
  trace (run resolving_cfg).2 =
    [ReadyCalled (FnUser 2) VUndefined; DataCalled FnDefaultData (VObj Array [])] ∧
  inv_promise (run [("ready", VFun (FnUser 0))]).1 = Fulfilled None ∧
  inv_promise (run [("ready", VFun (FnUser 1))]).1 = Rejected (Reason (VStr "x")).
Proof.
  intros w run. split; [reflexivity|]. split; [reflexivity|].
  split; [|repeat split].
  eexists. split; [reflexivity|]. repeat split.
Qed.

(** C6.  The three ways at small configurations.  With [ready] and [url],
    [ready] is called and no request is sent.  With [url] alone the request
    is sent, [ready] is not called, and the promise is pending when the
    factory returns.  With neither and with a template that has a
    [document] element, the promise is fulfilled at the return of the
    factory with the document built from the template and the data applied
    to [[]].  With neither and on the defaults of the module, as for [{}],
    the default template gives a document without [head] and [document]
    element: [appendStyle] throws and the promise is rejected with the
    [TypeError] instead of being fulfilled with a document. *)
Theorem strategies_with_the_default_template :
  let w := initial_world example_host in
  let returned cfg := Page.invoke example_host cfg VUndefined w in
  inv_promise (returned []).1 = Rejected DomTypeError ∧
  inv_waiting (returned []).1 = Nothing ∧
  trace (returned []).2 =
    [DataCalled FnDefaultData (VObj Array []); Warn "No template exists!"] ∧
  (∃ doc, inv_promise (returned [("template", VStr "<document></document>")]).1 =
            Fulfilled (Some doc) ∧
          source doc = Parsed (VStr "<document></document>") (VObj Array []) ∧
          head doc = Some "<style></style>" ∧
          listeners doc = default_listeners) ∧
  trace (returned [("template", VStr "<document></document>")]).2 =
    [DataCalled FnDefaultData (VObj Array [])] ∧
  trace (returned [("ready", VFun (FnUser 0)); ("url", VStr "/x")]).2 =
    [ReadyCalled (FnUser 0) VUndefined] ∧
  inv_promise (returned [("url", VStr "/x")]).1 = Pending ∧
  trace (returned [("url", VStr "/x")]).2 =
    [AjaxSent {| req_method := VStr "GET"; req_url := VStr "/x";
                 req_options := [("responseType", VStr "json")] |}].
Proof.
  intros w returned. split; [reflexivity|]. split; [reflexivity|].
  split; [reflexivity|]. split; [|repeat split].
  eexists. split; [reflexivity|]. repeat split.
Qed.

(** ** [ajax.ts]: the request *)

Lemma assign_cons {V} k (v : V) source object :
  assign object ((k, v) :: source) = assign (aset k v object) source.
Proof. done. Qed.

Lemma alookup_assign {V} k (source : list (string * V)) : ∀ object,
  NoDup (map fst source) →
  alookup k (assign object source) =
    match alookup k source with
    | Some v => Some v
    | None => alookup k object
    end.
Proof.
  induction source as [|[k' v] source IH]; intros object Hnd; [done|].
  rewrite assign_cons. simpl in Hnd. apply NoDup_cons in Hnd as [Hnotin Hnd].
  rewrite IH by done. simpl.
  destruct (decide (k = k')) as [->|Hne].
  - destruct (alookup k' source) as [v'|] eqn:Hlook.
    + exfalso. apply Hnotin. clear -Hlook.
      induction source as [|[k0 v0] source IH]; [done|]. simpl in *.
      destruct (decide (k' = k0)) as [->|?]; [left|right; auto].
    + by rewrite alookup_aset_eq.
  - destruct (alookup k source); [done|]. by rewrite alookup_aset_ne.
Qed.

Lemma aget_assign k (source object : Props) :
  NoDup (map fst source) →
  aget k (assign object source) =
    match alookup k source with
    | Some v => v
    | None => aget k object
    end.
Proof.
  intros Hnd. unfold aget. rewrite alookup_assign by done.
  by destruct (alookup k source).
Qed.

(** The request of [ajax] for a url that is a string. *)
Lemma ajax_request_run u options verb :
  NoDup (map fst (props_of options)) →
  ∃ r, ajax (VStr u) options verb = Sends r ∧
       req_url r = VStr u ∧
       req_method r =
         (if truthy (aget "method" (props_of options))
          then aget "method" (props_of options) else VStr verb) ∧
       ∀ k, aget k (req_options r) =
              match alookup k (props_of options) with
              | Some v => v
              | None => if decide (k = "responseType") then VStr "json" else VUndefined
              end.
Proof.
  intros Hnd. unfold ajax.
  replace (isUndefined options && typeof_object (VStr u)) with false
    by (by destruct (isUndefined options)).
  simpl. unfold ajax_send. eexists. split; [done|]. simpl.
  assert (∀ k, aget k (assign [("responseType", VStr "json")] (props_of options)) =
               match alookup k (props_of options) with
               | Some v => v
               | None => if decide (k = "responseType") then VStr "json" else VUndefined
               end) as Hopts.
  { intros k. rewrite aget_assign by done.
    destruct (alookup k (props_of options)); [done|].
    unfold aget. simpl. by destruct (decide (k = "responseType")). }
  split; [done|]. split; [|exact Hopts].
  rewrite Hopts. unfold aget.
  by destruct (alookup "method" (props_of options)).
Qed.

(** X12. The request of [ajax] and of its four verbs for a url that is a
    string.  An option of the caller goes into the request as it is,
    [responseType] included; [responseType] is ["json"] when the caller
    gives none; the method is the caller's [method] option when that is
    truthy, and the verb of the function that was called otherwise. *)
Theorem ajax_request u options verb call :
  NoDup (map fst (props_of options)) →
  In (verb, call)
     [("GET", Ajax_get); ("POST", Ajax_post); ("PUT", Ajax_put); ("DELETE", Ajax_del)] →
  ∃ r, call (VStr u) options = Sends r ∧
       ajax (VStr u) options verb = Sends r ∧
       req_url r = VStr u ∧
       req_method r =
         (if truthy (aget "method" (props_of options))
          then aget "method" (props_of options) else VStr verb) ∧
       ∀ k, aget k (req_options r) =
              match alookup k (props_of options) with
              | Some v => v
              | None => if decide (k = "responseType") then VStr "json" else VUndefined
              end.
Proof.
  intros Hnd Hcall.
  destruct (ajax_request_run u options verb Hnd) as (r & Hr & Hrest).
  exists r. split; [|by split].
  simpl in Hcall.
  destruct Hcall as [[= <- <-]|[[= <- <-]|[[= <- <-]|[[= <- <-]|[]]]]]; exact Hr.
Qed.

(** X12, at [Ajax.post("/movies", {method: "PATCH", responseType: "text"})]. *)
Lemma ajax_request_witness :
  ∃ r, Ajax_post (VStr "/movies")
         (VObj Plain [("method", VStr "PATCH"); ("responseType", VStr "text")]) =
       Sends r ∧
       req_method r = VStr "PATCH" ∧
       aget "responseType" (req_options r) = VStr "text".
Proof.
  destruct (ajax_request "/movies"
              (VObj Plain [("method", VStr "PATCH"); ("responseType", VStr "text")])
              "POST" Ajax_post) as (r & Hr & _ & _ & Hmethod & Hoptions).
  - by apply (bool_decide_unpack _).
  - right. by left.
  - exists r. split; [exact Hr|]. split; [exact Hmethod|]. apply Hoptions.
Defined.

(** X13. The one-argument form of [ajax].  An options object with a [url]
    that is a non-empty string does what the url and the options do in the
    two-argument form, so that the [url] is among the options of the
    request.  The check that the url is a string is made in the
    two-argument form only: an options object whose [url] is truthy and not
    a string is sent, where the two-argument form returns a rejected
    promise. *)
Theorem ajax_one_argument_form c ps verb :
  typeof_object (VObj c ps) = true →
  truthy (aget "url" ps) = true →
  (∃ r, ajax (VObj c ps) VUndefined verb = Sends r ∧ req_url r = aget "url" ps) ∧
  (isString (aget "url" ps) = true →
   ajax (VObj c ps) VUndefined verb = ajax (aget "url" ps) (VObj c ps) verb) ∧
  (isString (aget "url" ps) = false →
   ajax (aget "url" ps) (VObj c ps) verb = RejectsTypeError).
Proof.
  intros Hobj Hurl. unfold ajax at 1 2. rewrite Hobj. simpl. rewrite Hurl.
  split; [by eexists|]. split.
  - intros Hstr. unfold ajax. destruct (aget "url" ps); try done.
  - intros Hstr. unfold ajax. simpl. by rewrite Hstr.
Qed.

(** X13, at [ajax({url: "/movies"})]. *)
Lemma ajax_one_argument_witness :
  ajax (VObj Plain [("url", VStr "/movies")]) VUndefined "GET" =
    ajax (VStr "/movies") (VObj Plain [("url", VStr "/movies")]) "GET".
Proof.
  by apply (ajax_one_argument_form Plain [("url", VStr "/movies")] "GET").
Defined.

(** ** The items of the menu *)

Lemma addItem_run item w :
  Menu.addItem item w =
    if has_id item then
      (Some (next_ref w),
       with_itemsCache (<[item_id item := next_ref w]> (itemsCache w))
         (with_menuBar_children (menuBar_children w ++ [next_ref w])
            (with_elements (<[next_ref w := item_element item]> (elements w))
               (with_next_ref (S (next_ref w)) w))))
    else (None, with_trace (trace w ++ [no_id_warning]) w).
Proof.
  unfold Menu.addItem, has_id. destruct (String.eqb (item_id item) ""); [done|].
  by destruct w.
Qed.

Lemma add_items_cons item its w :
  add_items (item :: its) w = add_items its (Menu.addItem item w).2.
Proof.
  unfold add_items. simpl. unfold mbind, M_bind.
  by destruct (Menu.addItem item w) as [r w'].
Qed.

(** What [create] does to the menu bar: one element for every item with an
    id, in the order of the items, and one warning for every other item. *)
Lemma add_items_frame its : ∀ w,
  let w' := exec (add_items its) w in
  next_ref w' = next_ref w + length (List.filter has_id its) ∧
  menuBar_children w' =
    menuBar_children w ++ seq (next_ref w) (length (List.filter has_id its)) ∧
  trace w' =
    trace w ++ map (λ _, no_id_warning) (List.filter (λ i, negb (has_id i)) its) ∧
  (∀ el, el < next_ref w → elements w' !! el = elements w !! el) ∧
  (∀ id, ¬ In id (map item_id its) → itemsCache w' !! id = itemsCache w !! id).
Proof.
  induction its as [|item its IH]; intros w w'; subst w'.
  - unfold exec. simpl. rewrite Nat.add_0_r, !app_nil_r. done.
  - unfold exec. rewrite add_items_cons, addItem_run.
    cbn [List.filter]. destruct (has_id item) eqn:Hid; cbn [snd negb].
    + specialize (IH (with_itemsCache (<[item_id item := next_ref w]> (itemsCache w))
         (with_menuBar_children (menuBar_children w ++ [next_ref w])
            (with_elements (<[next_ref w := item_element item]> (elements w))
               (with_next_ref (S (next_ref w)) w))))).
      unfold exec in IH. destruct IH as (Hn & Hc & Ht & He & Hi).
      rewrite Hn, Hc, Ht. simpl. rewrite <- app_assoc. simpl.
      split; [lia|]. split; [done|]. split; [done|]. split.
      * intros el Hel. rewrite He by (simpl; lia). simpl.
        apply lookup_insert_ne. lia.
      * intros id Hnotin. rewrite Hi by (intros ?; apply Hnotin; by right). simpl.
        apply lookup_insert_ne. intros Heq. apply Hnotin. by left.
    + specialize (IH (with_trace (trace w ++ [no_id_warning]) w)).
      unfold exec in IH. destruct IH as (Hn & Hc & Ht & He & Hi).
      rewrite Hn, Hc, Ht. simpl. rewrite <- app_assoc. simpl.
      split; [done|]. split; [done|]. split; [done|]. split.
      * intros el Hel. by rewrite He.
      * intros id Hnotin. rewrite Hi by (intros ?; apply Hnotin; by right). done.
Qed.

(** Every item with an id of its own can be found by its id. *)
Lemma add_items_cache its : ∀ w item,
  NoDup (map item_id its) → In item its → has_id item = true →
  let w' := exec (add_items its) w in
  ∃ el, next_ref w ≤ el ∧ In el (menuBar_children w') ∧
        itemsCache w' !! item_id item = Some el ∧
        elements w' !! el = Some (item_element item).
Proof.
  induction its as [|item0 its IH]; intros w item Hnd Hin Hid w'; [done|].
  subst w'. simpl in Hnd. apply NoDup_cons in Hnd as [Hnotin Hnd].
  unfold exec. rewrite add_items_cons, addItem_run.
  destruct Hin as [->|Hin].
  - rewrite Hid. cbn [snd].
    set (w1 := with_itemsCache _ _).
    destruct (add_items_frame its w1) as (_ & Hc & _ & He & Hi).
    unfold exec in *. exists (next_ref w). split; [done|]. split; [|split].
    + rewrite Hc. apply in_app_iff. left. subst w1. simpl.
      apply in_app_iff. right. by left.
    + rewrite Hi by (by rewrite <- list_elem_of_In).
      subst w1. simpl. apply lookup_insert_eq.
    + rewrite He by (subst w1; simpl; lia). subst w1. simpl. apply lookup_insert_eq.
  - destruct (has_id item0); cbn [snd].
    + set (w1 := with_itemsCache _ _).
      destruct (IH w1 item Hnd Hin Hid) as (el & Hle & Hrest).
      exists el. split; [|exact Hrest]. subst w1. simpl in Hle. lia.
    + set (w1 := with_trace _ _).
      destruct (IH w1 item Hnd Hin Hid) as (el & Hle & Hrest).
      exists el. split; [|exact Hrest]. by subst w1.
Qed.

Lemma NoDup_aset {V} k (v : V) ps :
  NoDup (map fst ps) → NoDup (map fst (aset k v ps)).
Proof.
  assert (∀ ps : list (string * V), map fst (aset k v ps) = map fst ps ∨
            (¬ In k (map fst ps) ∧ map fst (aset k v ps) = map fst ps ++ [k])) as Hkeys.
  { clear ps. induction ps as [|[k' v'] ps IH]; simpl.
    - right. split; [tauto|done].
    - destruct (decide (k = k')) as [->|Hne]; simpl; [by left|].
      destruct IH as [->|[Hnotin ->]]; [by left|right].
      split; [|done]. intros [?|?]; congruence. }
  intros Hnd. destruct (Hkeys ps) as [->|[Hnotin ->]]; [done|].
  apply NoDup_app. split; [done|]. split; [|apply NoDup_singleton].
  intros x Hx ->%list_elem_of_singleton. by apply Hnotin, list_elem_of_In.
Qed.

Lemma NoDup_assign {V} (source : list (string * V)) : ∀ object,
  NoDup (map fst object) → NoDup (map fst (assign object source)).
Proof.
  induction source as [|[k v] source IH]; intros object Hnd; [done|].
  rewrite assign_cons. by apply IH, NoDup_aset.
Qed.

(** The [id] of the element is the id of the item, whatever the
    [attributes] of the item say. *)
Lemma item_element_id item :
  getAttribute "id" (item_element item) = Some (item_id item).
Proof.
  unfold getAttribute, item_element, Menu.setAttributes. simpl attributes.
  rewrite alookup_assign.
  - change (assign ?o [("id", ?v)]) with (aset "id" v o).
    by rewrite alookup_aset_eq.
  - change (assign ?o [("id", ?v)]) with (aset "id" v o).
    apply NoDup_aset, NoDup_assign. constructor.
Qed.

Lemma create_items cfg w :
  created w = false →
  let options := Menu.assign_options (menu_defaults w) cfg in
  let w1 :=
    with_menuBarTpl
      (Menu.setAttributes (menuBarTpl w) (rootTemplateAttributes options))
      (with_menuBarEl (Menu.setAttributes (menuBarEl w) (menu_attributes options))
         (with_menu_defaults options w)) in
  let w2 := exec (add_items (items options)) w1 in
  Menu.create cfg w = (Some (menu_doc w2), with_created true w2).
Proof.
  intros Hcreated options w1 w2. unfold Menu.create.
  unfold mbind at 1, M_bind at 1, gets at 1. rewrite Hcreated.
  unfold mbind, M_bind, modify, gets. cbv beta iota zeta.
  subst w2. unfold exec, add_items, mbind, M_bind.
  change (menu_defaults (with_menu_defaults ?x _)) with x. fold options.
  set (w1' := with_menuBarTpl _ (with_menuBarEl _ _)).
  assert (w1' = w1) as -> by done.
  by destruct (each _ (items options) () w1) as [[] w2].
Qed.

(** X14. After the first [create], every item of the options that has an
    id of its own, among items whose ids are distinct, is an element of the
    menu bar that the cache finds under the id of the item: a [menuItem]
    whose [id] attribute is the id of the item, whatever its [attributes]
    say, with the page of the item and no document yet, so that a selection
    loads it exactly when the item has a page; and [setDocument] with this
    id reaches the menu bar. *)
Theorem created_items_are_addressable cfg w item doc :
  created w = false →
  let options := Menu.assign_options (menu_defaults w) cfg in
  NoDup (map item_id (items options)) →
  In item (items options) →
  item_id item ≠ "" →
  let w' := exec (Menu.create cfg) w in
  ∃ el, itemsCache w' !! item_id item = Some el ∧
        elements w' !! el = Some (item_element item) ∧
        In el (menuBar_children w') ∧
        getAttribute "id" (item_element item) = Some (item_id item) ∧
        loads (item_element item) = bool_decide (is_Some (item_page item)) ∧
        Menu.setDocument doc (item_id item) w' =
          (tt, with_trace (trace w' ++ [MenuBarSetDocument doc el]) w').
Proof.
  intros Hcreated options Hnd Hin Hid w'. subst w'.
  unfold exec. rewrite (create_items cfg w Hcreated). fold options. cbn [snd].
  set (w1 := with_menuBarTpl _ _).
  assert (has_id item = true) as Hhas.
  { unfold has_id. apply negb_true_iff. by apply String.eqb_neq. }
  destruct (add_items_cache (items options) w1 item Hnd Hin Hhas)
    as (el & _ & Hchild & Hcache & Helement).
  set (w2 := exec (add_items (items options)) w1) in *.
  exists el. split; [by destruct w2|]. split; [by destruct w2|].
  split; [by destruct w2|]. split; [apply item_element_id|]. split.
  - unfold loads, item_element. simpl. by rewrite andb_true_r.
  - rewrite setDocument_run. unfold published.
    replace (itemsCache (with_created true w2) !! item_id item) with (Some el)
      by (by destruct w2).
    done.
Qed.

(** X14, at the menu with the one item [home]. *)
Lemma created_items_witness :
  let cfg := {| cfg_attributes := None; cfg_rootTemplateAttributes := None;
                cfg_items := Some [home_item]; cfg_loadingMessage := None;
                cfg_errorMessage := None |} in
  let w' := exec (Menu.create cfg) (initial_world example_host) in
  ∃ el, itemsCache w' !! "home" = Some el ∧
        elements w' !! el = Some (item_element home_item).
Proof.
  intros cfg w'.
  destruct (created_items_are_addressable cfg (initial_world example_host) home_item
              (Navigation_getLoaderDoc "")) as (el & Hcache & Helement & _).
  - reflexivity.
  - by apply (bool_decide_unpack _).
  - by left.
  - discriminate.
  - exists el. split; [exact Hcache|exact Helement].
Defined.

(** X15. What the first [create] does to the menu bar, whatever the ids of
    the items are: it appends one new element for every item with an id, in
    the order of the items and also where two items have the same id, and
    it warns once for every item without an id, for which it makes no
    element. *)
Theorem create_fills_the_menu_bar cfg w :
  created w = false →
  let its := items (Menu.assign_options (menu_defaults w) cfg) in
  let w' := exec (Menu.create cfg) w in
  created w' = true ∧
  menuBar_children w' =
    menuBar_children w ++ seq (next_ref w) (length (List.filter has_id its)) ∧
  trace w' =
    trace w ++ map (λ _, no_id_warning) (List.filter (λ i, negb (has_id i)) its).
Proof.
  intros Hcreated its w'. subst w'.
  unfold exec. rewrite (create_items cfg w Hcreated). fold its. cbn [snd].
  set (w1 := with_menuBarTpl _ _).
  destruct (add_items_frame its w1) as (_ & Hc & Ht & _).
  set (w2 := exec (add_items its) w1) in *.
  split; [by destruct w2|]. split.
  - transitivity (menuBar_children w2); [by destruct w2|]. rewrite Hc. done.
  - transitivity (trace w2); [by destruct w2|]. rewrite Ht. done.
Qed.

(** X15, at two items with the same id and one without an id. *)
Lemma create_fills_witness :
  let nameless := {| item_id := ""; item_attributes := []; item_name := None;
                     item_page := None |} in
  let cfg := {| cfg_attributes := None; cfg_rootTemplateAttributes := None;
                cfg_items := Some [home_item; nameless; home_item];
                cfg_loadingMessage := None; cfg_errorMessage := None |} in
  let w' := exec (Menu.create cfg) (initial_world example_host) in
  menuBar_children w' = [0; 1] ∧ trace w' = [no_id_warning].
Proof.
  intros nameless cfg w'.
  destruct (create_fills_the_menu_bar cfg (initial_world example_host) eq_refl)
    as (_ & Hchildren & Htrace).
  split; [exact Hchildren|exact Htrace].
Defined.

Lemma assign_options_no_config d : Menu.assign_options d Menu.no_config = d.
Proof. by destruct d. Qed.

(** X16. [setOptions(cfg)] followed by [get()] creates the menu that
    [create(cfg)] creates: [get] builds the menu from the options that were
    set before, and returns the menu document. *)
Theorem setOptions_then_get cfg w :
  created w = false →
  (Menu.setOptions cfg;; Menu.get) w = (menu_doc w, exec (Menu.create cfg) w).
Proof.
  intros Hcreated.
  destruct (create_first cfg w Hcreated) as (_ & _ & Hdoc).
  unfold exec in *. rewrite (create_items cfg w Hcreated) in *. cbn [snd] in *.
  unfold Menu.setOptions, Menu.get, modify.
  unfold mbind at 1, M_bind at 1. unfold mbind at 1, M_bind at 1, gets at 1.
  set (w0 := with_menu_defaults _ w).
  replace (created w0) with false by (by destruct w).
  unfold mbind at 1 2, M_bind at 1 2.
  rewrite (create_items Menu.no_config w0) by (by destruct w).
  rewrite assign_options_no_config.
  change (menu_defaults w0) with (Menu.assign_options (menu_defaults w) cfg).
  set (options := Menu.assign_options (menu_defaults w) cfg) in *.
  set (w1' := with_menuBarTpl _ (with_menuBarEl _ (with_menu_defaults options w0))).
  set (w1 := with_menuBarTpl _ (with_menuBarEl _ (with_menu_defaults options w))) in *.
  assert (w1' = w1) as -> by done.
  unfold gets, mret, M_ret. by rewrite Hdoc.
Qed.

(** X16, at the menu with the one item [home]. *)
Lemma setOptions_then_get_witness :
  let cfg := {| cfg_attributes := None; cfg_rootTemplateAttributes := None;
                cfg_items := Some [home_item]; cfg_loadingMessage := None;
                cfg_errorMessage := None |} in
  exec (Menu.setOptions cfg;; Menu.get) (initial_world example_host) = home_menu.
Proof.
  intros cfg. unfold exec at 1.
  by rewrite (setOptions_then_get cfg (initial_world example_host) eq_refl).
Defined.

(** ** Event descriptors *)

Lemma split_space_word ev :
  no_space ev = true → split_space ev = (ev, None).
Proof.
  induction ev as [|c ev IH]; [done|]. simpl.
  destruct (Ascii.eqb c " "); [done|]. simpl. intros Hev. by rewrite IH.
Qed.

Lemma split_space_append ev rest :
  no_space ev = true →
  split_space (ev ++ String " " rest)%string = (ev, Some rest).
Proof.
  induction ev as [|c ev IH]; [done|]. simpl.
  destruct (Ascii.eqb c " "); [done|]. simpl. intros Hev. by rewrite IH.
Qed.

Lemma split_space_blank s :
  String.eqb (split_space s).1 "" = starts_blank s.
Proof.
  destruct s as [|c s]; [done|]. simpl.
  destruct (Ascii.eqb c " "); [done|]. by destruct (split_space s).
Qed.

(** X17. How [setListeners] reads the key of an events map.  A key without
    a space is an event name on the document.  In a key with a space, the
    event name is what precedes the first space and the selector is all
    that follows it, further spaces included; the listeners go on the
    elements that the selector matches, on none when the query throws.  When
    nothing follows the first space, or a second space does, the listeners
    go on the document. *)
Theorem descriptor_parts doc ev :
  no_space ev = true →
  Handler.descriptor_targets doc ev = (ev, [TDocument]) ∧
  ∀ selector,
    Handler.descriptor_targets doc (ev ++ " " ++ selector)%string =
      (ev,
       if starts_blank selector then [TDocument]
       else match Handler.attempt_query doc selector with
            | QueryThrows => []
            | Matches els => map TElement els
            end).
Proof.
  intros Hev. unfold Handler.descriptor_targets. split.
  - by rewrite split_space_word.
  - intros selector. change (" " ++ selector)%string with (String " " selector).
    rewrite split_space_append by done. cbn [from_option default].
    rewrite split_space_blank. unfold id.
    destruct (starts_blank selector); [done|]. simpl.
    by destruct (Handler.attempt_query doc selector).
Qed.

(** X17, at the keys [select], [select .item a] and [select  .item]. *)
Lemma descriptor_parts_witness :
  let doc := Parser_dom example_host (VStr "<document></document>") VUndefined in
  Handler.descriptor_targets doc "select" = ("select", [TDocument]) ∧
  Handler.descriptor_targets doc "select .item" =
    ("select", [TElement 1; TElement 2; TElement 3]) ∧
  Handler.descriptor_targets doc "select .item a" = ("select", []) ∧
  Handler.descriptor_targets doc "select  .item" = ("select", [TDocument]).
Proof.
  intros doc. destruct (descriptor_parts doc "select" eq_refl) as [Hword Hkey].
  split; [exact Hword|]. split; [exact (Hkey ".item")|].
  split; [exact (Hkey ".item a")|exact (Hkey " .item")].
Defined.

(** ** What an invocation leaves alone *)




(** ** A sequence of registrations *)






(** ** Preparing a document again *)

(** X20. [prepareDom] on a document without listeners, and then once more
    on the document that it has prepared, with the configuration that it
    completed.  When [appendStyle] returns the first time, it returns the
    second time too: the default handlers are not registered a second time
    and the style stays, but every listener of the events map is registered
    once more.  When [appendStyle] throws, as it does for a style string and
    a document with neither a [head] nor a [document] element, [prepareDom]
    throws the same after the merge of the defaults, before any handler is
    attached. *)
Theorem preparing_twice doc cfg w :
  listeners doc = [] →
  let built := defaults_shallow cfg (page_defaults w) in
  let first := Page.prepareDom (Some doc) cfg w in
  match Page.appendStyle (aget "style" built) doc with
  | Returns _ =>
      ∃ d1 d2,
        first.1 = (Returns (Some d1), built) ∧
        (Page.prepareDom (Some d1) built first.2).1 = (Returns (Some d2), built) ∧
        listeners d1 =
          default_listeners ++
          bound_listeners built (next_ref w) (bindings built doc) ∧
        listeners d2 =
          listeners d1 ++
          bound_listeners built (next_ref first.2) (bindings built doc) ∧
        head d2 = head d1
  | Throws e => first = ((Throws e, built), w)
  end.
Proof.
  intros Hnone built first. subst first.
  rewrite (prepareDom_run doc cfg w)
    by (unfold closures_below; rewrite Hnone; constructor).
  fold built.
  destruct (Page.appendStyle (aget "style" built) doc) as [styled|e] eqn:Hstyle;
    [|done].
  destruct (appendStyle_returns _ _ _ Hstyle) as (Hl & Hq & _).
  cbn [fst snd]. rewrite Hnone.
  change (List.filter _ default_listeners) with default_listeners.
  cbn [app].
  set (bound := bound_listeners built (next_ref w) (bindings built doc)).
  set (d1 := set_listeners (default_listeners ++ bound) styled).
  set (w1 := with_next_ref _ w).
  assert (closures_below (next_ref w1) d1) as Hbelow.
  { unfold w1. rewrite next_ref_with_next_ref.
    pose proof (bound_closures_below built (next_ref w) (bindings built doc)
                  (set_listeners default_listeners doc)) as Hb.
    cbn [listeners set_listeners] in Hb. unfold closures_below in *.
    apply Hb. unfold default_listeners. simpl. repeat constructor. }
  assert (defaults_shallow built (page_defaults w) = built) as Hidem
    by apply defaults_shallow_idempotent.
  assert (bindings built d1 = bindings built doc) as Hbindings.
  { apply bindings_query. unfold d1. by cbn [querySelectorAll set_listeners]. }
  assert (Page.appendStyle (aget "style" built) d1 = Returns d1) as Hagain.
  { unfold Page.appendStyle in *. unfold d1.
    destruct (aget "style" built) as [| | | |s|]; try done.
    destruct (_ || _); [|done]. injection Hstyle as <-. by simpl. }
  exists d1. eexists. split; [done|].
  rewrite (prepareDom_run d1 built w1 Hbelow).
  change (page_defaults w1) with (page_defaults w).
  rewrite !Hidem, Hagain, Hbindings. cbn [fst].
  split; [done|]. split; [done|].
  cbn [listeners set_listeners d1]. split; [|done].
  f_equal. unfold default_listeners. simpl. by rewrite app_nil_r.
Qed.

(** X20, at the document with three elements that match [.item], and at
    the document of the empty markup. *)
Lemma preparing_twice_witness :
  let doc := Parser_dom example_host (VStr "<document></document>") VUndefined in
  let empty := Parser_dom example_host (VStr "") VUndefined in
  let w := initial_world example_host in
  let first := Page.prepareDom (Some doc) two_handlers_cfg w in
  (∃ d1 d2,
     first.1.1 = Returns (Some d1) ∧
     (Page.prepareDom (Some d1) first.1.2 first.2).1.1 = Returns (Some d2) ∧
     length (listeners d1) = 9 ∧ length (listeners d2) = 15 ∧
     head d1 = Some "<style></style>" ∧ head d2 = Some "<style></style>") ∧
  (Page.prepareDom (Some empty) two_handlers_cfg w).1.1 = Throws DomTypeError.
Proof.
  intros doc empty w first. split.
  - destruct (preparing_twice doc two_handlers_cfg w eq_refl)
      as (d1 & d2 & Hfirst & Hsecond & Hl1 & Hl2 & Hhead).
    fold first in Hfirst, Hsecond, Hl2.
    exists d1, d2. rewrite Hfirst. cbn [fst snd]. rewrite Hsecond. cbn [fst].
    split; [done|]. split; [done|]. rewrite Hl2, Hl1.
    split; [reflexivity|]. split; [reflexivity|].
    rewrite Hhead.
    assert (head d1 = Some "<style></style>") as ->; [|done].
    assert (first.1.1 = Returns (Some d1)) as Hd by (by rewrite Hfirst).
    vm_compute in Hd. by injection Hd as <-.
  - by rewrite (preparing_twice empty two_handlers_cfg w eq_refl).
Defined.

(** ** The request of a page *)

(** X21. The request of a page with a [url] that is a non-empty string and
    without a [ready] function: the factory sends one request to this url
    before it returns, with the options of the configuration, completed by
    those of the defaults of the module and by [responseType: "json"]; the
    method is [GET], unless the options of the page carry a truthy
    [method], which is then the method of the request. *)
Theorem page_request host cfg options w u :
  let merged := defaultsDeep cfg (page_defaults w) in
  let page_options := props_of (aget "options" merged) in
  isFunction (aget "ready" merged) = false →
  aget "url" merged = VStr u → u ≠ "" →
  NoDup (map fst page_options) →
  ∃ r, trace (Page.invoke host cfg options w).2 = trace w ++ [AjaxSent r] ∧
       inv_waiting (Page.invoke host cfg options w).1 = Transport (Sends r) ∧
       req_url r = VStr u ∧
       req_method r =
         (if truthy (aget "method" page_options)
          then aget "method" page_options else VStr "GET") ∧
       ∀ k, aget k (req_options r) =
              match alookup k page_options with
              | Some v => v
              | None => if decide (k = "responseType") then VStr "json" else VUndefined
              end.
Proof.
  intros merged page_options Hready Hurl Hu Hnd.
  assert (truthy (aget "url" merged) = true) as Htruthy.
  { rewrite Hurl. simpl. apply negb_true_iff. by apply String.eqb_neq. }
  rewrite (invoke_url host cfg options w Hready Htruthy). fold merged.
  rewrite Hurl. unfold Ajax_get.
  destruct (ajax_request_run u (aget "options" merged) "GET" Hnd)
    as (r & -> & Hr).
  exists r. cbn [fst snd inv_waiting sent]. rewrite advance_trace. done.
Qed.

(** X21, at [{url: "/x", options: {method: "POST"}}]. *)
Lemma page_request_witness :
  let cfg := [("url", VStr "/x"); ("options", VObj Plain [("method", VStr "POST")])] in
  ∃ r, trace (Page.invoke example_host cfg VUndefined (initial_world example_host)).2 =
         [AjaxSent r] ∧
       req_method r = VStr "POST" ∧
       aget "responseType" (req_options r) = VStr "json".
Proof.
  intros cfg.
  destruct (page_request example_host cfg VUndefined (initial_world example_host) "/x")
    as (r & Htrace & _ & _ & Hmethod & Hoptions).
  - reflexivity.
  - reflexivity.
  - discriminate.
  - by apply (bool_decide_unpack _).
  - exists r. split; [exact Htrace|]. split; [exact Hmethod|]. apply Hoptions.
Defined.
